(** * CassandraBugTracker: the issue handlers of [main.py] and their writes

    A shallow embedding of [create_issue] and of the two [update_issue]
    handlers registered on [PUT /issues/{issue_id}] in [src/main.py], over
    the request models of [src/models.py] and the table layout of
    [src/database.py].  A handler is a computation in a small state and
    exception monad: the state is the log of the statements handed to
    [db.execute], the exceptions are the Python exceptions the handlers raise
    or catch.  The response models are built as pydantic builds them: a
    field is validated and coerced, and a value the model refuses raises
    inside the handler's [try].  The read endpoints and the
    [CassandraManager] of [src/database.py] follow. *)

From Stdlib Require Import List String ZArith NArith Bool Lia.
Import ListNotations.
Open Scope string_scope.
Open Scope list_scope.

(* ------------------------------------------------------------------ *)
(** ** Python values *)

(** [uuid.UUID] is a 128-bit integer; [datetime] is kept as a number. *)
Definition uuid := N.
Definition datetime := Z.

(** models.py: [class Priority(str, Enum)] and [class Status(str, Enum)]. *)
Inductive Priority := LOW | MEDIUM | HIGH | CRITICAL.
Inductive Status := OPEN | IN_PROGRESS | RESOLVED | CLOSED | REOPENED.

Definition Priority_value (p : Priority) : string :=
  match p with
  | LOW => "low" | MEDIUM => "medium" | HIGH => "high" | CRITICAL => "critical"
  end.

Definition Priority_name (p : Priority) : string :=
  match p with
  | LOW => "LOW" | MEDIUM => "MEDIUM" | HIGH => "HIGH" | CRITICAL => "CRITICAL"
  end.

Definition Status_value (s : Status) : string :=
  match s with
  | OPEN => "open" | IN_PROGRESS => "in_progress" | RESOLVED => "resolved"
  | CLOSED => "closed" | REOPENED => "reopened"
  end.

Definition Status_name (s : Status) : string :=
  match s with
  | OPEN => "OPEN" | IN_PROGRESS => "IN_PROGRESS" | RESOLVED => "RESOLVED"
  | CLOSED => "CLOSED" | REOPENED => "REOPENED"
  end.

(** The values that flow through the handlers: [None], a [str], a member of
    one of the two [str]-mixin enums, a [UUID], a [datetime]. *)
Inductive pyval :=
| PNone
| PStr (s : string)
| PStatus (e : Status)
| PPriority (p : Priority)
| PUUID (u : uuid)
| PDatetime (t : datetime).

(** The exceptions of the handlers.  [StorageError] stands for whatever
    [db.execute] raises; its argument identifies the driver's exception. *)
Inductive exn :=
| HTTPException (status_code : Z) (detail : string)
| KeyError (key : string)
| ValueError (msg : string)
| StorageError (msg : string).

(** The library functions the handlers call and this repository does not
    define: the [uuid.UUID(text)] constructor ([None] when it raises
    [ValueError]), [str] of a [UUID], of a [datetime] and of an exception. *)
Record Runtime := {
  UUID : string -> option uuid;
  str_uuid : uuid -> string;
  str_datetime : datetime -> string;
  str_exn : exn -> string
}.

(** The text of a [str] or of a member of a [str]-mixin enum: such a member
    is a [str] whose content is its value. *)
Definition as_str (v : pyval) : option string :=
  match v with
  | PStr s => Some s
  | PStatus e => Some (Status_value e)
  | PPriority p => Some (Priority_value p)
  | _ => None
  end.

(** Python's [==]. *)
Definition py_eq (a b : pyval) : bool :=
  match as_str a, as_str b with
  | Some x, Some y => String.eqb x y
  | None, None =>
      match a, b with
      | PNone, PNone => true
      | PUUID u, PUUID v => N.eqb u v
      | PDatetime t, PDatetime t' => Z.eqb t t'
      | _, _ => false
      end
  | _, _ => false
  end.

Definition py_ne (a b : pyval) : bool := negb (py_eq a b).

(** Python's truth value: [None] and the empty string are false. *)
Definition py_truthy (v : pyval) : bool :=
  match v with
  | PNone => false
  | PStr s => negb (String.eqb s "")
  | PStatus e => negb (String.eqb (Status_value e) "")
  | PPriority p => negb (String.eqb (Priority_value p) "")
  | PUUID _ => true
  | PDatetime _ => true
  end.

Definition is_None (v : pyval) : bool :=
  match v with PNone => true | _ => false end.

(** Python's [str()]: [Enum.__str__] prints [Class.MEMBER] also for the
    [str]-mixin enums. *)
Definition py_str (rt : Runtime) (v : pyval) : string :=
  match v with
  | PNone => "None"
  | PStr s => s
  | PStatus e => ("Status." ++ Status_name e)%string
  | PPriority p => ("Priority." ++ Priority_name p)%string
  | PUUID u => str_uuid rt u
  | PDatetime t => str_datetime rt t
  end.

(** [x if x else None]. *)
Definition or_None (v : pyval) : pyval := if py_truthy v then v else PNone.

(** [str(x) if x else None]. *)
Definition str_or_None (rt : Runtime) (v : pyval) : pyval :=
  if py_truthy v then PStr (py_str rt v) else PNone.

(** [str(x) if x is not None else None]. *)
Definition str_unless_None (rt : Runtime) (v : pyval) : pyval :=
  if is_None v then PNone else PStr (py_str rt v).

Definition of_text (o : option string) : pyval :=
  match o with Some s => PStr s | None => PNone end.

Definition of_uuid (o : option uuid) : pyval :=
  match o with Some u => PUUID u | None => PNone end.

(* ------------------------------------------------------------------ *)
(** ** Request and response models (models.py) *)

Module IssueCreate.
Record t := {
    project_id : uuid;
    title : string;
    description : string;
    status : Status;
    priority : Priority;
    assignee_id : option uuid;
    reporter_id : uuid;
    component : option string
  }.
End IssueCreate.

(** Every field of [IssueUpdate] is optional with default [None].  The outer
    [option] is whether the request set the field (what [exclude_unset]
    looks at), the inner one whether it set it to [null]. *)
Module IssueUpdate.
Record t := {
    title : option (option string);
    description : option (option string);
    status : option (option Status);
    priority : option (option Priority);
    assignee_id : option (option uuid);
    component : option (option string)
  }.
End IssueUpdate.

Module IssueResponse.
Record t := {
    issue_id : pyval;
    project_id : pyval;
    title : pyval;
    description : pyval;
    status : pyval;
    priority : pyval;
    assignee_id : pyval;
    reporter_id : pyval;
    component : pyval;
    created_at : pyval;
    updated_at : pyval
  }.
End IssueResponse.

(** [Status(text)] and [Priority(text)]: the member with that value, if
    there is one. *)
Definition Status_of_value (text : string) : option Status :=
  find (fun e => String.eqb (Status_value e) text)
       [OPEN; IN_PROGRESS; RESOLVED; CLOSED; REOPENED].

Definition Priority_of_value (text : string) : option Priority :=
  find (fun p => String.eqb (Priority_value p) text) [LOW; MEDIUM; HIGH; CRITICAL].

(** How pydantic reads a value for a field of a response model ([None]
    here: it raises [ValidationError]).  A [str] field takes a [str], and
    of a member of a [str]-mixin enum its value; a [Status] or [Priority]
    field takes a member or the text of one and holds the member; a [UUID]
    field takes a [UUID], or a [str] that [uuid.UUID] reads; an [Optional]
    field takes [None] besides. *)
Definition validate_str (v : pyval) : option pyval := option_map PStr (as_str v).

Definition validate_Status (v : pyval) : option pyval :=
  match as_str v with
  | Some text => option_map PStatus (Status_of_value text)
  | None => None
  end.

Definition validate_Priority (v : pyval) : option pyval :=
  match as_str v with
  | Some text => option_map PPriority (Priority_of_value text)
  | None => None
  end.

Definition validate_UUID (rt : Runtime) (v : pyval) : option pyval :=
  match v with
  | PUUID u => Some (PUUID u)
  | _ =>
      match as_str v with
      | Some text => option_map PUUID (UUID rt text)
      | None => None
      end
  end.

Definition validate_Optional (validate : pyval -> option pyval) (v : pyval)
  : option pyval :=
  match v with
  | PNone => Some PNone
  | _ => validate v
  end.

(** [IssueResponse(issue_id=..., ..., updated_at=...)] (models.py 83-94)
    for identifiers that are [UUID]s and times that are [datetime]s, as
    the handlers pass them. *)
Definition new_IssueResponse (rt : Runtime) (issue_id project_id : uuid)
    (title description status priority assignee_id reporter_id component : pyval)
    (created_at updated_at : datetime) : option IssueResponse.t :=
  match validate_str title, validate_str description,
        validate_Status status, validate_Priority priority,
        validate_Optional (validate_UUID rt) assignee_id,
        validate_UUID rt reporter_id,
        validate_Optional validate_str component with
  | Some title, Some description, Some status, Some priority,
    Some assignee_id, Some reporter_id, Some component =>
      Some {| IssueResponse.issue_id := PUUID issue_id;
              IssueResponse.project_id := PUUID project_id;
              IssueResponse.title := title;
              IssueResponse.description := description;
              IssueResponse.status := status;
              IssueResponse.priority := priority;
              IssueResponse.assignee_id := assignee_id;
              IssueResponse.reporter_id := reporter_id;
              IssueResponse.component := component;
              IssueResponse.created_at := PDatetime created_at;
              IssueResponse.updated_at := PDatetime updated_at |}
  | _, _, _, _, _, _, _ => None
  end.

(** A Python [dict] with [str] keys, in insertion order. *)
Definition dict := list (string * pyval).

Fixpoint dict_find (d : dict) (k : string) : option pyval :=
  match d with
  | [] => None
  | (k', v) :: d' => if String.eqb k k' then Some v else dict_find d' k
  end.

(** [d.get(k, default)] and [k in d]. *)
Definition dict_get (d : dict) (k : string) (default : pyval) : pyval :=
  match dict_find d k with Some v => v | None => default end.

Definition dict_in (k : string) (d : dict) : bool :=
  match dict_find d k with Some _ => true | None => false end.

Definition dict_empty (d : dict) : bool :=
  match d with [] => true | _ => false end.

(** What the request supplied for a field, if it set it. *)
Definition supplied {A} (f : A -> pyval) (o : option (option A)) : option pyval :=
  match o with
  | None => None
  | Some None => Some PNone
  | Some (Some a) => Some (f a)
  end.

Definition entry {A} (k : string) (f : A -> pyval) (o : option (option A)) : dict :=
  match o with
  | None => []
  | Some None => [(k, PNone)]
  | Some (Some a) => [(k, f a)]
  end.

(** [issue_update.dict(exclude_unset=True)]: the fields the request set, in
    the order of the model's declaration; enum fields stay enum members. *)
Definition dict_exclude_unset (u : IssueUpdate.t) : dict :=
  entry "title" PStr (IssueUpdate.title u)
  ++ entry "description" PStr (IssueUpdate.description u)
  ++ entry "status" PStatus (IssueUpdate.status u)
  ++ entry "priority" PPriority (IssueUpdate.priority u)
  ++ entry "assignee_id" PUUID (IssueUpdate.assignee_id u)
  ++ entry "component" PStr (IssueUpdate.component u).

(* ------------------------------------------------------------------ *)
(** ** Tables and statements (database.py) *)

Inductive table :=
| issues_by_project
| issues_by_status
| issues_by_assignee
| issues_by_priority
| issues_by_component
| issue_history.

Definition table_eqb (a b : table) : bool :=
  match a, b with
  | issues_by_project, issues_by_project
  | issues_by_status, issues_by_status
  | issues_by_assignee, issues_by_assignee
  | issues_by_priority, issues_by_priority
  | issues_by_component, issues_by_component
  | issue_history, issue_history => true
  | _, _ => false
  end.

(** A row of [issues_by_project] as [dict_factory] returns it.  The ten
    columns of the table are always there.  [create_tables] gives the table
    no [component] column, so a row read from it has [component = None]
    here: the key is missing from the dict.  [Some v] is a row that carries
    the key, as a table created with that column would return it. *)
Module ProjectRow.
Record t := {
    project_id : uuid;
    created_at : datetime;
    issue_id : uuid;
    title : pyval;
    description : pyval;
    status : pyval;
    priority : pyval;
    assignee_id : pyval;
    reporter_id : pyval;
    updated_at : datetime;
    component : option pyval
  }.
End ProjectRow.

Module ComponentRow.
Record t := {
    project_id : uuid;
    component : pyval;
    created_at : datetime;
    issue_id : uuid;
    title : pyval;
    status : pyval;
    priority : pyval;
    assignee_id : pyval
  }.
End ComponentRow.

(** The write statements the handlers hand to [db.execute], with the values
    bound to their [%s] placeholders, column by column. *)
Inductive op :=
| INSERT (into : table) (values : dict)
| UPDATE (tbl : table) (set : dict) (where_ : dict)
| DELETE (from : table) (where_ : dict).

Definition op_table (o : op) : table :=
  match o with
  | INSERT t _ => t
  | UPDATE t _ _ => t
  | DELETE t _ => t
  end.

Definition on_table (t : table) (l : list op) : list op :=
  filter (fun o => table_eqb (op_table o) t) l.

(** Every column a statement binds, with its value. *)
Definition op_bindings (o : op) : dict :=
  match o with
  | INSERT _ v => v
  | UPDATE _ s w => s ++ w
  | DELETE _ w => w
  end.

Definition is_view (t : table) : bool :=
  match t with
  | issues_by_status | issues_by_assignee | issues_by_priority
  | issues_by_component => true
  | _ => false
  end.

(* ------------------------------------------------------------------ *)
(** ** The world a handler runs in, and the monad *)

(** The tables the handlers read, the moment the storage fails, if it does
    ([Some (n, msg)]: the call after [n] successful ones raises), the clock
    and the stream of [uuid.uuid4()] results. *)
Record World := {
  w_issues_by_project : list ProjectRow.t;
  w_issues_by_component : list ComponentRow.t;
  w_fail : option (nat * string);
  w_now : datetime;
  w_uuid4 : nat -> uuid
}.

Record St := {
  failing : option nat;
  next_uuid : nat;
  log : list op
}.

Inductive result (A : Type) :=
| Ok (a : A)
| Raise (e : exn).
Arguments Ok {A} a.
Arguments Raise {A} e.

Definition M (A : Type) := St -> St * result A.

Definition ret {A} (a : A) : M A := fun st => (st, Ok a).

Definition raise {A} (e : exn) : M A := fun st => (st, Raise e).

Definition bind {A B} (m : M A) (f : A -> M B) : M B :=
  fun st =>
    match m st with
    | (st', Ok a) => f a st'
    | (st', Raise e) => (st', Raise e)
    end.

Notation "x <- m ;; k" := (bind m (fun x => k))
  (at level 61, m at next level, right associativity).
Notation "m ;; k" := (bind m (fun _ => k))
  (at level 61, right associativity).

(** [try: m  except Exception as e: h e]. *)
Definition try_except {A} (m : M A) (h : exn -> M A) : M A :=
  fun st =>
    match m st with
    | (st', Ok a) => (st', Ok a)
    | (st', Raise e) => h e st'
    end.

Fixpoint for_each {A} (l : list A) (body : A -> M unit) : M unit :=
  match l with
  | [] => ret tt
  | x :: xs => body x ;; for_each xs body
  end.

(** What a call of a pydantic model gives: the model, or the
    [ValidationError] it raises, a [ValueError]. *)
Definition answer {A} (model : option A) : result A :=
  match model with
  | Some r => Ok r
  | None => Raise (ValueError "validation error")
  end.

Definition construct {A} (model : option A) : M A := fun st => (st, answer model).

(** What comes out of [try: ... except Exception as e: raise
    HTTPException(status_code=500, detail=prefix + str(e))] when the body
    ends with [r]. *)
Definition caught {A} (rt : Runtime) (prefix : string) (r : result A) : result A :=
  match r with
  | Ok a => Ok a
  | Raise e => Raise (HTTPException 500 (prefix ++ str_exn rt e)%string)
  end.

Definition init (w : World) : St :=
  {| failing := option_map fst (w_fail w); next_uuid := 0; log := [] |}.

Definition run {A} (w : World) (m : M A) : St * result A := m (init w).

(** A state in which the storage never fails. *)
Definition quiet (n : nat) (l : list op) : St :=
  {| failing := None; next_uuid := n; log := l |}.

Section Effects.
Variable rt : Runtime.
Variable w : World.

Definition fail_msg : string :=
    match w_fail w with Some (_, msg) => msg | None => "" end.

  (** One call of [db.execute]: it raises when the storage fails now, and
      otherwise yields [a] after [eff] has been applied to the log. *)
Definition db_call {A} (a : A) (eff : list op -> list op) : M A :=
    fun st =>
      match failing st with
      | Some O =>
          ({| failing := None; next_uuid := next_uuid st; log := log st |},
           Raise (StorageError fail_msg))
      | Some (S n) =>
          ({| failing := Some n; next_uuid := next_uuid st; log := eff (log st) |},
           Ok a)
      | None =>
          ({| failing := None; next_uuid := next_uuid st; log := eff (log st) |},
           Ok a)
      end.

  (** [db.execute(query, params)] of a write. *)
Definition execute (o : op) : M unit := db_call tt (fun l => l ++ [o]).

  (** [db.execute(query, params)] of a [SELECT] that returns [rows]. *)
Definition select {A} (rows : list A) : M (list A) := db_call rows (fun l => l).

Definition generate_uuid : M uuid :=
    fun st =>
      ({| failing := failing st; next_uuid := S (next_uuid st); log := log st |},
       Ok (w_uuid4 w (next_uuid st))).

Definition get_current_time : M datetime := ret (w_now w).

  (** [uuid.UUID(text)]. *)
Definition parse_uuid (text : string) : M uuid :=
    match UUID rt text with
    | Some u => ret u
    | None => raise (ValueError "badly formed hexadecimal UUID string")
    end.

  (** A member of the list [changes]: [(field_changed, old_value, new_value)]. *)
Definition change := (string * pyval * pyval)%type.

  (** [INSERT INTO issue_history (...) VALUES (...)] for one member of
      [changes] (main.py 711-727, 983-999). *)
Definition history_query (event_id : uuid) (c : change)
      (project_uuid issue_uuid : uuid) (updated_at : datetime)
      (changed_by : pyval) : op :=
    let '(field_changed, old_value, new_value) := c in
    INSERT issue_history
      [("project_id", PUUID project_uuid);
       ("issue_id", PUUID issue_uuid);
       ("changed_at", PDatetime updated_at);
       ("event_id", PUUID event_id);
       ("field_changed", PStr field_changed);
       ("old_value", str_unless_None rt old_value);
       ("new_value", str_unless_None rt new_value);
       ("changed_by", changed_by)].

  (** main.py 710-727 and, word for word, 982-999: [if changes:] one
      [INSERT] into [issue_history] per member, each with a fresh
      [event_id]. *)
Definition write_history (changes : list change)
      (project_uuid issue_uuid : uuid) (updated_at : datetime)
      (changed_by : pyval) : M unit :=
    match changes with
    | [] => ret tt
    | _ =>
        for_each changes (fun c =>
          event_id <- generate_uuid ;;
          execute (history_query event_id c project_uuid issue_uuid
                                 updated_at changed_by))
    end.

  (** main.py 175-265. *)
Definition create_issue (issue : IssueCreate.t) : M IssueResponse.t :=
    issue_id <- generate_uuid ;;
    created_at <- get_current_time ;;
    let updated_at := created_at in
    let project_id := PUUID (IssueCreate.project_id issue) in
    let title := PStr (IssueCreate.title issue) in
    let description := PStr (IssueCreate.description issue) in
    let status_value := PStr (Status_value (IssueCreate.status issue)) in
    let priority_value := PStr (Priority_value (IssueCreate.priority issue)) in
    let assignee_id := of_uuid (IssueCreate.assignee_id issue) in
    let reporter_id := PUUID (IssueCreate.reporter_id issue) in
    let component := of_text (IssueCreate.component issue) in
    try_except
      (execute (INSERT issues_by_project
         [("project_id", project_id); ("created_at", PDatetime created_at);
          ("issue_id", PUUID issue_id); ("title", title);
          ("description", description); ("status", status_value);
          ("priority", priority_value); ("assignee_id", assignee_id);
          ("reporter_id", reporter_id); ("updated_at", PDatetime updated_at)]) ;;
       execute (INSERT issues_by_status
         [("project_id", project_id); ("status", status_value);
          ("created_at", PDatetime created_at); ("issue_id", PUUID issue_id);
          ("title", title); ("priority", priority_value);
          ("assignee_id", assignee_id)]) ;;
       (if py_truthy assignee_id then
          execute (INSERT issues_by_assignee
            [("project_id", project_id); ("assignee_id", assignee_id);
             ("status", status_value); ("created_at", PDatetime created_at);
             ("issue_id", PUUID issue_id); ("title", title);
             ("priority", priority_value)])
        else ret tt) ;;
       execute (INSERT issues_by_priority
         [("project_id", project_id); ("priority", priority_value);
          ("created_at", PDatetime created_at); ("issue_id", PUUID issue_id);
          ("title", title); ("status", status_value);
          ("assignee_id", assignee_id)]) ;;
       (if py_truthy component then
          execute (INSERT issues_by_component
            [("project_id", project_id); ("component", component);
             ("created_at", PDatetime created_at); ("issue_id", PUUID issue_id);
             ("title", title); ("status", status_value);
             ("priority", priority_value); ("assignee_id", assignee_id)])
        else ret tt) ;;
       construct
         (new_IssueResponse rt issue_id (IssueCreate.project_id issue)
            title description status_value priority_value assignee_id
            reporter_id component created_at updated_at))
      (fun e => raise (HTTPException 500 ("Error creating issue: " ++ str_exn rt e)%string)).

End Effects.

(* ------------------------------------------------------------------ *)
(** ** The local variables of [update_issue] *)

(** Both handlers compute the same locals before they write; the blocks
    that synchronise the tables read them from this record. *)
Record Locals := {
  updated_fields : dict;
  project_uuid : uuid;
  issue_uuid : uuid;
  created_at : datetime;
  updated_at : datetime;
  reporter_id : pyval;
  old_title : pyval;
  old_description : pyval;
  old_status : pyval;
  old_priority : pyval;
  old_assignee_id : pyval;
  old_component : pyval;
  new_title : pyval;
  new_description : pyval;
  new_status : pyval;
  new_priority : pyval;
  new_assignee_id : pyval;
  new_component : pyval
}.

(** The [IssueResponse(...)] both handlers build last, inside the [try]
    (main.py 730-742, 1002-1014): the model pydantic makes of the new
    values, if it accepts them. *)
Definition response (rt : Runtime) (L : Locals) : option IssueResponse.t :=
  new_IssueResponse rt (issue_uuid L) (project_uuid L)
    (new_title L) (new_description L) (new_status L) (new_priority L)
    (new_assignee_id L) (reporter_id L) (new_component L)
    (created_at L) (updated_at L).

(** [UPDATE issues_by_project SET ... WHERE project_id = %s AND
    created_at = %s AND issue_id = %s] (main.py 549-559, 832-842). *)
Definition update_main_query (L : Locals) : op :=
  UPDATE issues_by_project
    [("title", new_title L); ("description", new_description L);
     ("status", new_status L); ("priority", new_priority L);
     ("assignee_id", new_assignee_id L); ("updated_at", PDatetime (updated_at L))]
    [("project_id", PUUID (project_uuid L));
     ("created_at", PDatetime (created_at L));
     ("issue_id", PUUID (issue_uuid L))].

(** The statements on the four views; the same texts in both handlers. *)
Definition delete_old_status (L : Locals) : op :=
  DELETE issues_by_status
    [("project_id", PUUID (project_uuid L)); ("status", old_status L);
     ("created_at", PDatetime (created_at L)); ("issue_id", PUUID (issue_uuid L))].

Definition insert_new_status (L : Locals) : op :=
  INSERT issues_by_status
    [("project_id", PUUID (project_uuid L)); ("status", new_status L);
     ("created_at", PDatetime (created_at L)); ("issue_id", PUUID (issue_uuid L));
     ("title", new_title L); ("priority", new_priority L);
     ("assignee_id", new_assignee_id L)].

(** [key_status] is the status the [WHERE] clause is given: [old_status] in
    the first handler, [new_status] in the second. *)
Definition update_status (L : Locals) (key_status : pyval) : op :=
  UPDATE issues_by_status
    [("title", new_title L); ("priority", new_priority L);
     ("assignee_id", new_assignee_id L)]
    [("project_id", PUUID (project_uuid L)); ("status", key_status);
     ("created_at", PDatetime (created_at L)); ("issue_id", PUUID (issue_uuid L))].

Definition delete_old_priority (L : Locals) : op :=
  DELETE issues_by_priority
    [("project_id", PUUID (project_uuid L)); ("priority", old_priority L);
     ("created_at", PDatetime (created_at L)); ("issue_id", PUUID (issue_uuid L))].

Definition insert_new_priority (L : Locals) : op :=
  INSERT issues_by_priority
    [("project_id", PUUID (project_uuid L)); ("priority", new_priority L);
     ("created_at", PDatetime (created_at L)); ("issue_id", PUUID (issue_uuid L));
     ("title", new_title L); ("status", new_status L);
     ("assignee_id", new_assignee_id L)].

Definition update_priority (L : Locals) (key_priority : pyval) : op :=
  UPDATE issues_by_priority
    [("title", new_title L); ("status", new_status L);
     ("assignee_id", new_assignee_id L)]
    [("project_id", PUUID (project_uuid L)); ("priority", key_priority);
     ("created_at", PDatetime (created_at L)); ("issue_id", PUUID (issue_uuid L))].

Definition delete_old_assignee (L : Locals) : op :=
  DELETE issues_by_assignee
    [("project_id", PUUID (project_uuid L)); ("assignee_id", old_assignee_id L);
     ("status", old_status L); ("created_at", PDatetime (created_at L));
     ("issue_id", PUUID (issue_uuid L))].

Definition insert_new_assignee (L : Locals) : op :=
  INSERT issues_by_assignee
    [("project_id", PUUID (project_uuid L)); ("assignee_id", new_assignee_id L);
     ("status", new_status L); ("created_at", PDatetime (created_at L));
     ("issue_id", PUUID (issue_uuid L)); ("title", new_title L);
     ("priority", new_priority L)].

Definition update_assignee (L : Locals) : op :=
  UPDATE issues_by_assignee
    [("title", new_title L); ("priority", new_priority L)]
    [("project_id", PUUID (project_uuid L)); ("assignee_id", new_assignee_id L);
     ("status", new_status L); ("created_at", PDatetime (created_at L));
     ("issue_id", PUUID (issue_uuid L))].

Definition delete_old_component (L : Locals) : op :=
  DELETE issues_by_component
    [("project_id", PUUID (project_uuid L)); ("component", old_component L);
     ("created_at", PDatetime (created_at L)); ("issue_id", PUUID (issue_uuid L))].

Definition insert_new_component (L : Locals) : op :=
  INSERT issues_by_component
    [("project_id", PUUID (project_uuid L)); ("component", new_component L);
     ("created_at", PDatetime (created_at L)); ("issue_id", PUUID (issue_uuid L));
     ("title", new_title L); ("status", new_status L);
     ("priority", new_priority L); ("assignee_id", new_assignee_id L)].

Definition update_component (L : Locals) : op :=
  UPDATE issues_by_component
    [("title", new_title L); ("status", new_status L);
     ("priority", new_priority L); ("assignee_id", new_assignee_id L)]
    [("project_id", PUUID (project_uuid L)); ("component", new_component L);
     ("created_at", PDatetime (created_at L)); ("issue_id", PUUID (issue_uuid L))].

Definition when (b : bool) (m : M unit) : M unit := if b then m else ret tt.

(* ------------------------------------------------------------------ *)
(** ** The first handler registered on [PUT /issues/{issue_id}]
       (main.py 505-745) *)

Module First.
Section Handler.
Variable rt : Runtime.
Variable w : World.

  (** main.py 517-528: all the rows of the project, then the first one with
      the issue's id. *)
Definition rows_of_project (project_uuid : uuid) : list ProjectRow.t :=
    filter (fun row => N.eqb (ProjectRow.project_id row) project_uuid)
           (w_issues_by_project w).

Definition find_issue (project_uuid issue_uuid : uuid) (result : list ProjectRow.t)
    : option ProjectRow.t :=
    find (fun row => N.eqb (ProjectRow.issue_id row) issue_uuid) result.

  (** [current_issue['component']]. *)
Definition getitem_component (current_issue : ProjectRow.t) : M pyval :=
    match ProjectRow.component current_issue with
    | Some v => ret v
    | None => raise (KeyError "component")
    end.

  (** main.py 539-546 and 564-567, once [current_issue['component']] has
      been read. *)
Definition locals (project_uuid issue_uuid : uuid) (current_issue : ProjectRow.t)
      (current_component : pyval) (updated_fields : dict) (updated_at : datetime)
    : Locals :=
    {| updated_fields := updated_fields;
       project_uuid := project_uuid;
       issue_uuid := issue_uuid;
       created_at := ProjectRow.created_at current_issue;
       updated_at := updated_at;
       reporter_id := ProjectRow.reporter_id current_issue;
       old_title := ProjectRow.title current_issue;
       old_description := ProjectRow.description current_issue;
       old_status := ProjectRow.status current_issue;
       old_priority := ProjectRow.priority current_issue;
       old_assignee_id := ProjectRow.assignee_id current_issue;
       old_component := current_component;
       new_title := dict_get updated_fields "title" (ProjectRow.title current_issue);
       new_description :=
         dict_get updated_fields "description" (ProjectRow.description current_issue);
       new_status := dict_get updated_fields "status" (ProjectRow.status current_issue);
       new_priority :=
         dict_get updated_fields "priority" (ProjectRow.priority current_issue);
       new_assignee_id :=
         dict_get updated_fields "assignee_id" (ProjectRow.assignee_id current_issue);
       new_component := dict_get updated_fields "component" current_component |}.

  (** main.py 569-598.  Each block returns what it appends to [changes]. *)
Definition sync_issues_by_status (L : Locals) : M (list change) :=
    if dict_in "status" (updated_fields L) then
      execute w (delete_old_status L) ;;
      execute w (insert_new_status L) ;;
      ret [("status", old_status L, new_status L)]
    else
      execute w (update_status L (old_status L)) ;;
      ret [].

  (** main.py 600-629. *)
Definition sync_issues_by_priority (L : Locals) : M (list change) :=
    if dict_in "priority" (updated_fields L) then
      execute w (delete_old_priority L) ;;
      execute w (insert_new_priority L) ;;
      ret [("priority", old_priority L, new_priority L)]
    else
      execute w (update_priority L (old_priority L)) ;;
      ret [].

  (** main.py 631-672. *)
Definition sync_issues_by_assignee (L : Locals) : M (list change) :=
    let assignee_changed := dict_in "assignee_id" (updated_fields L) in
    let status_changed := dict_in "status" (updated_fields L) in
    if assignee_changed || status_changed then
      when (py_truthy (old_assignee_id L)) (execute w (delete_old_assignee L)) ;;
      when (py_truthy (new_assignee_id L)) (execute w (insert_new_assignee L)) ;;
      ret (if assignee_changed
           then [("assignee_id", str_or_None rt (old_assignee_id L),
                                 str_or_None rt (new_assignee_id L))]
           else [])
    else
      when (py_truthy (new_assignee_id L)) (execute w (update_assignee L)) ;;
      ret [].

  (** main.py 674-707. *)
Definition sync_issues_by_component (L : Locals) : M (list change) :=
    if dict_in "component" (updated_fields L) then
      when (py_truthy (old_component L)) (execute w (delete_old_component L)) ;;
      when (py_truthy (new_component L)) (execute w (insert_new_component L)) ;;
      ret [("component", old_component L, new_component L)]
    else
      when (py_truthy (new_component L)) (execute w (update_component L)) ;;
      ret [].

  (** main.py 548-742. *)
Definition update_writes (L : Locals) : M IssueResponse.t :=
    execute w (update_main_query L) ;;
    c1 <- sync_issues_by_status L ;;
    c2 <- sync_issues_by_priority L ;;
    c3 <- sync_issues_by_assignee L ;;
    c4 <- sync_issues_by_component L ;;
    write_history rt w (c1 ++ c2 ++ c3 ++ c4)
      (project_uuid L) (issue_uuid L) (updated_at L) (reporter_id L) ;;
    construct (response rt L).

  (** The body of the [try] (main.py 513-742). *)
Definition update_issue_body (issue_id project_id : string)
      (issue_update : IssueUpdate.t) : M IssueResponse.t :=
    project_uuid <- parse_uuid rt project_id ;;
    issue_uuid <- parse_uuid rt issue_id ;;
    result <- select w (rows_of_project project_uuid) ;;
    match find_issue project_uuid issue_uuid result with
    | None => raise (HTTPException 404 "Issue not found")
    | Some current_issue =>
        let updated_fields := dict_exclude_unset issue_update in
        if dict_empty updated_fields then
          raise (HTTPException 400 "No fields to update")
        else
          current_component <- getitem_component current_issue ;;
          updated_at <- get_current_time w ;;
          update_writes
            (locals project_uuid issue_uuid current_issue current_component
                    updated_fields updated_at)
    end.

  (** main.py 505-745: every exception of the body, the two
      [HTTPException]s included, is caught and raised again with status
      500. *)
Definition update_issue (issue_id project_id : string)
      (issue_update : IssueUpdate.t) : M IssueResponse.t :=
    try_except (update_issue_body issue_id project_id issue_update)
      (fun e =>
         raise (HTTPException 500 ("Error updating issue: " ++ str_exn rt e)%string)).

End Handler.
End First.

(* ------------------------------------------------------------------ *)
(** ** The second handler registered on [PUT /issues/{issue_id}]
       (main.py 749-1017) *)

Module Second.
Section Handler.
Variable rt : Runtime.
Variable w : World.

  (** main.py 758-764: [SELECT ... WHERE project_id = %s AND issue_id = %s
      LIMIT 1]. *)
Definition get_query (project_uuid issue_uuid : uuid) : list ProjectRow.t :=
    firstn 1
      (filter (fun row => N.eqb (ProjectRow.project_id row) project_uuid
                          && N.eqb (ProjectRow.issue_id row) issue_uuid)
              (w_issues_by_project w)).

  (** main.py 770-775. *)
Definition component_query (project_uuid issue_uuid : uuid) : list ComponentRow.t :=
    firstn 1
      (filter (fun row => N.eqb (ComponentRow.project_id row) project_uuid
                          && N.eqb (ComponentRow.issue_id row) issue_uuid)
              (w_issues_by_component w)).

  (** [result.one()]. *)
Definition one {A} (rows : list A) : option A := hd_error rows.

  (** No value of [pyval] is a class, so [isinstance(v, type)] is false and
      lines 800-803 never replace an enum member by its [.value]. *)
Definition isinstance_type (v : pyval) : bool := false.

Definition dot_value (v : pyval) : pyval :=
    match as_str v with Some s => PStr s | None => v end.

Definition enum_value (v : pyval) : pyval :=
    if isinstance_type v then dot_value v else v.

  (** main.py 785-808. *)
Definition locals (project_uuid issue_uuid : uuid) (current_issue : ProjectRow.t)
      (current_component : pyval) (updated_fields : dict) (updated_at : datetime)
    : Locals :=
    let old_title := ProjectRow.title current_issue in
    let old_description := ProjectRow.description current_issue in
    let old_status := ProjectRow.status current_issue in
    let old_priority := ProjectRow.priority current_issue in
    let old_assignee_id := ProjectRow.assignee_id current_issue in
    let old_component := current_component in
    {| updated_fields := updated_fields;
       project_uuid := project_uuid;
       issue_uuid := issue_uuid;
       created_at := ProjectRow.created_at current_issue;
       updated_at := updated_at;
       reporter_id := ProjectRow.reporter_id current_issue;
       old_title := old_title;
       old_description := old_description;
       old_status := old_status;
       old_priority := old_priority;
       old_assignee_id := old_assignee_id;
       old_component := old_component;
       new_title := dict_get updated_fields "title" old_title;
       new_description := dict_get updated_fields "description" old_description;
       new_status :=
         enum_value (if dict_in "status" updated_fields
                     then dict_get updated_fields "status" old_status
                     else old_status);
       new_priority :=
         enum_value (if dict_in "priority" updated_fields
                     then dict_get updated_fields "priority" old_priority
                     else old_priority);
       new_assignee_id :=
         if dict_in "assignee_id" updated_fields
         then dict_get updated_fields "assignee_id" old_assignee_id
         else old_assignee_id;
       new_component :=
         if dict_in "component" updated_fields
         then dict_get updated_fields "component" old_component
         else old_component |}.

  (** main.py 811-829. *)
Definition changes (L : Locals) : list change :=
    (if dict_in "title" (updated_fields L) && py_ne (old_title L) (new_title L)
     then [("title", old_title L, new_title L)] else [])
    ++ (if dict_in "description" (updated_fields L)
           && py_ne (old_description L) (new_description L)
        then [("description", old_description L, new_description L)] else [])
    ++ (if dict_in "status" (updated_fields L) && py_ne (old_status L) (new_status L)
        then [("status", old_status L, new_status L)] else [])
    ++ (if dict_in "priority" (updated_fields L)
           && py_ne (old_priority L) (new_priority L)
        then [("priority", old_priority L, new_priority L)] else [])
    ++ (if dict_in "assignee_id" (updated_fields L) then
          let old_assignee_str := str_or_None rt (old_assignee_id L) in
          let new_assignee_str := str_or_None rt (new_assignee_id L) in
          if py_ne old_assignee_str new_assignee_str
          then [("assignee_id", old_assignee_str, new_assignee_str)] else []
        else [])
    ++ (if dict_in "component" (updated_fields L) then
          let old_comp := or_None (old_component L) in
          let new_comp := or_None (new_component L) in
          if py_ne old_comp new_comp
          then [("component", old_comp, new_comp)] else []
        else []).

Definition status_changed (L : Locals) : bool :=
    dict_in "status" (updated_fields L) && py_ne (old_status L) (new_status L).

Definition priority_changed (L : Locals) : bool :=
    dict_in "priority" (updated_fields L) && py_ne (old_priority L) (new_priority L).

  (** main.py 846-875. *)
Definition sync_issues_by_status (L : Locals) : M unit :=
    if status_changed L then
      execute w (delete_old_status L) ;;
      execute w (insert_new_status L)
    else
      execute w (update_status L (new_status L)).

  (** main.py 877-906. *)
Definition sync_issues_by_priority (L : Locals) : M unit :=
    if priority_changed L then
      execute w (delete_old_priority L) ;;
      execute w (insert_new_priority L)
    else
      execute w (update_priority L (new_priority L)).

  (** main.py 908-945. *)
Definition sync_issues_by_assignee (L : Locals) : M unit :=
    let assignee_changed := dict_in "assignee_id" (updated_fields L) in
    let assignee_or_status_changed := assignee_changed || status_changed L in
    if assignee_or_status_changed then
      when (py_truthy (old_assignee_id L)) (execute w (delete_old_assignee L)) ;;
      when (py_truthy (new_assignee_id L)) (execute w (insert_new_assignee L))
    else
      when (py_truthy (new_assignee_id L)) (execute w (update_assignee L)).

  (** main.py 947-979. *)
Definition sync_issues_by_component (L : Locals) : M unit :=
    let component_changed := dict_in "component" (updated_fields L) in
    if component_changed then
      when (py_truthy (old_component L)) (execute w (delete_old_component L)) ;;
      when (py_truthy (new_component L)) (execute w (insert_new_component L))
    else
      when (py_truthy (new_component L)) (execute w (update_component L)).

  (** main.py 831-1014. *)
Definition update_writes (L : Locals) : M IssueResponse.t :=
    execute w (update_main_query L) ;;
    sync_issues_by_status L ;;
    sync_issues_by_priority L ;;
    sync_issues_by_assignee L ;;
    sync_issues_by_component L ;;
    write_history rt w (changes L)
      (project_uuid L) (issue_uuid L) (updated_at L) (reporter_id L) ;;
    construct (response rt L).

  (** The body of the [try] (main.py 757-1014). *)
Definition update_issue_body (issue_id project_id : string)
      (issue_update : IssueUpdate.t) : M IssueResponse.t :=
    project_uuid <- parse_uuid rt project_id ;;
    issue_uuid <- parse_uuid rt issue_id ;;
    current_result <- select w (get_query project_uuid issue_uuid) ;;
    match one current_result with
    | None => raise (HTTPException 404 "Issue not found")
    | Some current_issue =>
        component_result <- select w (component_query project_uuid issue_uuid) ;;
        let current_component :=
          match one component_result with
          | Some component_row => ComponentRow.component component_row
          | None => PNone
          end in
        let updated_fields := dict_exclude_unset issue_update in
        if dict_empty updated_fields then
          raise (HTTPException 400 "No fields to update")
        else
          updated_at <- get_current_time w ;;
          update_writes
            (locals project_uuid issue_uuid current_issue current_component
                    updated_fields updated_at)
    end.

  (** main.py 749-1017. *)
Definition update_issue (issue_id project_id : string)
      (issue_update : IssueUpdate.t) : M IssueResponse.t :=
    try_except (update_issue_body issue_id project_id issue_update)
      (fun e =>
         raise (HTTPException 500 ("Error updating issue: " ++ str_exn rt e)%string)).

End Handler.
End Second.

(* ------------------------------------------------------------------ *)
(** ** The two registrations side by side *)

(** [@app.put("/issues/{issue_id}")] decorates two functions of the same
    name; both stay registered. *)
Inductive registration := first_registration | second_registration.

Definition update_issue_body (reg : registration) (rt : Runtime) (w : World)
    (issue_id project_id : string) (issue_update : IssueUpdate.t)
  : M IssueResponse.t :=
  match reg with
  | first_registration => First.update_issue_body rt w issue_id project_id issue_update
  | second_registration => Second.update_issue_body rt w issue_id project_id issue_update
  end.

Definition update_issue (reg : registration) (rt : Runtime) (w : World)
    (issue_id project_id : string) (issue_update : IssueUpdate.t)
  : M IssueResponse.t :=
  match reg with
  | first_registration => First.update_issue rt w issue_id project_id issue_update
  | second_registration => Second.update_issue rt w issue_id project_id issue_update
  end.

(** The canonical row a handler works on, if it finds one. *)
Definition current_issue_of (reg : registration) (w : World)
    (project_uuid issue_uuid : uuid) : option ProjectRow.t :=
  match reg with
  | first_registration =>
      First.find_issue project_uuid issue_uuid (First.rows_of_project w project_uuid)
  | second_registration =>
      Second.one (Second.get_query w project_uuid issue_uuid)
  end.

(** The component a handler takes as the current one: the first reads the
    key [component] of the canonical row and has none when the key is
    missing, the second reads [issues_by_component]. *)
Definition current_component_of (reg : registration) (w : World)
    (project_uuid issue_uuid : uuid) (current_issue : ProjectRow.t) : option pyval :=
  match reg with
  | first_registration => ProjectRow.component current_issue
  | second_registration =>
      Some match Second.one (Second.component_query w project_uuid issue_uuid) with
           | Some component_row => ComponentRow.component component_row
           | None => PNone
           end
  end.

Definition locals_of (reg : registration) (project_uuid issue_uuid : uuid)
    (current_issue : ProjectRow.t) (current_component : pyval)
    (updated_fields : dict) (updated_at : datetime) : Locals :=
  match reg with
  | first_registration =>
      First.locals project_uuid issue_uuid current_issue current_component
                   updated_fields updated_at
  | second_registration =>
      Second.locals project_uuid issue_uuid current_issue current_component
                    updated_fields updated_at
  end.


(** The storage answers the first [n] calls. *)
Definition storage_answers (w : World) (n : nat) : Prop :=
  match w_fail w with
  | None => True
  | Some (k, _) => n <= k
  end.

(* ------------------------------------------------------------------ *)
(** ** What a run that the storage does not interrupt writes *)

Fixpoint history_writes (rt : Runtime) (w : World) (n : nat) (changes : list change)
    (project_uuid issue_uuid : uuid) (updated_at : datetime) (changed_by : pyval)
  : list op :=
  match changes with
  | [] => []
  | c :: rest =>
      history_query rt (w_uuid4 w n) c project_uuid issue_uuid updated_at changed_by
      :: history_writes rt w (S n) rest project_uuid issue_uuid updated_at changed_by
  end.

Definition assignee_writes (recreate : bool) (L : Locals) : list op :=
  if recreate then
    (if py_truthy (old_assignee_id L) then [delete_old_assignee L] else [])
    ++ (if py_truthy (new_assignee_id L) then [insert_new_assignee L] else [])
  else
    (if py_truthy (new_assignee_id L) then [update_assignee L] else []).

Definition component_writes (L : Locals) : list op :=
  if dict_in "component" (updated_fields L) then
    (if py_truthy (old_component L) then [delete_old_component L] else [])
    ++ (if py_truthy (new_component L) then [insert_new_component L] else [])
  else
    (if py_truthy (new_component L) then [update_component L] else []).

Definition first_status_writes (L : Locals) : list op :=
  if dict_in "status" (updated_fields L)
  then [delete_old_status L; insert_new_status L]
  else [update_status L (old_status L)].

Definition first_priority_writes (L : Locals) : list op :=
  if dict_in "priority" (updated_fields L)
  then [delete_old_priority L; insert_new_priority L]
  else [update_priority L (old_priority L)].

Definition first_changes (rt : Runtime) (L : Locals) : list change :=
  (if dict_in "status" (updated_fields L)
   then [("status", old_status L, new_status L)] else [])
  ++ (if dict_in "priority" (updated_fields L)
      then [("priority", old_priority L, new_priority L)] else [])
  ++ (if dict_in "assignee_id" (updated_fields L)
      then [("assignee_id", str_or_None rt (old_assignee_id L),
                            str_or_None rt (new_assignee_id L))]
      else [])
  ++ (if dict_in "component" (updated_fields L)
      then [("component", old_component L, new_component L)] else []).

Definition second_status_writes (L : Locals) : list op :=
  if Second.status_changed L
  then [delete_old_status L; insert_new_status L]
  else [update_status L (new_status L)].

Definition second_priority_writes (L : Locals) : list op :=
  if Second.priority_changed L
  then [delete_old_priority L; insert_new_priority L]
  else [update_priority L (new_priority L)].

Definition changes_of (reg : registration) (rt : Runtime) (L : Locals) : list change :=
  match reg with
  | first_registration => first_changes rt L
  | second_registration => Second.changes rt L
  end.

Definition view_writes (reg : registration) (L : Locals) : list op :=
  match reg with
  | first_registration =>
      first_status_writes L ++ first_priority_writes L
      ++ assignee_writes (dict_in "assignee_id" (updated_fields L)
                          || dict_in "status" (updated_fields L)) L
      ++ component_writes L
  | second_registration =>
      second_status_writes L ++ second_priority_writes L
      ++ assignee_writes (dict_in "assignee_id" (updated_fields L)
                          || Second.status_changed L) L
      ++ component_writes L
  end.

Definition update_log (reg : registration) (rt : Runtime) (w : World) (L : Locals)
  : list op :=
  update_main_query L :: view_writes reg L
  ++ history_writes rt w 0 (changes_of reg rt L)
       (project_uuid L) (issue_uuid L) (updated_at L) (reporter_id L).

(* ------------------------------------------------------------------ *)
(** ** Reading the log *)

Definition history_events (l : list op) : list op := on_table issue_history l.

Definition view_ops (l : list op) : list op :=
  filter (fun o => is_view (op_table o)) l.

Definition binding (o : op) (column : string) : pyval :=
  dict_get (op_bindings o) column PNone.

(** The [field_changed] of every history row of a log, in order. *)
Definition history_fields (l : list op) : list pyval :=
  map (fun o => binding o "field_changed") (history_events l).

Definition events_of_field (field : string) (l : list op) : list op :=
  filter (fun o => py_eq (binding o "field_changed") (PStr field)) (history_events l).

Definition is_INSERT (o : op) : bool :=
  match o with INSERT _ _ => true | _ => false end.

Definition is_DELETE (o : op) : bool :=
  match o with DELETE _ _ => true | _ => false end.

(* ------------------------------------------------------------------ *)
(** ** The history recorder as the specification words it *)

(** The allow-list of section 4.3. *)
Definition tracked_fields : list string :=
  ["title"; "description"; "status"; "priority"; "assignee_id"; "component"].

Definition old_of (L : Locals) (field : string) : pyval :=
  if String.eqb field "title" then old_title L
  else if String.eqb field "description" then old_description L
  else if String.eqb field "status" then old_status L
  else if String.eqb field "priority" then old_priority L
  else if String.eqb field "assignee_id" then old_assignee_id L
  else if String.eqb field "component" then old_component L
  else PNone.

Definition new_of (L : Locals) (field : string) : pyval :=
  if String.eqb field "title" then new_title L
  else if String.eqb field "description" then new_description L
  else if String.eqb field "status" then new_status L
  else if String.eqb field "priority" then new_priority L
  else if String.eqb field "assignee_id" then new_assignee_id L
  else if String.eqb field "component" then new_component L
  else PNone.

(** The rendered value of a field: an identifier as its text and an absent
    one as [None], an empty component as [None], every other field as it
    is. *)
Definition rendered (rt : Runtime) (field : string) (v : pyval) : pyval :=
  if String.eqb field "assignee_id" then str_or_None rt v
  else if String.eqb field "component" then or_None v
  else v.

(** The tracked fields whose rendered value differs between the old state
    and the merged new state. *)
Definition differs (rt : Runtime) (L : Locals) (field : string) : bool :=
  py_ne (rendered rt field (old_of L field)) (rendered rt field (new_of L field)).

Definition changed_fields (rt : Runtime) (L : Locals) : list string :=
  filter (differs rt L) tracked_fields.




(** The value a canonical row has in a tracked field, with the component
    the handler takes as the current one. *)
Definition row_value (cur : ProjectRow.t) (component : pyval) (field : string)
  : pyval :=
  if String.eqb field "title" then ProjectRow.title cur
  else if String.eqb field "description" then ProjectRow.description cur
  else if String.eqb field "status" then ProjectRow.status cur
  else if String.eqb field "priority" then ProjectRow.priority cur
  else if String.eqb field "assignee_id" then ProjectRow.assignee_id cur
  else if String.eqb field "component" then component
  else PNone.

(** The merged new state: for a field, what the payload supplies, and the
    value of the row when it supplies nothing. *)
Definition requested (payload : dict) (cur : ProjectRow.t) (component : pyval)
    (field : string) : pyval :=
  match dict_find payload field with
  | Some v => v
  | None => row_value cur component field
  end.



(** Those of the given fields that the payload supplies. *)
Definition supplied_among (fields : list string) (d : dict) : list string :=
  filter (fun k => dict_in k d) fields.

(** Whether [create_issue] finds an assignee, a component: [if
    issue.assignee_id], [if issue.component]. *)
Definition has_assignee (issue : IssueCreate.t) : bool :=
  match IssueCreate.assignee_id issue with Some _ => true | None => false end.

Definition has_component (issue : IssueCreate.t) : bool :=
  match IssueCreate.component issue with
  | Some s => negb (String.eqb s "")
  | None => false
  end.

(* ------------------------------------------------------------------ *)
(** ** Every run, interrupted or not *)

(** Whatever the storage does, [m] only adds statements that satisfy [P] to
    the log, and a value it returns satisfies [Q]. *)
Definition hoare {A} (P : op -> Prop) (Q : A -> Prop) (m : M A) : Prop :=
  forall st st' r,
    m st = (st', r) ->
    Forall P (log st) ->
    Forall P (log st') /\ (forall a, r = Ok a -> Q a).

Definition anything {A} (a : A) : Prop := True.

(** The statements an update with locals [L] can get to write: those of the
    canonical table and the views, and a history row for a member of
    [changes], under some [event_id]. *)
Definition may_write (reg : registration) (rt : Runtime) (L : Locals) (o : op)
  : Prop :=
  In o (update_main_query L :: view_writes reg L)
  \/ exists event_id c,
       In c (changes_of reg rt L)
       /\ o = history_query rt event_id c (project_uuid L) (issue_uuid L)
                           (updated_at L) (reporter_id L).

(** A statement found in the log of an update, however the update ended,
    was written for an issue the handler found, under a payload that
    supplied a field, and is one the uninterrupted run writes too. *)
Definition written_by (reg : registration) (rt : Runtime) (w : World)
    (issue_id project_id : string) (u : IssueUpdate.t) (o : op) : Prop :=
  exists p i cur c,
    UUID rt project_id = Some p
    /\ UUID rt issue_id = Some i
    /\ current_issue_of reg w p i = Some cur
    /\ current_component_of reg w p i cur = Some c
    /\ dict_exclude_unset u <> []
    /\ may_write reg rt (locals_of reg p i cur c (dict_exclude_unset u) (w_now w)) o.

(** A response an update returns is the model pydantic makes of the new
    values of an issue the handler found. *)
Definition returned_by (reg : registration) (rt : Runtime) (w : World)
    (issue_id project_id : string) (u : IssueUpdate.t) (r : IssueResponse.t)
  : Prop :=
  exists p i cur c,
    UUID rt project_id = Some p
    /\ UUID rt issue_id = Some i
    /\ current_issue_of reg w p i = Some cur
    /\ current_component_of reg w p i cur = Some c
    /\ response rt (locals_of reg p i cur c (dict_exclude_unset u) (w_now w))
       = Some r.

(** A statement that rewrites a row of [issues_by_project] where it is: an
    [UPDATE] whose [WHERE] is the key of a row the table holds and whose
    [SET] names the six columns of [update_main_query], neither
    [reporter_id] nor [created_at]. *)
Definition in_place_update (w : World) (o : op) : Prop :=
  exists cur set,
    In cur (w_issues_by_project w)
    /\ o = UPDATE issues_by_project set
             [("project_id", PUUID (ProjectRow.project_id cur));
              ("created_at", PDatetime (ProjectRow.created_at cur));
              ("issue_id", PUUID (ProjectRow.issue_id cur))]
    /\ map fst set
       = ["title"; "description"; "status"; "priority"; "assignee_id"; "updated_at"].

(** What a run returned, if it returned. *)
Definition returned {A} (r : St * result A) : option A :=
  match snd r with Ok a => Some a | Raise _ => None end.

Definition of_status (o : option Status) : pyval :=
  match o with Some e => PStatus e | None => PNone end.

(* ------------------------------------------------------------------ *)
(** ** Sample inputs *)

Definition sample_rt : Runtime :=
  {| UUID := fun text =>
       if String.eqb text "p-1" then Some 1%N
       else if String.eqb text "i-2" then Some 2%N
       else None;
     str_uuid := fun u => if N.eqb u 7 then "u-7" else "u";
     str_datetime := fun _ => "";
     str_exn := fun e =>
       match e with
       | HTTPException _ detail => detail
       | KeyError key => key
       | ValueError msg => msg
       | StorageError msg => msg
       end |}.

(** An open, unassigned issue of project 1; [component] is the entry the
    row carries under that key, if any. *)
Definition sample_row (component : option pyval) : ProjectRow.t :=
  {| ProjectRow.project_id := 1%N;
     ProjectRow.created_at := 100%Z;
     ProjectRow.issue_id := 2%N;
     ProjectRow.title := PStr "crash";
     ProjectRow.description := PStr "it crashes";
     ProjectRow.status := PStr "open";
     ProjectRow.priority := PStr "low";
     ProjectRow.assignee_id := PNone;
     ProjectRow.reporter_id := PUUID 9%N;
     ProjectRow.updated_at := 100%Z;
     ProjectRow.component := component |}.

Definition sample_world (component : option pyval) (fail : option (nat * string))
  : World :=
  {| w_issues_by_project := [sample_row component];
     w_issues_by_component := [];
     w_fail := fail;
     w_now := 200%Z;
     w_uuid4 := fun n => N.of_nat (1000 + n) |}.

Definition empty_world : World :=
  {| w_issues_by_project := [];
     w_issues_by_component := [];
     w_fail := None;
     w_now := 200%Z;
     w_uuid4 := fun n => N.of_nat (1000 + n) |}.

Definition no_fields : IssueUpdate.t :=
  {| IssueUpdate.title := None; IssueUpdate.description := None;
     IssueUpdate.status := None; IssueUpdate.priority := None;
     IssueUpdate.assignee_id := None; IssueUpdate.component := None |}.

Definition only_title (t : option string) : IssueUpdate.t :=
  {| IssueUpdate.title := Some t; IssueUpdate.description := None;
     IssueUpdate.status := None; IssueUpdate.priority := None;
     IssueUpdate.assignee_id := None; IssueUpdate.component := None |}.

Definition only_status (s : option Status) : IssueUpdate.t :=
  {| IssueUpdate.title := None; IssueUpdate.description := None;
     IssueUpdate.status := Some s; IssueUpdate.priority := None;
     IssueUpdate.assignee_id := None; IssueUpdate.component := None |}.

Definition only_assignee (a : option uuid) : IssueUpdate.t :=
  {| IssueUpdate.title := None; IssueUpdate.description := None;
     IssueUpdate.status := None; IssueUpdate.priority := None;
     IssueUpdate.assignee_id := Some a; IssueUpdate.component := None |}.

Definition sample_create : IssueCreate.t :=
  {| IssueCreate.project_id := 1%N;
     IssueCreate.title := "crash";
     IssueCreate.description := "it crashes";
     IssueCreate.status := OPEN;
     IssueCreate.priority := MEDIUM;
     IssueCreate.assignee_id := None;
     IssueCreate.reporter_id := 9%N;
     IssueCreate.component := None |}.

(* ------------------------------------------------------------------ *)
(** ** The row a statement is for, and runs the storage interrupts *)

(** The columns that say which row a statement is for: the [VALUES] of an
    [INSERT], the [WHERE] of an [UPDATE] or a [DELETE]. *)
Definition op_target (o : op) : dict :=
  match o with
  | INSERT _ values => values
  | UPDATE _ _ where_ => where_
  | DELETE _ where_ => where_
  end.

Definition targets (o : op) (column : string) : pyval :=
  dict_get (op_target o) column PNone.

(** A state in which the storage answers [k] more calls and then fails. *)
Definition armed (k n : nat) (l : list op) : St :=
  {| failing := Some k; next_uuid := n; log := l |}.

Definition is_prefix (a b : list op) : Prop := exists rest, b = a ++ rest.

(** [m] under a storage that fails does what it does under one that does
    not, up to the failure: started with the same log and the same count
    of generated identifiers, it either ends in the same way with the
    same log, or it raises with a log that holds a prefix of the
    statements the uninterrupted run adds. *)
Definition resumable {A} (m : M A) : Prop :=
  forall n l k,
    exists n' ops r,
      m (quiet n l) = (quiet n' (l ++ ops), r)
      /\ ((exists k', m (armed k n l) = (armed k' n' (l ++ ops), r))
          \/ (exists st e ops',
                m (armed k n l) = (st, Raise e)
                /\ log st = l ++ ops' /\ is_prefix ops' ops)).

(** The value a response reports for a column of the issue tables. *)
Definition response_column (r : IssueResponse.t) (column : string) : option pyval :=
  if String.eqb column "issue_id" then Some (IssueResponse.issue_id r)
  else if String.eqb column "project_id" then Some (IssueResponse.project_id r)
  else if String.eqb column "title" then Some (IssueResponse.title r)
  else if String.eqb column "description" then Some (IssueResponse.description r)
  else if String.eqb column "status" then Some (IssueResponse.status r)
  else if String.eqb column "priority" then Some (IssueResponse.priority r)
  else if String.eqb column "assignee_id" then Some (IssueResponse.assignee_id r)
  else if String.eqb column "reporter_id" then Some (IssueResponse.reporter_id r)
  else if String.eqb column "component" then Some (IssueResponse.component r)
  else if String.eqb column "created_at" then Some (IssueResponse.created_at r)
  else if String.eqb column "updated_at" then Some (IssueResponse.updated_at r)
  else None.

(** Every column a statement binds holds the value the response reports. *)
Definition agrees_with_response (r : IssueResponse.t) (o : op) : bool :=
  forallb (fun kv =>
             match response_column r (fst kv) with
             | Some v => py_eq (snd kv) v
             | None => false
             end)
          (op_bindings o).

(* ------------------------------------------------------------------ *)
(** ** What a creation that nothing interrupts writes and returns *)

Definition create_response (w : World) (issue : IssueCreate.t) : IssueResponse.t :=
  {| IssueResponse.issue_id := PUUID (w_uuid4 w 0);
     IssueResponse.project_id := PUUID (IssueCreate.project_id issue);
     IssueResponse.title := PStr (IssueCreate.title issue);
     IssueResponse.description := PStr (IssueCreate.description issue);
     IssueResponse.status := PStatus (IssueCreate.status issue);
     IssueResponse.priority := PPriority (IssueCreate.priority issue);
     IssueResponse.assignee_id := of_uuid (IssueCreate.assignee_id issue);
     IssueResponse.reporter_id := PUUID (IssueCreate.reporter_id issue);
     IssueResponse.component := of_text (IssueCreate.component issue);
     IssueResponse.created_at := PDatetime (w_now w);
     IssueResponse.updated_at := PDatetime (w_now w) |}.

(** The [INSERT]s of an issue with the given identifier and timestamps into
    the five issue tables (main.py 182-249; database.py 425-482). *)
Definition issue_rows (issue_id : uuid) (created_at updated_at : datetime)
    (project_id title description status priority assignee_id reporter_id
     component : pyval) : list op :=
  [INSERT issues_by_project
     [("project_id", project_id); ("created_at", PDatetime created_at);
      ("issue_id", PUUID issue_id); ("title", title);
      ("description", description); ("status", status);
      ("priority", priority); ("assignee_id", assignee_id);
      ("reporter_id", reporter_id); ("updated_at", PDatetime updated_at)];
   INSERT issues_by_status
     [("project_id", project_id); ("status", status);
      ("created_at", PDatetime created_at); ("issue_id", PUUID issue_id);
      ("title", title); ("priority", priority); ("assignee_id", assignee_id)]]
  ++ (if py_truthy assignee_id then
        [INSERT issues_by_assignee
           [("project_id", project_id); ("assignee_id", assignee_id);
            ("status", status); ("created_at", PDatetime created_at);
            ("issue_id", PUUID issue_id); ("title", title);
            ("priority", priority)]]
      else [])
  ++ [INSERT issues_by_priority
        [("project_id", project_id); ("priority", priority);
         ("created_at", PDatetime created_at); ("issue_id", PUUID issue_id);
         ("title", title); ("status", status); ("assignee_id", assignee_id)]]
  ++ (if py_truthy component then
        [INSERT issues_by_component
           [("project_id", project_id); ("component", component);
            ("created_at", PDatetime created_at); ("issue_id", PUUID issue_id);
            ("title", title); ("status", status); ("priority", priority);
            ("assignee_id", assignee_id)]]
      else []).

Definition create_writes (w : World) (issue : IssueCreate.t) : list op :=
  issue_rows (w_uuid4 w 0) (w_now w) (w_now w)
    (PUUID (IssueCreate.project_id issue))
    (PStr (IssueCreate.title issue))
    (PStr (IssueCreate.description issue))
    (PStr (Status_value (IssueCreate.status issue)))
    (PStr (Priority_value (IssueCreate.priority issue)))
    (of_uuid (IssueCreate.assignee_id issue))
    (PUUID (IssueCreate.reporter_id issue))
    (of_text (IssueCreate.component issue)).

(* ------------------------------------------------------------------ *)
(** ** The tables as [create_tables] declares them (database.py 92-222) *)

(** One [CREATE TABLE IF NOT EXISTS]: the name, the columns in the order of
    the declaration, the partition key and the clustering key. *)
Record table_schema := {
  schema_name : string;
  schema_columns : list string;
  partition_key : list string;
  clustering_key : list string
}.

(** The nine tables, in the order [create_tables] creates them. *)
Definition tables_created : list table_schema :=
  [ {| schema_name := "projects";
       schema_columns := ["project_id"; "name"; "description"; "created_at"];
       partition_key := ["project_id"];
       clustering_key := [] |};
    {| schema_name := "issues_by_project";
       schema_columns := ["project_id"; "created_at"; "issue_id"; "title";
                          "description"; "status"; "priority"; "assignee_id";
                          "reporter_id"; "updated_at"];
       partition_key := ["project_id"];
       clustering_key := ["created_at"; "issue_id"] |};
    {| schema_name := "issues_by_status";
       schema_columns := ["project_id"; "status"; "created_at"; "issue_id";
                          "title"; "priority"; "assignee_id"];
       partition_key := ["project_id"; "status"];
       clustering_key := ["created_at"; "issue_id"] |};
    {| schema_name := "issues_by_assignee";
       schema_columns := ["project_id"; "assignee_id"; "status"; "created_at";
                          "issue_id"; "title"; "priority"];
       partition_key := ["project_id"; "assignee_id"];
       clustering_key := ["status"; "created_at"; "issue_id"] |};
    {| schema_name := "issues_by_priority";
       schema_columns := ["project_id"; "priority"; "created_at"; "issue_id";
                          "title"; "status"; "assignee_id"];
       partition_key := ["project_id"; "priority"];
       clustering_key := ["created_at"; "issue_id"] |};
    {| schema_name := "issue_comments";
       schema_columns := ["project_id"; "issue_id"; "created_at"; "comment_id";
                          "user_id"; "content"];
       partition_key := ["project_id"; "issue_id"];
       clustering_key := ["created_at"; "comment_id"] |};
    {| schema_name := "issue_history";
       schema_columns := ["project_id"; "issue_id"; "changed_at"; "event_id";
                          "field_changed"; "old_value"; "new_value"; "changed_by"];
       partition_key := ["project_id"; "issue_id"];
       clustering_key := ["changed_at"; "event_id"] |};
    {| schema_name := "users";
       schema_columns := ["user_id"; "username"; "email"; "role"; "created_at"];
       partition_key := ["user_id"];
       clustering_key := [] |};
    {| schema_name := "issues_by_component";
       schema_columns := ["project_id"; "component"; "created_at"; "issue_id";
                          "title"; "status"; "priority"; "assignee_id"];
       partition_key := ["project_id"; "component"];
       clustering_key := ["created_at"; "issue_id"] |} ].

Definition table_name (t : table) : string :=
  match t with
  | issues_by_project => "issues_by_project"
  | issues_by_status => "issues_by_status"
  | issues_by_assignee => "issues_by_assignee"
  | issues_by_priority => "issues_by_priority"
  | issues_by_component => "issues_by_component"
  | issue_history => "issue_history"
  end.

Definition schema_of (name : string) : option table_schema :=
  find (fun s => String.eqb (schema_name s) name) tables_created.

Definition primary_key (s : table_schema) : list string :=
  partition_key s ++ clustering_key s.

Definition mem (x : string) (l : list string) : bool := existsb (String.eqb x) l.

Definition subset (a b : list string) : bool := forallb (fun x => mem x b) a.

Definition same_names (a b : list string) : bool :=
  if list_eq_dec string_dec a b then true else false.

(** A statement fits the table it names: the table is one [create_tables]
    creates; an [INSERT] names columns of the table and among them the
    whole primary key; an [UPDATE] or [DELETE] has the primary key, column
    by column, as its [WHERE]; and an [UPDATE] sets columns of the table
    outside the key. *)
Definition fits_schema (o : op) : bool :=
  match schema_of (table_name (op_table o)) with
  | None => false
  | Some s =>
      match o with
      | INSERT _ values =>
          subset (map fst values) (schema_columns s)
          && subset (primary_key s) (map fst values)
      | UPDATE _ set where_ =>
          same_names (map fst where_) (primary_key s)
          && subset (map fst set) (schema_columns s)
          && forallb (fun c => negb (mem c (primary_key s))) (map fst set)
      | DELETE _ where_ =>
          same_names (map fst where_) (primary_key s)
      end
  end.

(* ------------------------------------------------------------------ *)
(** ** The endpoints that read (main.py 113-128, 155-171, 268-286) *)

Module UserResponse.
Record t := {
  user_id : pyval;
  username : pyval;
  email : pyval;
  role : pyval;
  created_at : pyval
}.
End UserResponse.

Module ProjectResponse.
Record t := {
  project_id : pyval;
  name : pyval;
  description : pyval;
  created_at : pyval
}.
End ProjectResponse.

(** The response models built from a row, as in [UserResponse] applied to
    the unpacked row: pydantic builds the model from the columns of the row
    or raises its [ValidationError], a [ValueError] ([None] here). *)
Record Pydantic := {
  IssueResponse_of : ProjectRow.t -> option IssueResponse.t;
  UserResponse_of : dict -> option UserResponse.t;
  ProjectResponse_of : dict -> option ProjectResponse.t
}.

Definition validate {A B} (model : A -> option B) (row : A) : M B :=
  match model row with
  | Some r => ret r
  | None => raise (ValueError "validation error")
  end.

(** [for row in result: out.append(model(row))], the row unpacked. *)
Fixpoint collect {A B} (model : A -> option B) (result : list A) : M (list B) :=
  match result with
  | [] => ret []
  | row :: rest =>
      r <- validate model row ;;
      rs <- collect model rest ;;
      ret (r :: rs)
  end.

(** Where an index of a slice falls in a list of length [len]: a negative
    one counts from the end, and both ends are clipped. *)
Definition py_index (len x : Z) : Z :=
  if (x <? 0)%Z then Z.max (x + len) 0 else Z.min x len.

(** [l[a:b]]. *)
Definition py_slice {A} (l : list A) (a b : Z) : list A :=
  let len := Z.of_nat (List.length l) in
  let start := py_index len a in
  let stop := py_index len b in
  firstn (Z.to_nat (stop - start)) (skipn (Z.to_nat start) l).

(** [db.execute("SELECT * FROM <table> LIMIT %s", [limit])] on a table with
    the given rows: the first [limit] of them; Cassandra refuses a limit
    that is not positive. *)
Definition select_limit {A} (w : World) (rows : list A) (limit : Z) : M (list A) :=
  if (0 <? limit)%Z then select w (firstn (Z.to_nat limit) rows)
  else raise (StorageError "LIMIT must be strictly positive").

(** main.py 113-128; [table] is the content of [users]. *)
Definition get_users (rt : Runtime) (py : Pydantic) (w : World)
    (table : list dict) (skip limit : Z) : M (list UserResponse.t) :=
  try_except
    (result <- select_limit w table limit ;;
     users <- collect (UserResponse_of py) result ;;
     ret (py_slice users skip (skip + limit)))
    (fun e =>
       raise (HTTPException 500 ("Error fetching users: " ++ str_exn rt e)%string)).

(** main.py 155-171; [table] is the content of [projects]. *)
Definition get_projects (rt : Runtime) (py : Pydantic) (w : World)
    (table : list dict) (skip limit : Z) : M (list ProjectResponse.t) :=
  try_except
    (result <- select_limit w table limit ;;
     projects <- collect (ProjectResponse_of py) result ;;
     ret (py_slice projects skip (skip + limit)))
    (fun e =>
       raise (HTTPException 500 ("Error fetching projects: " ++ str_exn rt e)%string)).

(** main.py 268-286: the query is the one of the second [update_issue]. *)
Definition get_issue (rt : Runtime) (py : Pydantic) (w : World)
    (issue_id project_id : string) : M IssueResponse.t :=
  try_except
    (project_uuid <- parse_uuid rt project_id ;;
     issue_uuid <- parse_uuid rt issue_id ;;
     result <- select w (Second.get_query w project_uuid issue_uuid) ;;
     match Second.one result with
     | None => raise (HTTPException 404 "Issue not found")
     | Some issue => validate (IssueResponse_of py) issue
     end)
    (fun e =>
       raise (HTTPException 500 ("Error fetching issue: " ++ str_exn rt e)%string)).

(** A pydantic that takes every row: the columns as they are. *)
Definition sample_py : Pydantic :=
  {| IssueResponse_of := fun row =>
       Some {| IssueResponse.issue_id := PUUID (ProjectRow.issue_id row);
               IssueResponse.project_id := PUUID (ProjectRow.project_id row);
               IssueResponse.title := ProjectRow.title row;
               IssueResponse.description := ProjectRow.description row;
               IssueResponse.status := ProjectRow.status row;
               IssueResponse.priority := ProjectRow.priority row;
               IssueResponse.assignee_id := ProjectRow.assignee_id row;
               IssueResponse.reporter_id := ProjectRow.reporter_id row;
               IssueResponse.component := PNone;
               IssueResponse.created_at := PDatetime (ProjectRow.created_at row);
               IssueResponse.updated_at := PDatetime (ProjectRow.updated_at row) |};
     UserResponse_of := fun row =>
       Some {| UserResponse.user_id := dict_get row "user_id" PNone;
               UserResponse.username := dict_get row "username" PNone;
               UserResponse.email := dict_get row "email" PNone;
               UserResponse.role := dict_get row "role" PNone;
               UserResponse.created_at := dict_get row "created_at" PNone |};
     ProjectResponse_of := fun row =>
       Some {| ProjectResponse.project_id := dict_get row "project_id" PNone;
               ProjectResponse.name := dict_get row "name" PNone;
               ProjectResponse.description := dict_get row "description" PNone;
               ProjectResponse.created_at := dict_get row "created_at" PNone |} |}.

Definition sample_user (n : N) : dict :=
  [("user_id", PUUID n); ("username", PStr "user"); ("email", PStr "u@example.org");
   ("role", PStr "developer"); ("created_at", PDatetime 50%Z)].

Definition sample_project (n : N) : dict :=
  [("project_id", PUUID n); ("name", PStr "Web Application");
   ("description", PNone); ("created_at", PDatetime 50%Z)].
(* ------------------------------------------------------------------ *)
(** ** The connection manager (database.py) and the handlers that use it *)

(** What the manager and its callers raise besides the exceptions of the
    issue handlers. *)
Inductive exception :=
| Exn (e : exn)
| RuntimeError (msg : string)
| AttributeError (msg : string).

Definition str_exception (rt : Runtime) (ex : exception) : string :=
  match ex with
  | Exn e => str_exn rt e
  | RuntimeError msg => msg
  | AttributeError msg => msg
  end.

(** The object [Cluster(hosts, port=..., ...)] constructs. *)
Module Cluster.
Record t := {
  contact_points : list string;
  port : Z;
  connect_timeout : Z;
  control_connection_timeout : Z;
  protocol_version : option Z
}.
End Cluster.

Inductive factory := named_tuple_factory | dict_factory.

(** The object [cluster.connect()] returns. *)
Module Session.
Record t := {
  cluster : Cluster.t;
  keyspace : option string;
  row_factory : factory
}.
End Session.

(** What reaches the storage: the statements of [connect], the
    [TRUNCATE]s, the [INSERT]s into [users], [projects] and
    [issue_comments], and the statements on the issue tables. *)
Inductive statement :=
| CREATE_KEYSPACE (keyspace : string)
| USE (keyspace : string)
| CREATE_TABLE (s : table_schema)
| CREATE_INDEX (name on_ column : string)
| TRUNCATE (name : string)
| INSERT_INTO (name : string) (values : dict)
| ISSUE (o : op).

(** What the code does not decide: the environment variables, [int] of a
    string, the driver (its [n]-th call raises when [refused n] is a
    message, and [cluster.connect()] yields [None] when [no_session n]),
    [uuid.uuid4()] and [datetime.now()]. *)
Record Env := {
  os_environ : string -> option string;
  int : string -> option Z;
  refused : nat -> option string;
  no_session : nat -> bool;
  uuid4 : nat -> uuid;
  now : nat -> datetime
}.

(** The process: the three attributes of [cassandra_manager], the number
    of driver calls made, the statements carried out, the clusters shut
    down, and the numbers of identifiers and timestamps drawn. *)
Record Process := {
  cluster : option Cluster.t;
  session : option Session.t;
  is_connected : bool;
  calls : nat;
  storage : list statement;
  shut_down : list Cluster.t;
  uuids : nat;
  clock : nat
}.

(** [CassandraManager.__init__] (database.py 12-15) in a fresh process. *)
Definition __init__ : Process :=
  {| cluster := None; session := None; is_connected := false;
     calls := 0; storage := []; shut_down := []; uuids := 0; clock := 0 |}.

Inductive outcome (A : Type) :=
| Returns (a : A)
| Raises (ex : exception).
Arguments Returns {A} a.
Arguments Raises {A} ex.

Definition Proc (A : Type) := Process -> Process * outcome A.

Module ProcMonad.

Definition ret {A} (a : A) : Proc A := fun p => (p, Returns a).

Definition raise {A} (ex : exception) : Proc A := fun p => (p, Raises ex).

Definition bind {A B} (m : Proc A) (f : A -> Proc B) : Proc B :=
  fun p =>
    match m p with
    | (p', Returns a) => f a p'
    | (p', Raises ex) => (p', Raises ex)
    end.

(** [try: m  except Exception as e: h e]. *)
Definition try_except {A} (m : Proc A) (h : exception -> Proc A) : Proc A :=
  fun p =>
    match m p with
    | (p', Returns a) => (p', Returns a)
    | (p', Raises ex) => h ex p'
    end.

Fixpoint for_each {A} (l : list A) (body : A -> Proc unit) : Proc unit :=
  match l with
  | [] => ret tt
  | x :: xs => bind (body x) (fun _ => for_each xs body)
  end.

Definition when (b : bool) (m : Proc unit) : Proc unit := if b then m else ret tt.

End ProcMonad.

Declare Scope proc_scope.
Delimit Scope proc_scope with proc.
Bind Scope proc_scope with Proc.
Notation "x <- m ;; k" := (ProcMonad.bind m (fun x => k))
  (at level 61, m at next level, right associativity) : proc_scope.
Notation "m ;; k" := (ProcMonad.bind m (fun _ => k))
  (at level 61, right associativity) : proc_scope.

Definition set_cluster (c : option Cluster.t) : Proc unit :=
  fun p =>
    ({| cluster := c; session := session p; is_connected := is_connected p;
        calls := calls p; storage := storage p; shut_down := shut_down p;
        uuids := uuids p; clock := clock p |}, Returns tt).

Definition set_session (s : option Session.t) : Proc unit :=
  fun p =>
    ({| cluster := cluster p; session := s; is_connected := is_connected p;
        calls := calls p; storage := storage p; shut_down := shut_down p;
        uuids := uuids p; clock := clock p |}, Returns tt).

Definition set_is_connected (b : bool) : Proc unit :=
  fun p =>
    ({| cluster := cluster p; session := session p; is_connected := b;
        calls := calls p; storage := storage p; shut_down := shut_down p;
        uuids := uuids p; clock := clock p |}, Returns tt).

(** One call of the driver: it raises when the driver refuses it, and
    otherwise yields [a] after [eff] has been applied to the storage. *)
Definition driver_call {A} (e : Env) (a : A)
    (eff : list statement -> list statement) : Proc A :=
  fun p =>
    match refused e (calls p) with
    | Some msg =>
        ({| cluster := cluster p; session := session p;
            is_connected := is_connected p; calls := S (calls p);
            storage := storage p; shut_down := shut_down p;
            uuids := uuids p; clock := clock p |},
         Raises (Exn (StorageError msg)))
    | None =>
        ({| cluster := cluster p; session := session p;
            is_connected := is_connected p; calls := S (calls p);
            storage := eff (storage p); shut_down := shut_down p;
            uuids := uuids p; clock := clock p |},
         Returns a)
    end.

(** [db.execute(query, params)] on a session. *)
Definition session_execute (e : Env) (db : Session.t) (s : statement) : Proc unit :=
  driver_call e tt (fun l => l ++ [s]).

(** [uuid.uuid4()] and [datetime.now()]. *)
Definition draw_uuid4 (e : Env) : Proc uuid :=
  fun p =>
    ({| cluster := cluster p; session := session p;
        is_connected := is_connected p; calls := calls p;
        storage := storage p; shut_down := shut_down p;
        uuids := S (uuids p); clock := clock p |},
     Returns (uuid4 e (uuids p))).

Definition datetime_now (e : Env) : Proc datetime :=
  fun p =>
    ({| cluster := cluster p; session := session p;
        is_connected := is_connected p; calls := calls p;
        storage := storage p; shut_down := shut_down p;
        uuids := uuids p; clock := S (clock p) |},
     Returns (now e (clock p))).

(** [os.getenv(name, default)]. *)
Definition getenv (e : Env) (name default : string) : string :=
  match os_environ e name with Some v => v | None => default end.

(** [int(text)]. *)
Definition int_of (e : Env) (text : string) : Proc Z :=
  match int e text with
  | Some n => ProcMonad.ret n
  | None =>
      ProcMonad.raise
        (Exn (ValueError ("invalid literal for int() with base 10: '"
                          ++ text ++ "'")%string))
  end.

(** The arguments [hosts] and [port] of [connect]: a string or a list, an
    integer or a string. *)
Inductive hosts_arg := hosts_str (s : string) | hosts_list (l : list string).
Inductive port_arg := port_int (n : Z) | port_str (s : string).

(** The five statements of [create_indexes] (database.py 227-233). *)
Definition indexes : list statement :=
  [ CREATE_INDEX "idx_users_email" "users" "email";
    CREATE_INDEX "idx_comments_user" "issue_comments" "user_id";
    CREATE_INDEX "idx_history_field" "issue_history" "field_changed";
    CREATE_INDEX "idx_issues_status" "issues_by_project" "status";
    CREATE_INDEX "idx_issues_priority" "issues_by_project" "priority" ].

(** The list [tables] of [clear_tables] (database.py 245-255). *)
Definition tables : list string :=
  [ "users"; "projects"; "issues_by_project"; "issues_by_status";
    "issues_by_assignee"; "issues_by_priority"; "issues_by_component";
    "issue_comments"; "issue_history" ].

(** The entries of the test data of [seed_test_data]. *)
Module Seed.
Record user := {
  user_id : uuid;
  username : string;
  email : string;
  role : string;
  user_created_at : datetime
}.
Record project := {
  project_id : uuid;
  name : string;
  project_description : string;
  project_created_at : datetime
}.
Record issue := {
  issue_project_id : uuid;
  issue_id : uuid;
  title : string;
  description : string;
  status : string;
  priority : string;
  assignee_id : option uuid;
  reporter_id : uuid;
  component : string;
  created_at : datetime;
  updated_at : datetime
}.
Record comment := {
  comment_project_id : uuid;
  comment_issue_id : uuid;
  comment_id : uuid;
  comment_user_id : uuid;
  content : string;
  comment_created_at : datetime
}.
(** What [seed_test_data] returns: the identifiers as strings. *)
Record created := {
  users : list string;
  projects : list string;
  issues : list string
}.
End Seed.

Module CassandraManager.
Import ProcMonad.
Local Open Scope proc_scope.

Section Methods.
Variable e : Env.

(** [self.session.execute(query, params)]. *)
Definition self_session_execute (s : statement) : Proc unit :=
  fun p =>
    match session p with
    | None =>
        (p, Raises (AttributeError "'NoneType' object has no attribute 'execute'"))
    | Some db => session_execute e db s p
    end.

(** database.py 92-222. *)
Definition create_tables : Proc unit :=
  try_except
    (for_each tables_created (fun s => self_session_execute (CREATE_TABLE s)))
    (fun ex => raise ex).

(** database.py 224-239. *)
Definition create_indexes : Proc unit :=
  for_each indexes
    (fun index_query =>
       try_except (self_session_execute index_query) (fun _ => ret tt)).

(** [self.cluster.connect()]. *)
Definition self_cluster_connect : Proc (option Session.t) :=
  fun p =>
    match cluster p with
    | None =>
        (p, Raises (AttributeError "'NoneType' object has no attribute 'connect'"))
    | Some c =>
        driver_call e
          (if no_session e (calls p) then None
           else Some {| Session.cluster := c; Session.keyspace := None;
                        Session.row_factory := named_tuple_factory |})
          (fun l => l) p
    end.

(** [self.session.set_keyspace(keyspace)]. *)
Definition self_session_set_keyspace (keyspace : string) : Proc unit :=
  fun p =>
    match session p with
    | None =>
        (p, Raises (AttributeError
                      "'NoneType' object has no attribute 'set_keyspace'"))
    | Some db =>
        (driver_call e tt (fun l => l ++ [USE keyspace]) ;;
         set_session (Some {| Session.cluster := Session.cluster db;
                              Session.keyspace := Some keyspace;
                              Session.row_factory := Session.row_factory db |})) p
    end.

(** [self.session.row_factory = dict_factory]. *)
Definition self_session_row_factory (f : factory) : Proc unit :=
  fun p =>
    match session p with
    | None =>
        (p, Raises (AttributeError
                      "'NoneType' object has no attribute 'row_factory'"))
    | Some db =>
        set_session (Some {| Session.cluster := Session.cluster db;
                             Session.keyspace := Session.keyspace db;
                             Session.row_factory := f |}) p
    end.

(** [Cluster(hosts, port=port, connect_timeout=30,
    control_connection_timeout=30, protocol_version=...)]. *)
Definition new_Cluster (hosts : list string) (port : Z)
    (protocol_version : option Z) : Proc Cluster.t :=
  driver_call e
    {| Cluster.contact_points := hosts; Cluster.port := port;
       Cluster.connect_timeout := 30; Cluster.control_connection_timeout := 30;
       Cluster.protocol_version := protocol_version |}
    (fun l => l).

(** database.py 32-84: the [try] block of [connect] and its handler. *)
Definition connect_try (hosts : list string) (port : Z) (keyspace : string)
  : Proc unit :=
  try_except
    (try_except
       (c <- new_Cluster hosts port (Some 4%Z) ;; set_cluster (Some c))
       (fun _ => c <- new_Cluster hosts port None ;; set_cluster (Some c)) ;;
     s <- self_cluster_connect ;;
     set_session s ;;
     match s with
     | None => raise (RuntimeError "Session is None after connection attempt")
     | Some _ => ret tt
     end ;;
     self_session_execute (CREATE_KEYSPACE keyspace) ;;
     self_session_set_keyspace keyspace ;;
     self_session_row_factory dict_factory ;;
     create_tables ;;
     create_indexes ;;
     set_is_connected true)
    (fun ex =>
       set_is_connected false ;;
       set_session None ;;
       set_cluster None ;;
       raise ex).

(** database.py 17-84. *)
Definition connect (hosts : option hosts_arg) (port : option port_arg)
    (keyspace : option string) : Proc unit :=
  let hosts :=
    match hosts with
    | None => hosts_str (getenv e "CASSANDRA_HOSTS" "127.0.0.1")
    | Some h => h
    end in
  port <- match port with
          | None =>
              n <- int_of e (getenv e "CASSANDRA_PORT" "9042") ;; ret (port_int n)
          | Some p => ret p
          end ;;
  let keyspace :=
    match keyspace with
    | None => getenv e "CASSANDRA_KEYSPACE" "issue_tracker"
    | Some k => k
    end in
  let hosts := match hosts with hosts_str h => [h] | hosts_list l => l end in
  port <- match port with port_str s => int_of e s | port_int n => ret n end ;;
  connect_try hosts port keyspace.

(** database.py 86-90. *)
Definition close : Proc unit :=
  fun p =>
    match cluster p with
    | Some c =>
        ({| cluster := cluster p; session := session p;
            is_connected := is_connected p; calls := calls p;
            storage := storage p; shut_down := shut_down p ++ [c];
            uuids := uuids p; clock := clock p |}, Returns tt)
    | None => (p, Returns tt)
    end.

(** database.py 241-264. *)
Definition clear_tables : Proc unit :=
  try_except
    (for_each tables (fun table => self_session_execute (TRUNCATE table)))
    (fun ex => raise ex).

(** One entry of [users_data], [projects_data], [issues_data],
    [comments_data]: the identifier and the timestamps are drawn where the
    literal has [uuid.uuid4()] and [datetime.now()], in that order. *)
Definition user_entry (username email role : string) : Proc Seed.user :=
  user_id <- draw_uuid4 e ;;
  created_at <- datetime_now e ;;
  ret {| Seed.user_id := user_id; Seed.username := username;
         Seed.email := email; Seed.role := role;
         Seed.user_created_at := created_at |}.

Definition project_entry (name description : string) : Proc Seed.project :=
  project_id <- draw_uuid4 e ;;
  created_at <- datetime_now e ;;
  ret {| Seed.project_id := project_id; Seed.name := name;
         Seed.project_description := description;
         Seed.project_created_at := created_at |}.

Definition issue_entry (project_id : uuid)
    (title description status priority : string)
    (assignee_id : option uuid) (reporter_id : uuid) (component : string)
  : Proc Seed.issue :=
  issue_id <- draw_uuid4 e ;;
  created_at <- datetime_now e ;;
  updated_at <- datetime_now e ;;
  ret {| Seed.issue_project_id := project_id; Seed.issue_id := issue_id;
         Seed.title := title; Seed.description := description;
         Seed.status := status; Seed.priority := priority;
         Seed.assignee_id := assignee_id; Seed.reporter_id := reporter_id;
         Seed.component := component;
         Seed.created_at := created_at; Seed.updated_at := updated_at |}.

Definition comment_entry (project_id issue_id user_id : uuid) (content : string)
  : Proc Seed.comment :=
  comment_id <- draw_uuid4 e ;;
  created_at <- datetime_now e ;;
  ret {| Seed.comment_project_id := project_id;
         Seed.comment_issue_id := issue_id;
         Seed.comment_id := comment_id; Seed.comment_user_id := user_id;
         Seed.content := content; Seed.comment_created_at := created_at |}.

(** database.py 309-313, 336-340, 508-512. *)
Definition insert_user (user : Seed.user) : Proc unit :=
  self_session_execute
    (INSERT_INTO "users"
       [("user_id", PUUID (Seed.user_id user));
        ("username", PStr (Seed.username user));
        ("email", PStr (Seed.email user));
        ("role", PStr (Seed.role user));
        ("created_at", PDatetime (Seed.user_created_at user))]).

Definition insert_project (project : Seed.project) : Proc unit :=
  self_session_execute
    (INSERT_INTO "projects"
       [("project_id", PUUID (Seed.project_id project));
        ("name", PStr (Seed.name project));
        ("description", PStr (Seed.project_description project));
        ("created_at", PDatetime (Seed.project_created_at project))]).

Definition insert_comment (comment : Seed.comment) : Proc unit :=
  self_session_execute
    (INSERT_INTO "issue_comments"
       [("project_id", PUUID (Seed.comment_project_id comment));
        ("issue_id", PUUID (Seed.comment_issue_id comment));
        ("created_at", PDatetime (Seed.comment_created_at comment));
        ("comment_id", PUUID (Seed.comment_id comment));
        ("user_id", PUUID (Seed.comment_user_id comment));
        ("content", PStr (Seed.content comment))]).

(** The body of [for issue in issues_data] (database.py 443-480). *)
Definition insert_issue (issue : Seed.issue) : Proc unit :=
  let project_id := PUUID (Seed.issue_project_id issue) in
  let created_at := PDatetime (Seed.created_at issue) in
  let issue_id := PUUID (Seed.issue_id issue) in
  let title := PStr (Seed.title issue) in
  let description := PStr (Seed.description issue) in
  let status := PStr (Seed.status issue) in
  let priority := PStr (Seed.priority issue) in
  let assignee_id := of_uuid (Seed.assignee_id issue) in
  let reporter_id := PUUID (Seed.reporter_id issue) in
  let component := PStr (Seed.component issue) in
  let updated_at := PDatetime (Seed.updated_at issue) in
  self_session_execute
    (ISSUE (INSERT issues_by_project
              [("project_id", project_id); ("created_at", created_at);
               ("issue_id", issue_id); ("title", title);
               ("description", description); ("status", status);
               ("priority", priority); ("assignee_id", assignee_id);
               ("reporter_id", reporter_id); ("updated_at", updated_at)])) ;;
  self_session_execute
    (ISSUE (INSERT issues_by_status
              [("project_id", project_id); ("status", status);
               ("created_at", created_at); ("issue_id", issue_id);
               ("title", title); ("priority", priority);
               ("assignee_id", assignee_id)])) ;;
  when (py_truthy assignee_id)
    (self_session_execute
       (ISSUE (INSERT issues_by_assignee
                 [("project_id", project_id); ("assignee_id", assignee_id);
                  ("status", status); ("created_at", created_at);
                  ("issue_id", issue_id); ("title", title);
                  ("priority", priority)]))) ;;
  self_session_execute
    (ISSUE (INSERT issues_by_priority
              [("project_id", project_id); ("priority", priority);
               ("created_at", created_at); ("issue_id", issue_id);
               ("title", title); ("status", status);
               ("assignee_id", assignee_id)])) ;;
  when (py_truthy component)
    (self_session_execute
       (ISSUE (INSERT issues_by_component
                 [("project_id", project_id); ("component", component);
                  ("created_at", created_at); ("issue_id", issue_id);
                  ("title", title); ("status", status);
                  ("priority", priority); ("assignee_id", assignee_id)]))).

(** database.py 266-523. *)
Definition seed_test_data (rt : Runtime) : Proc Seed.created :=
  try_except
    (clear_tables ;;
     admin <- user_entry "admin_user" "admin@company.com" "admin" ;;
     dev1 <- user_entry "dev_user1" "dev1@company.com" "developer" ;;
     dev2 <- user_entry "dev_user2" "dev2@company.com" "developer" ;;
     tester <- user_entry "tester_user" "tester@company.com" "tester" ;;
     let users_data := [admin; dev1; dev2; tester] in
     for_each users_data insert_user ;;
     web_app <- project_entry "Web Application"
                  "Основное веб-приложение компании" ;;
     mobile <- project_entry "Mobile App"
                 "Мобильное приложение для iOS и Android" ;;
     let projects_data := [web_app; mobile] in
     for_each projects_data insert_project ;;
     let web_app_project := Seed.project_id web_app in
     let mobile_project := Seed.project_id mobile in
     let admin_user := Seed.user_id admin in
     let dev1_user := Seed.user_id dev1 in
     let dev2_user := Seed.user_id dev2 in
     let tester_user := Seed.user_id tester in
     issue0 <- issue_entry web_app_project
                 "Ошибка авторизации"
                 "Пользователи не могут войти в систему с правильными credentials"
                 "open" "high" (Some dev1_user) tester_user "authentication" ;;
     issue1 <- issue_entry web_app_project
                 "Медленная загрузка страницы"
                 "Главная страница загружается более 5 секунд"
                 "in_progress" "medium" (Some dev2_user) admin_user "performance" ;;
     issue2 <- issue_entry web_app_project
                 "Некорректное отображение в Safari"
                 "Страница профиля некорректно отображается в браузере Safari"
                 "open" "low" None tester_user "frontend" ;;
     issue3 <- issue_entry mobile_project
                 "Крах приложения при повороте экрана"
                 "Приложение крашится при изменении ориентации экрана на главном экране"
                 "open" "critical" (Some dev1_user) tester_user "ui" ;;
     let issues_data := [issue0; issue1; issue2; issue3] in
     for_each issues_data insert_issue ;;
     comment0 <- comment_entry web_app_project (Seed.issue_id issue0) dev1_user
                   "Начинаю разбираться с этой проблемой. Похоже на issue с сессиями." ;;
     comment1 <- comment_entry web_app_project (Seed.issue_id issue0) tester_user
                   "Спасибо! Буду ждать обновлений." ;;
     let comments_data := [comment0; comment1] in
     for_each comments_data insert_comment ;;
     ret {| Seed.users := map (fun user => str_uuid rt (Seed.user_id user)) users_data;
            Seed.projects :=
              map (fun project => str_uuid rt (Seed.project_id project)) projects_data;
            Seed.issues :=
              map (fun issue => str_uuid rt (Seed.issue_id issue)) issues_data |})
    (fun ex => raise ex).

End Methods.
End CassandraManager.

(* ------------------------------------------------------------------ *)
(** ** The handlers of main.py on the manager *)

Module Health.
Record t := {
  status : string;
  database_connected : bool;
  session_available : bool;
  cluster_available : bool
}.
End Health.

Inductive UserRole := ADMIN | DEVELOPER | TESTER | PROJECT_MANAGER.

Definition UserRole_value (r : UserRole) : string :=
  match r with
  | ADMIN => "admin" | DEVELOPER => "developer" | TESTER => "tester"
  | PROJECT_MANAGER => "project_manager"
  end.

Module UserCreate.
Record t := { username : string; email : string; role : UserRole }.
End UserCreate.

Module ProjectCreate.
Record t := { name : string; description : option string }.
End ProjectCreate.

Module CommentCreate.
Record t := { user_id : uuid; content : string }.
End CommentCreate.

Module CommentResponse.
Record t := {
  comment_id : pyval;
  issue_id : pyval;
  project_id : pyval;
  user_id : pyval;
  content : pyval;
  created_at : pyval
}.
End CommentResponse.

Section Handlers.
Import ProcMonad.
Local Open Scope proc_scope.
Variable rt : Runtime.
Variable e : Env.

(** main.py 22-29. *)
Definition get_db : Proc Session.t :=
  fun p =>
    match session p with
    | Some db =>
        if negb (is_connected p) then
          (p, Raises (Exn (HTTPException 503
             "Database connection is not available. Please check server logs and ensure Cassandra is running.")))
        else (p, Returns db)
    | None =>
        (p, Raises (Exn (HTTPException 503
           "Database connection is not available. Please check server logs and ensure Cassandra is running.")))
    end.

(** A handler with the parameter [db=Depends(get_db)]: the dependency is
    resolved first, and the handler does not run when it raises. *)
Definition Depends {A B} (dependency : Proc A) (handler : A -> Proc B) : Proc B :=
  db <- dependency ;; handler db.

(** main.py 41-59: [lifespan] up to its [yield]. *)
Definition lifespan_startup : Proc unit :=
  fun p =>
    if negb (is_connected p) then
      (CassandraManager.connect e None None None ;;
       (fun p' =>
          if negb (is_connected p') then
            (p', Raises (RuntimeError "Connection flag is False after connect()"))
          else
            match session p' with
            | None => (p', Raises (RuntimeError "Session is None after connect()"))
            | Some _ => (p', Returns tt)
            end)) p
    else (p, Returns tt).

(** main.py 63-65: [lifespan] after its [yield]. *)
Definition lifespan_shutdown : Proc unit := CassandraManager.close.

(** main.py 1028-1036. *)
Definition health_check : Proc Health.t :=
  fun p =>
    (p, Returns {| Health.status := if is_connected p then "ok" else "error";
                   Health.database_connected := is_connected p;
                   Health.session_available :=
                     match session p with Some _ => true | None => false end;
                   Health.cluster_available :=
                     match cluster p with Some _ => true | None => false end |}).

(** [uuid.UUID(text)]. *)
Definition uuid_UUID (text : string) : Proc uuid :=
  match UUID rt text with
  | Some u => ret u
  | None => raise (Exn (ValueError "badly formed hexadecimal UUID string"))
  end.

Definition error (prefix : string) (ex : exception) : exception :=
  Exn (HTTPException 500 (prefix ++ str_exception rt ex)%string).

(** main.py 89-110. *)
Definition create_user (user : UserCreate.t) : Proc UserResponse.t :=
  Depends get_db (fun db =>
    user_id <- draw_uuid4 e ;;
    created_at <- datetime_now e ;;
    try_except
      (session_execute e db
         (INSERT_INTO "users"
            [("user_id", PUUID user_id);
             ("username", PStr (UserCreate.username user));
             ("email", PStr (UserCreate.email user));
             ("role", PStr (UserRole_value (UserCreate.role user)));
             ("created_at", PDatetime created_at)]) ;;
       ret {| UserResponse.user_id := PUUID user_id;
              UserResponse.username := PStr (UserCreate.username user);
              UserResponse.email := PStr (UserCreate.email user);
              UserResponse.role := PStr (UserRole_value (UserCreate.role user));
              UserResponse.created_at := PDatetime created_at |})
      (fun ex => raise (error "Error creating user: " ex))).

(** main.py 132-152. *)
Definition create_project (project : ProjectCreate.t) : Proc ProjectResponse.t :=
  Depends get_db (fun db =>
    project_id <- draw_uuid4 e ;;
    created_at <- datetime_now e ;;
    try_except
      (session_execute e db
         (INSERT_INTO "projects"
            [("project_id", PUUID project_id);
             ("name", PStr (ProjectCreate.name project));
             ("description", of_text (ProjectCreate.description project));
             ("created_at", PDatetime created_at)]) ;;
       ret {| ProjectResponse.project_id := PUUID project_id;
              ProjectResponse.name := PStr (ProjectCreate.name project);
              ProjectResponse.description :=
                of_text (ProjectCreate.description project);
              ProjectResponse.created_at := PDatetime created_at |})
      (fun ex => raise (error "Error creating project: " ex))).

(** main.py 383-413. *)
Definition create_comment (issue_id project_id : string)
    (comment : CommentCreate.t) : Proc CommentResponse.t :=
  Depends get_db (fun db =>
    comment_id <- draw_uuid4 e ;;
    created_at <- datetime_now e ;;
    try_except
      (project_uuid <- uuid_UUID project_id ;;
       issue_uuid <- uuid_UUID issue_id ;;
       session_execute e db
         (INSERT_INTO "issue_comments"
            [("project_id", PUUID project_uuid);
             ("issue_id", PUUID issue_uuid);
             ("created_at", PDatetime created_at);
             ("comment_id", PUUID comment_id);
             ("user_id", PUUID (CommentCreate.user_id comment));
             ("content", PStr (CommentCreate.content comment))]) ;;
       issue_uuid' <- uuid_UUID issue_id ;;
       project_uuid' <- uuid_UUID project_id ;;
       ret {| CommentResponse.comment_id := PUUID comment_id;
              CommentResponse.issue_id := PUUID issue_uuid';
              CommentResponse.project_id := PUUID project_uuid';
              CommentResponse.user_id := PUUID (CommentCreate.user_id comment);
              CommentResponse.content := PStr (CommentCreate.content comment);
              CommentResponse.created_at := PDatetime created_at |})
      (fun ex => raise (error "Error creating comment: " ex))).

(** main.py 1040-1047. *)
Definition clear_all_data : Proc string :=
  Depends get_db (fun db =>
    try_except
      (CassandraManager.clear_tables e ;;
       ret "All tables cleared successfully")
      (fun ex => raise (error "Error clearing data: " ex))).

(** main.py 1050-1060; the handler has no [Depends(get_db)]. *)
Definition seed_test_data : Proc (string * Seed.created) :=
  try_except
    (result <- CassandraManager.seed_test_data e rt ;;
     ret ("Test data seeded successfully", result))
    (fun ex => raise (error "Error seeding test data: " ex)).

(** main.py 1063-1074; no [Depends(get_db)] either. *)
Definition reset_test_data : Proc (string * Seed.created) :=
  try_except
    (CassandraManager.clear_tables e ;;
     result <- CassandraManager.seed_test_data e rt ;;
     ret ("Database reset with test data successfully", result))
    (fun ex => raise (error "Error resetting data: " ex)).

End Handlers.

(** The names of the tables [create_tables] declares. *)
Definition declared : list string := map schema_name tables_created.

(** A statement of the manager or of a handler fits the declared tables: a
    [TRUNCATE] names one, a [CREATE INDEX] names a column of one, an
    [INSERT] names columns of its table and among them the whole primary
    key, and a statement on an issue table fits its table. *)
Definition statement_fits (s : statement) : bool :=
  match s with
  | CREATE_KEYSPACE _ => true
  | USE _ => true
  | CREATE_TABLE t => mem (schema_name t) declared
  | CREATE_INDEX _ on_ column =>
      match schema_of on_ with
      | Some t => mem column (schema_columns t)
      | None => false
      end
  | TRUNCATE name => mem name declared
  | INSERT_INTO name values =>
      match schema_of name with
      | Some t =>
          subset (map fst values) (schema_columns t)
          && subset (primary_key t) (map fst values)
      | None => false
      end
  | ISSUE o => fits_schema o
  end.

(** A driver that refuses nothing and always yields a session. *)
Definition sample_env : Env :=
  {| os_environ := fun _ => None;
     int := fun s => if String.eqb s "9042" then Some 9042%Z else None;
     refused := fun _ => None;
     no_session := fun _ => false;
     uuid4 := fun n => N.of_nat (100 + n);
     now := fun n => Z.of_nat (1000 + n) |}.

(** The same driver, refusing its [n]-th call. *)
Definition refusing (n : nat) (msg : string) : Env :=
  {| os_environ := os_environ sample_env;
     int := int sample_env;
     refused := fun k => if Nat.eqb k n then Some msg else None;
     no_session := no_session sample_env;
     uuid4 := uuid4 sample_env;
     now := now sample_env |}.
(* ------------------------------------------------------------------ *)
(** ** Notions for the properties of the manager *)

(** [p] after [n] more driver calls that carried out [sent]. *)
Definition advance (n : nat) (sent : list statement) (p : Process) : Process :=
  {| cluster := cluster p; session := session p;
     is_connected := is_connected p; calls := n + calls p;
     storage := storage p ++ sent; shut_down := shut_down p;
     uuids := uuids p; clock := clock p |}.

(** The first of the [len] driver calls from the [n]-th on that the driver
    refuses: how many calls precede it, and its message. *)
Fixpoint first_refusal (e : Env) (n len : nat) : option (nat * string) :=
  match len with
  | O => None
  | S len' =>
      match refused e n with
      | Some msg => Some (O, msg)
      | None =>
          match first_refusal e (S n) len' with
          | Some (k, msg) => Some (S k, msg)
          | None => None
          end
      end
  end.

(** The statements of [l], sent one per driver call from the [n]-th on,
    that the driver does not refuse. *)
Fixpoint accepted (e : Env) (n : nat) (l : list statement) : list statement :=
  match l with
  | [] => []
  | s :: rest =>
      match refused e n with
      | Some _ => accepted e (S n) rest
      | None => s :: accepted e (S n) rest
      end
  end.

(** The three attributes of the manager agree. *)
Definition same_manager (p p' : Process) : Prop :=
  cluster p' = cluster p /\ session p' = session p
  /\ is_connected p' = is_connected p.

(** The flag [is_connected] is set only with a session and a cluster. *)
Definition consistent (p : Process) : Prop :=
  is_connected p = true -> session p <> None /\ cluster p <> None.

(** [m] keeps [I], however it ends. *)
Definition invariant {A} (I : Process -> Prop) (m : Proc A) : Prop :=
  forall p p' r, I p -> m p = (p', r) -> I p'.

(** What a process can be asked to do: the methods of the manager and the
    handlers of main.py on it. *)
Inductive call :=
| Connect (hosts : option hosts_arg) (port : option port_arg)
          (keyspace : option string)
| Close
| CreateTables
| CreateIndexes
| ClearTables
| SeedTestData
| LifespanStartup
| LifespanShutdown
| GetDb
| HealthCheck
| CreateUser (user : UserCreate.t)
| CreateProject (project : ProjectCreate.t)
| CreateComment (issue_id project_id : string) (comment : CommentCreate.t)
| ClearAllData
| SeedTestDataHandler
| ResetTestData.

Definition state_after {A} (m : Proc A) (p : Process) : Process := fst (m p).

Definition perform (rt : Runtime) (e : Env) (c : call) : Process -> Process :=
  match c with
  | Connect hosts port keyspace =>
      state_after (CassandraManager.connect e hosts port keyspace)
  | Close => state_after CassandraManager.close
  | CreateTables => state_after (CassandraManager.create_tables e)
  | CreateIndexes => state_after (CassandraManager.create_indexes e)
  | ClearTables => state_after (CassandraManager.clear_tables e)
  | SeedTestData => state_after (CassandraManager.seed_test_data e rt)
  | LifespanStartup => state_after (lifespan_startup e)
  | LifespanShutdown => state_after lifespan_shutdown
  | GetDb => state_after get_db
  | HealthCheck => state_after health_check
  | CreateUser user => state_after (create_user rt e user)
  | CreateProject project => state_after (create_project rt e project)
  | CreateComment issue_id project_id comment =>
      state_after (create_comment rt e issue_id project_id comment)
  | ClearAllData => state_after (clear_all_data rt e)
  | SeedTestDataHandler => state_after (seed_test_data rt e)
  | ResetTestData => state_after (reset_test_data rt e)
  end.

(** The process after a sequence of calls on a fresh manager. *)
Definition after (rt : Runtime) (e : Env) (l : list call) : Process :=
  fold_left (fun p c => perform rt e c p) l __init__.

Definition is_Connect (c : call) : bool :=
  match c with
  | Connect _ _ _ => true
  | LifespanStartup => true
  | _ => false
  end.

(** The entry of [issues_data] that holds what a request to create an
    issue holds, with the identifier and the time [create_issue] draws. *)
Definition as_entry (w : World) (issue : IssueCreate.t) : Seed.issue :=
  {| Seed.issue_project_id := IssueCreate.project_id issue;
     Seed.issue_id := w_uuid4 w 0;
     Seed.title := IssueCreate.title issue;
     Seed.description := IssueCreate.description issue;
     Seed.status := Status_value (IssueCreate.status issue);
     Seed.priority := Priority_value (IssueCreate.priority issue);
     Seed.assignee_id := IssueCreate.assignee_id issue;
     Seed.reporter_id := IssueCreate.reporter_id issue;
     Seed.component :=
       match IssueCreate.component issue with Some c => c | None => "" end;
     Seed.created_at := w_now w;
     Seed.updated_at := w_now w |}.

(** The arguments [connect] works with (database.py 18-30): those given,
    or the environment's, or the defaults. *)
Definition hosts_of (e : Env) (hosts : option hosts_arg) : list string :=
  match hosts with
  | Some (hosts_list l) => l
  | Some (hosts_str h) => [h]
  | None => [getenv e "CASSANDRA_HOSTS" "127.0.0.1"]
  end.

Definition port_of (e : Env) (port : option port_arg) : option Z :=
  match port with
  | Some (port_int n) => Some n
  | Some (port_str s) => int e s
  | None => int e (getenv e "CASSANDRA_PORT" "9042")
  end.

Definition keyspace_of (e : Env) (keyspace : option string) : string :=
  match keyspace with
  | Some k => k
  | None => getenv e "CASSANDRA_KEYSPACE" "issue_tracker"
  end.

(** Every statement carried out fits the declared tables. *)
Definition fits_all (p : Process) : Prop :=
  Forall (fun s => statement_fits s = true) (storage p).

Definition unavailable : exception :=
  Exn (HTTPException 503
         "Database connection is not available. Please check server logs and ensure Cassandra is running.").

(** A connected manager. *)
Definition sample_cluster : Cluster.t :=
  {| Cluster.contact_points := ["127.0.0.1"]; Cluster.port := 9042;
     Cluster.connect_timeout := 30; Cluster.control_connection_timeout := 30;
     Cluster.protocol_version := Some 4%Z |}.

Definition sample_session : Session.t :=
  {| Session.cluster := sample_cluster;
     Session.keyspace := Some "issue_tracker";
     Session.row_factory := dict_factory |}.

Definition sample_process : Process :=
  {| cluster := Some sample_cluster; session := Some sample_session;
     is_connected := true; calls := 0; storage := []; shut_down := [];
     uuids := 0; clock := 0 |}.

Definition sample_user_create : UserCreate.t :=
  {| UserCreate.username := "alice"; UserCreate.email := "alice@example.org";
     UserCreate.role := TESTER |}.

(* ================================================================== *)
(** * Properties *)

(** ** Python equality *)

Lemma py_eq_refl (v : pyval) : py_eq v v = true.
Proof.
  destruct v; unfold py_eq; simpl;
    auto using String.eqb_refl, N.eqb_refl, Z.eqb_refl.
Qed.


Lemma py_ne_refl (v : pyval) : py_ne v v = false.
Proof. unfold py_ne. now rewrite py_eq_refl. Qed.

(** ** The payload as a dict *)

Lemma dict_find_app (d1 d2 : dict) (k : string) :
  dict_find (d1 ++ d2) k =
  match dict_find d1 k with Some v => Some v | None => dict_find d2 k end.
Proof.
  induction d1 as [|[k' v] d1 IH]; simpl; [reflexivity|].
  destruct (String.eqb k k'); auto.
Qed.

Lemma dict_find_entry {A} (k k' : string) (f : A -> pyval) (o : option (option A)) :
  dict_find (entry k f o) k' = if String.eqb k' k then supplied f o else None.
Proof.
  destruct o as [[a|]|]; simpl; destruct (String.eqb k' k); reflexivity.
Qed.

Ltac find_field :=
  unfold dict_exclude_unset;
  repeat rewrite dict_find_app; repeat rewrite dict_find_entry; simpl;
  repeat match goal with |- context [supplied ?f ?o] => destruct (supplied f o) end;
  reflexivity.

Lemma find_title u :
  dict_find (dict_exclude_unset u) "title" = supplied PStr (IssueUpdate.title u).
Proof. find_field. Qed.

Lemma find_description u :
  dict_find (dict_exclude_unset u) "description"
  = supplied PStr (IssueUpdate.description u).
Proof. find_field. Qed.

Lemma find_status u :
  dict_find (dict_exclude_unset u) "status" = supplied PStatus (IssueUpdate.status u).
Proof. find_field. Qed.

Lemma find_priority u :
  dict_find (dict_exclude_unset u) "priority"
  = supplied PPriority (IssueUpdate.priority u).
Proof. find_field. Qed.

Lemma find_assignee_id u :
  dict_find (dict_exclude_unset u) "assignee_id"
  = supplied PUUID (IssueUpdate.assignee_id u).
Proof. find_field. Qed.

Lemma find_component u :
  dict_find (dict_exclude_unset u) "component"
  = supplied PStr (IssueUpdate.component u).
Proof. find_field. Qed.

(** ** Runs the storage does not interrupt *)

Lemma bind_ok {A B} (m : M A) (f : A -> M B) st st' a :
  m st = (st', Ok a) -> bind m f st = f a st'.
Proof. intros H. unfold bind. now rewrite H. Qed.

Lemma bind_raise {A B} (m : M A) (f : A -> M B) st st' e :
  m st = (st', Raise e) -> bind m f st = (st', Raise e).
Proof. intros H. unfold bind. now rewrite H. Qed.

Lemma execute_quiet w o n l :
  execute w o (quiet n l) = (quiet n (l ++ [o]), Ok tt).
Proof. reflexivity. Qed.

Lemma select_quiet {A} w (rows : list A) n l :
  select w rows (quiet n l) = (quiet n l, Ok rows).
Proof. reflexivity. Qed.

Lemma when_quiet w b o n l :
  when b (execute w o) (quiet n l) = (quiet n (l ++ if b then [o] else []), Ok tt).
Proof. destruct b; simpl; [reflexivity|]. now rewrite app_nil_r. Qed.

Lemma for_each_history_quiet rt w changes p i t by_ n l :
  for_each changes (fun c =>
    event_id <- generate_uuid w ;;
    execute w (history_query rt event_id c p i t by_)) (quiet n l)
  = (quiet (n + List.length changes) (l ++ history_writes rt w n changes p i t by_), Ok tt).
Proof.
  revert n l. induction changes as [|c cs IH]; intros n l; simpl.
  - now rewrite Nat.add_0_r, app_nil_r.
  - unfold bind at 1. simpl. rewrite IH.
    rewrite <- app_assoc. simpl. now rewrite Nat.add_succ_r.
Qed.

Lemma write_history_quiet rt w changes p i t by_ n l :
  write_history rt w changes p i t by_ (quiet n l)
  = (quiet (n + List.length changes) (l ++ history_writes rt w n changes p i t by_), Ok tt).
Proof.
  unfold write_history. destruct changes as [|c cs].
  - simpl. now rewrite Nat.add_0_r, app_nil_r.
  - apply for_each_history_quiet.
Qed.

Ltac step_quiet :=
  first
    [ rewrite execute_quiet
    | rewrite when_quiet
    | rewrite write_history_quiet
    | erewrite bind_ok by (first [apply execute_quiet | apply when_quiet
                                 | apply write_history_quiet]) ].

Ltac tidy_log := repeat rewrite <- app_assoc; simpl; repeat rewrite app_nil_r.

Lemma first_sync_status_quiet w L n l :
  First.sync_issues_by_status w L (quiet n l)
  = (quiet n (l ++ first_status_writes L),
     Ok (if dict_in "status" (updated_fields L)
         then [("status", old_status L, new_status L)] else [])).
Proof.
  unfold First.sync_issues_by_status, first_status_writes.
  destruct (dict_in "status" (updated_fields L));
    repeat step_quiet; unfold ret; tidy_log; reflexivity.
Qed.

Lemma first_sync_priority_quiet w L n l :
  First.sync_issues_by_priority w L (quiet n l)
  = (quiet n (l ++ first_priority_writes L),
     Ok (if dict_in "priority" (updated_fields L)
         then [("priority", old_priority L, new_priority L)] else [])).
Proof.
  unfold First.sync_issues_by_priority, first_priority_writes.
  destruct (dict_in "priority" (updated_fields L));
    repeat step_quiet; unfold ret; tidy_log; reflexivity.
Qed.

Lemma first_sync_assignee_quiet rt w L n l :
  First.sync_issues_by_assignee rt w L (quiet n l)
  = (quiet n (l ++ assignee_writes (dict_in "assignee_id" (updated_fields L)
                                    || dict_in "status" (updated_fields L)) L),
     Ok (if dict_in "assignee_id" (updated_fields L)
         then [("assignee_id", str_or_None rt (old_assignee_id L),
                               str_or_None rt (new_assignee_id L))]
         else [])).
Proof.
  unfold First.sync_issues_by_assignee, assignee_writes.
  destruct (dict_in "assignee_id" (updated_fields L)),
           (dict_in "status" (updated_fields L)); simpl;
    repeat step_quiet; unfold ret; tidy_log; reflexivity.
Qed.

Lemma first_sync_component_quiet w L n l :
  First.sync_issues_by_component w L (quiet n l)
  = (quiet n (l ++ component_writes L),
     Ok (if dict_in "component" (updated_fields L)
         then [("component", old_component L, new_component L)] else [])).
Proof.
  unfold First.sync_issues_by_component, component_writes.
  destruct (dict_in "component" (updated_fields L));
    repeat step_quiet; unfold ret; tidy_log; reflexivity.
Qed.

Lemma second_sync_status_quiet w L n l :
  Second.sync_issues_by_status w L (quiet n l)
  = (quiet n (l ++ second_status_writes L), Ok tt).
Proof.
  unfold Second.sync_issues_by_status, second_status_writes.
  destruct (Second.status_changed L);
    repeat step_quiet; tidy_log; reflexivity.
Qed.

Lemma second_sync_priority_quiet w L n l :
  Second.sync_issues_by_priority w L (quiet n l)
  = (quiet n (l ++ second_priority_writes L), Ok tt).
Proof.
  unfold Second.sync_issues_by_priority, second_priority_writes.
  destruct (Second.priority_changed L);
    repeat step_quiet; tidy_log; reflexivity.
Qed.

Lemma second_sync_assignee_quiet w L n l :
  Second.sync_issues_by_assignee w L (quiet n l)
  = (quiet n (l ++ assignee_writes (dict_in "assignee_id" (updated_fields L)
                                    || Second.status_changed L) L), Ok tt).
Proof.
  unfold Second.sync_issues_by_assignee, assignee_writes.
  destruct (dict_in "assignee_id" (updated_fields L) || Second.status_changed L);
    repeat step_quiet; tidy_log; reflexivity.
Qed.

Lemma second_sync_component_quiet w L n l :
  Second.sync_issues_by_component w L (quiet n l)
  = (quiet n (l ++ component_writes L), Ok tt).
Proof.
  unfold Second.sync_issues_by_component, component_writes.
  destruct (dict_in "component" (updated_fields L));
    repeat step_quiet; tidy_log; reflexivity.
Qed.

(** The writes of an update the storage does not interrupt, in both
    handlers: the canonical [UPDATE], the views, the history. *)
Lemma first_update_writes_quiet rt w L n l :
  First.update_writes rt w L (quiet n l)
  = (quiet (n + List.length (first_changes rt L))
       (l ++ update_main_query L :: view_writes first_registration L
          ++ history_writes rt w n (first_changes rt L)
               (project_uuid L) (issue_uuid L) (updated_at L) (reporter_id L)),
     answer (response rt L)).
Proof.
  unfold First.update_writes.
  erewrite bind_ok by apply execute_quiet.
  erewrite bind_ok by apply first_sync_status_quiet.
  erewrite bind_ok by apply first_sync_priority_quiet.
  erewrite bind_ok by apply first_sync_assignee_quiet.
  erewrite bind_ok by apply first_sync_component_quiet.
  erewrite bind_ok by apply write_history_quiet.
  unfold construct, first_changes, view_writes. tidy_log. reflexivity.
Qed.

Lemma second_update_writes_quiet rt w L n l :
  Second.update_writes rt w L (quiet n l)
  = (quiet (n + List.length (Second.changes rt L))
       (l ++ update_main_query L :: view_writes second_registration L
          ++ history_writes rt w n (Second.changes rt L)
               (project_uuid L) (issue_uuid L) (updated_at L) (reporter_id L)),
     answer (response rt L)).
Proof.
  unfold Second.update_writes.
  erewrite bind_ok by apply execute_quiet.
  erewrite bind_ok by apply second_sync_status_quiet.
  erewrite bind_ok by apply second_sync_priority_quiet.
  erewrite bind_ok by apply second_sync_assignee_quiet.
  erewrite bind_ok by apply second_sync_component_quiet.
  erewrite bind_ok by apply write_history_quiet.
  unfold construct, view_writes. tidy_log. reflexivity.
Qed.

Lemma init_quiet w : w_fail w = None -> init w = quiet 0 [].
Proof. intros H. unfold init. now rewrite H. Qed.

Lemma parse_uuid_ok rt text u st :
  UUID rt text = Some u -> parse_uuid rt text st = (st, Ok u).
Proof. intros H. unfold parse_uuid. now rewrite H. Qed.

Lemma dict_empty_false (d : dict) : d <> [] -> dict_empty d = false.
Proof. destruct d; [congruence|reflexivity]. Qed.

(** An update of an existing issue that supplies a field, with nothing in
    its way: the response and everything it writes. *)
Lemma update_issue_body_runs reg rt w issue_id project_id u p i cur c :
  w_fail w = None ->
  UUID rt project_id = Some p ->
  UUID rt issue_id = Some i ->
  current_issue_of reg w p i = Some cur ->
  current_component_of reg w p i cur = Some c ->
  dict_exclude_unset u <> [] ->
  let L := locals_of reg p i cur c (dict_exclude_unset u) (w_now w) in
  run w (update_issue_body reg rt w issue_id project_id u)
  = (quiet (List.length (changes_of reg rt L)) (update_log reg rt w L),
     answer (response rt L)).
Proof.
  intros Hf Hp Hi Hcur Hc Hne L. unfold run. rewrite (init_quiet w Hf).
  apply dict_empty_false in Hne.
  destruct reg; simpl in *.
  - unfold First.update_issue_body.
    erewrite bind_ok by (apply parse_uuid_ok; eassumption).
    erewrite bind_ok by (apply parse_uuid_ok; eassumption).
    erewrite bind_ok by apply select_quiet.
    rewrite Hcur, Hne. unfold First.getitem_component. rewrite Hc.
    unfold get_current_time. unfold bind at 1. simpl. unfold bind at 1. simpl.
    apply first_update_writes_quiet.
  - unfold Second.update_issue_body.
    erewrite bind_ok by (apply parse_uuid_ok; eassumption).
    erewrite bind_ok by (apply parse_uuid_ok; eassumption).
    erewrite bind_ok by apply select_quiet.
    rewrite Hcur.
    erewrite bind_ok by apply select_quiet.
    rewrite Hne. injection Hc as <-.
    unfold get_current_time. unfold bind at 1. simpl.
    apply second_update_writes_quiet.
Qed.

Lemma try_except_ok {A} (m : M A) h st st' a :
  m st = (st', Ok a) -> try_except m h st = (st', Ok a).
Proof. intros H. unfold try_except. now rewrite H. Qed.

Lemma update_issue_is_try reg rt w issue_id project_id u :
  update_issue reg rt w issue_id project_id u
  = try_except (update_issue_body reg rt w issue_id project_id u)
      (fun e =>
         raise (HTTPException 500 ("Error updating issue: " ++ str_exn rt e)%string)).
Proof. destruct reg; reflexivity. Qed.

Lemma update_issue_runs reg rt w issue_id project_id u p i cur c :
  w_fail w = None ->
  UUID rt project_id = Some p ->
  UUID rt issue_id = Some i ->
  current_issue_of reg w p i = Some cur ->
  current_component_of reg w p i cur = Some c ->
  dict_exclude_unset u <> [] ->
  let L := locals_of reg p i cur c (dict_exclude_unset u) (w_now w) in
  run w (update_issue reg rt w issue_id project_id u)
  = (quiet (List.length (changes_of reg rt L)) (update_log reg rt w L),
     caught rt "Error updating issue: " (answer (response rt L))).
Proof.
  intros Hf Hp Hi Hcur Hc Hne L.
  rewrite update_issue_is_try. unfold run, try_except.
  pose proof (update_issue_body_runs reg rt w issue_id project_id u p i cur c
                Hf Hp Hi Hcur Hc Hne) as H.
  unfold run in H. simpl in H. rewrite H. subst L.
  destruct (answer (response rt (locals_of reg p i cur c (dict_exclude_unset u)
                                    (w_now w)))); reflexivity.
Qed.

(** ** Every run, interrupted or not *)

Section Hoare.
Variable w : World.
Variable P : op -> Prop.

Lemma hoare_ret {A} (a : A) : hoare P (fun x => x = a) (ret a).
  Proof. intros st st' r H HP. inversion H; subst. split; [assumption|congruence]. Qed.

Lemma hoare_raise {A} (Q : A -> Prop) e : hoare P Q (raise e).
  Proof. intros st st' r H HP. inversion H; subst. split; [assumption|discriminate]. Qed.

Lemma hoare_construct {A} (model : option A) :
    hoare P (fun r => model = Some r) (construct model).
  Proof.
    intros st st' r H HP. inversion H; subst. split; [assumption|].
    destruct model as [x|]; simpl; intros y [= <-]. reflexivity.
  Qed.

Lemma hoare_weaken {A} (Q Q' : A -> Prop) m :
    hoare P Q m -> (forall a, Q a -> Q' a) -> hoare P Q' m.
  Proof.
    intros Hm HQ st st' r H HP. destruct (Hm _ _ _ H HP) as [H1 H2]. auto.
  Qed.

Lemma hoare_bind {A B} (Q : A -> Prop) (R : B -> Prop) m f :
    hoare P Q m -> (forall a, Q a -> hoare P R (f a)) -> hoare P R (bind m f).
  Proof.
    intros Hm Hf st st' r H HP. unfold bind in H.
    destruct (m st) as [st1 [a|e]] eqn:E.
    - destruct (Hm _ _ _ E HP) as [H1 H2]. exact (Hf a (H2 a eq_refl) _ _ _ H H1).
    - inversion H; subst. destruct (Hm _ _ _ E HP) as [H1 _].
      split; [assumption|discriminate].
  Qed.

Lemma hoare_try_except {A} (Q : A -> Prop) m h :
    hoare P Q m -> (forall e, hoare P Q (h e)) -> hoare P Q (try_except m h).
  Proof.
    intros Hm Hh st st' r H HP. unfold try_except in H.
    destruct (m st) as [st1 [a|e]] eqn:E.
    - inversion H; subst. exact (Hm _ _ _ E HP).
    - destruct (Hm _ _ _ E HP) as [H1 _]. exact (Hh e _ _ _ H H1).
  Qed.

Lemma hoare_if {A} (Q : A -> Prop) (b : bool) (m1 m2 : M A) :
    (b = true -> hoare P Q m1) -> (b = false -> hoare P Q m2) ->
    hoare P Q (if b then m1 else m2).
  Proof. destruct b; auto. Qed.

Lemma hoare_db_call {A} (a : A) eff :
    (forall l, Forall P l -> Forall P (eff l)) ->
    hoare P (fun x => x = a) (db_call w a eff).
  Proof.
    intros Heff st st' r H HP. unfold db_call in H.
    destruct (failing st) as [[|k]|]; inversion H; subst; simpl;
      (split; [auto | congruence]).
  Qed.

Lemma hoare_execute o : P o -> hoare P anything (execute w o).
  Proof.
    intros Ho. eapply hoare_weaken.
    - apply hoare_db_call. intros l Hl. apply Forall_app. auto.
    - intros; exact I.
  Qed.

Lemma hoare_select {A} (rows : list A) :
    hoare P (fun x => x = rows) (select w rows).
  Proof. apply hoare_db_call. auto. Qed.

Lemma hoare_generate_uuid : hoare P anything (generate_uuid w).
  Proof.
    intros st st' r H HP. inversion H; subst. simpl. split; [assumption|intros; exact I].
  Qed.

Lemma hoare_when b o : (b = true -> P o) -> hoare P anything (when b (execute w o)).
  Proof.
    intros Ho. unfold when. apply hoare_if; intros Hb.
    - apply hoare_execute; auto.
    - eapply hoare_weaken; [apply hoare_ret | intros; exact I].
  Qed.

Lemma hoare_for_each {A} (l : list A) body :
    (forall x, In x l -> hoare P anything (body x)) ->
    hoare P anything (for_each l body).
  Proof.
    induction l as [|x xs IH]; intros Hb; simpl.
    - eapply hoare_weaken; [apply hoare_ret | intros; exact I].
    - eapply hoare_bind; [apply Hb; now left|].
      intros _ _. apply IH. intros y Hy. apply Hb. now right.
  Qed.

Lemma hoare_run {A} (Q : A -> Prop) (m : M A) :
    hoare P Q m -> Forall P (log (fst (run w m))).
  Proof.
    intros Hm. unfold run. destruct (m (init w)) as [st r] eqn:E.
    exact (proj1 (Hm _ _ _ E (Forall_nil P))).
  Qed.

Lemma hoare_parse_uuid rt text :
    hoare P (fun u => UUID rt text = Some u) (parse_uuid rt text).
  Proof.
    unfold parse_uuid. destruct (UUID rt text).
    - eapply hoare_weaken; [apply hoare_ret | intros; congruence].
    - apply hoare_raise.
  Qed.

End Hoare.

Section HoareUpdate.
Variable rt : Runtime.
Variable w : World.
Variable P : op -> Prop.

Ltac member HP :=
    apply HP; rewrite ?in_app_iff; simpl; auto 10.

Ltac run_block HP :=
    repeat first
      [ apply hoare_ret
      | eapply hoare_weaken; [apply hoare_execute; member HP | intros; exact I]
      | eapply hoare_weaken;
        [ apply hoare_when; let Hb := fresh in intros Hb; rewrite Hb in HP; member HP
        | intros; exact I]
      | eapply hoare_bind;
        [ first [ apply hoare_execute; member HP
                | apply hoare_when;
                  let Hb := fresh in intros Hb; rewrite Hb in HP; member HP ]
        | intros ? _ ] ].

Lemma hoare_write_history changes p i t by_ :
    (forall event_id c, In c changes -> P (history_query rt event_id c p i t by_)) ->
    hoare P anything (write_history rt w changes p i t by_).
  Proof.
    intros HP. unfold write_history.
    assert (H : hoare P anything
                  (for_each changes (fun c =>
                     event_id <- generate_uuid w ;;
                     execute w (history_query rt event_id c p i t by_)))).
    { apply hoare_for_each. intros c Hc.
      eapply hoare_bind; [apply hoare_generate_uuid|].
      intros event_id _. apply hoare_execute. auto. }
    destruct changes; [|exact H].
    eapply hoare_weaken; [apply hoare_ret | intros; exact I].
  Qed.

Lemma hoare_first_sync_status L :
    (forall o, In o (first_status_writes L) -> P o) ->
    hoare P (fun c => c = if dict_in "status" (updated_fields L)
                          then [("status", old_status L, new_status L)] else [])
          (First.sync_issues_by_status w L).
  Proof.
    unfold first_status_writes, First.sync_issues_by_status. intros HP.
    destruct (dict_in "status" (updated_fields L)); run_block HP.
  Qed.

Lemma hoare_first_sync_priority L :
    (forall o, In o (first_priority_writes L) -> P o) ->
    hoare P (fun c => c = if dict_in "priority" (updated_fields L)
                          then [("priority", old_priority L, new_priority L)] else [])
          (First.sync_issues_by_priority w L).
  Proof.
    unfold first_priority_writes, First.sync_issues_by_priority. intros HP.
    destruct (dict_in "priority" (updated_fields L)); run_block HP.
  Qed.

Lemma hoare_first_sync_assignee L :
    (forall o, In o (assignee_writes (dict_in "assignee_id" (updated_fields L)
                                      || dict_in "status" (updated_fields L)) L) ->
               P o) ->
    hoare P (fun c => c = if dict_in "assignee_id" (updated_fields L)
                          then [("assignee_id", str_or_None rt (old_assignee_id L),
                                                str_or_None rt (new_assignee_id L))]
                          else [])
          (First.sync_issues_by_assignee rt w L).
  Proof.
    unfold assignee_writes, First.sync_issues_by_assignee. intros HP.
    destruct (dict_in "assignee_id" (updated_fields L)),
             (dict_in "status" (updated_fields L)); simpl in *; run_block HP.
  Qed.

Lemma hoare_first_sync_component L :
    (forall o, In o (component_writes L) -> P o) ->
    hoare P (fun c => c = if dict_in "component" (updated_fields L)
                          then [("component", old_component L, new_component L)]
                          else [])
          (First.sync_issues_by_component w L).
  Proof.
    unfold component_writes, First.sync_issues_by_component. intros HP.
    destruct (dict_in "component" (updated_fields L)); run_block HP.
  Qed.

Lemma hoare_second_sync_status L :
    (forall o, In o (second_status_writes L) -> P o) ->
    hoare P anything (Second.sync_issues_by_status w L).
  Proof.
    unfold second_status_writes, Second.sync_issues_by_status. intros HP.
    destruct (Second.status_changed L); run_block HP.
  Qed.

Lemma hoare_second_sync_priority L :
    (forall o, In o (second_priority_writes L) -> P o) ->
    hoare P anything (Second.sync_issues_by_priority w L).
  Proof.
    unfold second_priority_writes, Second.sync_issues_by_priority. intros HP.
    destruct (Second.priority_changed L); run_block HP.
  Qed.

Lemma hoare_second_sync_assignee L :
    (forall o, In o (assignee_writes (dict_in "assignee_id" (updated_fields L)
                                      || Second.status_changed L) L) -> P o) ->
    hoare P anything (Second.sync_issues_by_assignee w L).
  Proof.
    unfold assignee_writes, Second.sync_issues_by_assignee. intros HP.
    destruct (dict_in "assignee_id" (updated_fields L) || Second.status_changed L);
      run_block HP.
  Qed.

Lemma hoare_second_sync_component L :
    (forall o, In o (component_writes L) -> P o) ->
    hoare P anything (Second.sync_issues_by_component w L).
  Proof.
    unfold component_writes, Second.sync_issues_by_component. intros HP.
    destruct (dict_in "component" (updated_fields L)); run_block HP.
  Qed.

  (** Whatever the storage does, the writes of an update are among those
      of the uninterrupted run. *)
Lemma hoare_update_writes reg L :
    (forall o, may_write reg rt L o -> P o) ->
    hoare P (fun r => response rt L = Some r)
          match reg with
          | first_registration => First.update_writes rt w L
          | second_registration => Second.update_writes rt w L
          end.
  Proof.
    intros HP.
    assert (Hmain : P (update_main_query L)).
    { apply HP. left. now left. }
    assert (Hview : forall o, In o (view_writes reg L) -> P o).
    { intros o Ho. apply HP. left. now right. }
    assert (Hhist : forall event_id c, In c (changes_of reg rt L) ->
              P (history_query rt event_id c (project_uuid L) (issue_uuid L)
                               (updated_at L) (reporter_id L))).
    { intros ev c Hc. apply HP. right. eauto. }
    destruct reg; simpl in Hview, Hhist.
    - unfold First.update_writes.
      eapply hoare_bind; [apply hoare_execute, Hmain|intros _ _].
      eapply hoare_bind; [apply hoare_first_sync_status|intros c1 ->].
      { intros o Ho. apply Hview. apply in_or_app. auto. }
      eapply hoare_bind; [apply hoare_first_sync_priority|intros c2 ->].
      { intros o Ho. apply Hview. apply in_or_app. right. apply in_or_app. auto. }
      eapply hoare_bind; [apply hoare_first_sync_assignee|intros c3 ->].
      { intros o Ho. apply Hview. do 2 (apply in_or_app; right). apply in_or_app. auto. }
      eapply hoare_bind; [apply hoare_first_sync_component|intros c4 ->].
      { intros o Ho. apply Hview. do 3 (apply in_or_app; right). exact Ho. }
      eapply hoare_bind; [apply hoare_write_history; exact Hhist|intros _ _].
      apply hoare_construct.
    - unfold Second.update_writes.
      eapply hoare_bind; [apply hoare_execute, Hmain|intros _ _].
      eapply hoare_bind; [apply hoare_second_sync_status|intros _ _].
      { intros o Ho. apply Hview. apply in_or_app. auto. }
      eapply hoare_bind; [apply hoare_second_sync_priority|intros _ _].
      { intros o Ho. apply Hview. apply in_or_app. right. apply in_or_app. auto. }
      eapply hoare_bind; [apply hoare_second_sync_assignee|intros _ _].
      { intros o Ho. apply Hview. do 2 (apply in_or_app; right). apply in_or_app. auto. }
      eapply hoare_bind; [apply hoare_second_sync_component|intros _ _].
      { intros o Ho. apply Hview. do 3 (apply in_or_app; right). exact Ho. }
      eapply hoare_bind; [apply hoare_write_history; exact Hhist|intros _ _].
      apply hoare_construct.
  Qed.

End HoareUpdate.

Lemma update_issue_body_within reg rt w issue_id project_id u :
  hoare (written_by reg rt w issue_id project_id u)
        (returned_by reg rt w issue_id project_id u)
        (update_issue_body reg rt w issue_id project_id u).
Proof.
  set (P := written_by reg rt w issue_id project_id u).
  set (Q := returned_by reg rt w issue_id project_id u).
  assert (Hstep : forall p i cur c,
            UUID rt project_id = Some p -> UUID rt issue_id = Some i ->
            current_issue_of reg w p i = Some cur ->
            current_component_of reg w p i cur = Some c ->
            dict_empty (dict_exclude_unset u) = false ->
            hoare P Q
              match reg with
              | first_registration =>
                  First.update_writes rt w
                    (locals_of reg p i cur c (dict_exclude_unset u) (w_now w))
              | second_registration =>
                  Second.update_writes rt w
                    (locals_of reg p i cur c (dict_exclude_unset u) (w_now w))
              end).
  { intros p i cur c Hp Hi Hcur Hc Hne.
    eapply hoare_weaken;
      [apply hoare_update_writes | intros r Hr; exists p, i, cur, c; auto].
    intros o Ho. exists p, i, cur, c. repeat split; auto.
    intros E. rewrite E in Hne. discriminate. }
  destruct reg; simpl in *.
  - unfold First.update_issue_body.
    eapply hoare_bind; [apply hoare_parse_uuid|intros p Hp].
    eapply hoare_bind; [apply hoare_parse_uuid|intros i Hi].
    eapply hoare_bind; [apply hoare_select|intros result ->].
    destruct (First.find_issue p i (First.rows_of_project w p)) as [cur|] eqn:Hcur;
      [|apply hoare_raise].
    destruct (dict_empty (dict_exclude_unset u)) eqn:Hne; [apply hoare_raise|].
    unfold First.getitem_component.
    destruct (ProjectRow.component cur) as [c|] eqn:Hc.
    + eapply hoare_bind; [apply hoare_ret|intros c' ->].
      eapply hoare_bind; [apply hoare_ret|intros t ->].
      now apply (Hstep p i cur c).
    + eapply hoare_bind; [apply (hoare_raise _ (fun _ => False))|intros c' []].
  - unfold Second.update_issue_body.
    eapply hoare_bind; [apply hoare_parse_uuid|intros p Hp].
    eapply hoare_bind; [apply hoare_parse_uuid|intros i Hi].
    eapply hoare_bind; [apply hoare_select|intros result ->].
    destruct (Second.one (Second.get_query w p i)) as [cur|] eqn:Hcur;
      [|apply hoare_raise].
    eapply hoare_bind; [apply hoare_select|intros result ->].
    destruct (dict_empty (dict_exclude_unset u)) eqn:Hne; [apply hoare_raise|].
    eapply hoare_bind; [apply hoare_ret|intros t ->].
    now apply (Hstep p i cur _).
Qed.

(** Every statement in the log of [update_issue], whatever the outcome. *)
Lemma update_issue_within reg rt w issue_id project_id u :
  Forall (written_by reg rt w issue_id project_id u)
         (log (fst (run w (update_issue reg rt w issue_id project_id u)))).
Proof.
  rewrite update_issue_is_try.
  apply hoare_run with (Q := returned_by reg rt w issue_id project_id u).
  apply hoare_try_except.
  - apply update_issue_body_within.
  - intros e. apply hoare_raise.
Qed.

(** A response [update_issue] returns, whatever the storage did. *)
Lemma update_issue_returns reg rt w issue_id project_id u resp :
  snd (run w (update_issue reg rt w issue_id project_id u)) = Ok resp ->
  returned_by reg rt w issue_id project_id u resp.
Proof.
  rewrite update_issue_is_try. unfold run, try_except.
  destruct (update_issue_body reg rt w issue_id project_id u (init w))
    as [st [a|e]] eqn:E; simpl; [|discriminate].
  intros [= <-].
  exact (proj2 (update_issue_body_within reg rt w issue_id project_id u
                  _ _ _ E (Forall_nil _)) a eq_refl).
Qed.

(** ** Finding the canonical row *)

Lemma lookup_eq (rows : list ProjectRow.t) (p i : uuid) :
  find (fun row => N.eqb (ProjectRow.issue_id row) i)
       (filter (fun row => N.eqb (ProjectRow.project_id row) p) rows)
  = hd_error (firstn 1
      (filter (fun row => N.eqb (ProjectRow.project_id row) p
                          && N.eqb (ProjectRow.issue_id row) i) rows)).
Proof.
  induction rows as [|r rows IH]; simpl; [reflexivity|].
  destruct (N.eqb (ProjectRow.project_id r) p); simpl; [|exact IH].
  destruct (N.eqb (ProjectRow.issue_id r) i); simpl; [reflexivity|exact IH].
Qed.

(** Both handlers find the same canonical row. *)
Lemma current_issue_same reg w p i :
  current_issue_of reg w p i = current_issue_of second_registration w p i.
Proof. destruct reg; [apply lookup_eq|reflexivity]. Qed.

Lemma current_issue_found reg w p i cur :
  current_issue_of reg w p i = Some cur ->
  In cur (w_issues_by_project w)
  /\ ProjectRow.project_id cur = p /\ ProjectRow.issue_id cur = i.
Proof.
  rewrite current_issue_same. simpl. unfold Second.one, Second.get_query.
  induction (w_issues_by_project w) as [|r rows IH]; simpl; [discriminate|].
  destruct (N.eqb (ProjectRow.project_id r) p) eqn:Ep; simpl.
  - destruct (N.eqb (ProjectRow.issue_id r) i) eqn:Ei; simpl.
    + intros [= <-]. apply N.eqb_eq in Ep, Ei. auto.
    + intros H. destruct (IH H) as (? & ? & ?). auto.
  - intros H. destruct (IH H) as (? & ? & ?). auto.
Qed.

Lemma current_issue_missing reg w p i :
  (forall row, In row (w_issues_by_project w) ->
               ~ (ProjectRow.project_id row = p /\ ProjectRow.issue_id row = i)) ->
  current_issue_of reg w p i = None.
Proof.
  rewrite current_issue_same. simpl. unfold Second.one, Second.get_query.
  induction (w_issues_by_project w) as [|r rows IH]; simpl; intros H; [reflexivity|].
  destruct (N.eqb (ProjectRow.project_id r) p) eqn:Ep; simpl.
  - destruct (N.eqb (ProjectRow.issue_id r) i) eqn:Ei; simpl.
    + apply N.eqb_eq in Ep, Ei. exfalso. apply (H r); auto.
    + apply IH. intros row Hrow. apply H. auto.
  - apply IH. intros row Hrow. apply H. auto.
Qed.

(** ** The failures of an update *)

Lemma try_except_raise {A} (m : M A) h st st' e :
  m st = (st', Raise e) -> try_except m h st = h e st'.
Proof. intros H. unfold try_except. now rewrite H. Qed.

(** Whatever the body raises comes out of the handler as the same
    [HTTPException] with status 500, and the handler raises nothing else. *)
Lemma update_issue_outcome reg rt w issue_id project_id u :
  run w (update_issue reg rt w issue_id project_id u)
  = match run w (update_issue_body reg rt w issue_id project_id u) with
    | (st, Ok a) => (st, Ok a)
    | (st, Raise e) =>
        (st, Raise (HTTPException 500 ("Error updating issue: " ++ str_exn rt e)%string))
    end.
Proof.
  rewrite update_issue_is_try. unfold run, try_except.
  destruct (update_issue_body reg rt w issue_id project_id u (init w)) as [st [a|e]];
    reflexivity.
Qed.

Lemma select_answered {A} w (rows : list A) k n l :
  select w rows {| failing := Some (S k); next_uuid := n; log := l |}
  = ({| failing := Some k; next_uuid := n; log := l |}, Ok rows).
Proof. reflexivity. Qed.

(** No row for the identifiers: the body raises the 404 and has written
    nothing. *)
Lemma body_not_found reg rt w issue_id project_id u p i :
  UUID rt project_id = Some p ->
  UUID rt issue_id = Some i ->
  storage_answers w 1 ->
  current_issue_of reg w p i = None ->
  exists st,
    run w (update_issue_body reg rt w issue_id project_id u)
    = (st, Raise (HTTPException 404 "Issue not found"))
    /\ log st = [].
Proof.
  intros Hp Hi Hs Hcur. unfold run, init, storage_answers in *.
  destruct (w_fail w) as [[k msg]|]; simpl.
  - destruct k as [|k]; [lia|].
    destruct reg; simpl in *;
      [unfold First.update_issue_body | unfold Second.update_issue_body];
      (erewrite bind_ok by (apply parse_uuid_ok; eassumption));
      (erewrite bind_ok by (apply parse_uuid_ok; eassumption));
      (erewrite bind_ok by apply select_answered);
      rewrite Hcur; eexists; split; reflexivity.
  - destruct reg; simpl in *;
      [unfold First.update_issue_body | unfold Second.update_issue_body];
      (erewrite bind_ok by (apply parse_uuid_ok; eassumption));
      (erewrite bind_ok by (apply parse_uuid_ok; eassumption));
      (erewrite bind_ok by apply (select_quiet w));
      rewrite Hcur; eexists; split; reflexivity.
Qed.


(** An update with no field writes nothing, found or not, answered or
    not. *)
Lemma no_fields_no_writes reg rt w issue_id project_id u :
  dict_exclude_unset u = [] ->
  log (fst (run w (update_issue reg rt w issue_id project_id u))) = [].
Proof.
  intros Hu.
  pose proof (update_issue_within reg rt w issue_id project_id u) as H.
  destruct (log (fst (run w (update_issue reg rt w issue_id project_id u))))
    as [|o l]; [reflexivity|].
  inversion H as [|? ? (p & i & cur & c & _ & _ & _ & _ & Hne & _) _]; subst.
  contradiction.
Qed.

(** On a row as [issues_by_project] returns it, without the key
    [component], the first handler stops at line 544 with a [KeyError]
    before it writes anything. *)
Lemma first_update_without_component_key rt w issue_id project_id u p i cur :
  UUID rt project_id = Some p ->
  UUID rt issue_id = Some i ->
  storage_answers w 1 ->
  current_issue_of first_registration w p i = Some cur ->
  ProjectRow.component cur = None ->
  dict_exclude_unset u <> [] ->
  exists st,
    run w (First.update_issue rt w issue_id project_id u)
    = (st, Raise (HTTPException 500
                    ("Error updating issue: " ++ str_exn rt (KeyError "component"))%string))
    /\ log st = [].
Proof.
  intros Hp Hi Hs Hcur Hc Hne.
  apply dict_empty_false in Hne.
  change (First.update_issue rt w issue_id project_id u)
    with (update_issue first_registration rt w issue_id project_id u).
  rewrite update_issue_outcome.
  unfold run, init, storage_answers in *. simpl in *.
  unfold First.update_issue_body.
  erewrite bind_ok by (apply parse_uuid_ok; eassumption).
  erewrite bind_ok by (apply parse_uuid_ok; eassumption).
  destruct (w_fail w) as [[k msg]|]; simpl.
  - destruct k as [|k]; [lia|].
    erewrite bind_ok by apply select_answered.
    rewrite Hcur, Hne. unfold First.getitem_component. rewrite Hc.
    eexists; split; reflexivity.
  - erewrite bind_ok by apply (select_quiet w).
    rewrite Hcur, Hne. unfold First.getitem_component. rewrite Hc.
    eexists; split; reflexivity.
Qed.

(** C6, as the code has it.  An update that names a project and an issue
    for which [issues_by_project] holds no row writes no statement to any
    table, but it does not fail with NotFound: the body raises
    [HTTPException(404, "Issue not found")] inside the [try], the handler's
    [except Exception] catches it, and what the operation raises is
    [HTTPException(500, "Error updating issue: " + str(e))].
    It holds in both registrations, whatever the payload, as long as the
    identifiers parse and the storage answers the [SELECT]. *)
Theorem update_of_missing_issue_answers_500 reg rt w issue_id project_id u p i :
  UUID rt project_id = Some p ->
  UUID rt issue_id = Some i ->
  storage_answers w 1 ->
  (forall row, In row (w_issues_by_project w) ->
               ~ (ProjectRow.project_id row = p /\ ProjectRow.issue_id row = i)) ->
  snd (run w (update_issue_body reg rt w issue_id project_id u))
  = Raise (HTTPException 404 "Issue not found")
  /\ log (fst (run w (update_issue_body reg rt w issue_id project_id u))) = []
  /\ snd (run w (update_issue reg rt w issue_id project_id u))
     = Raise (HTTPException 500
                ("Error updating issue: "
                 ++ str_exn rt (HTTPException 404 "Issue not found"))%string)
  /\ log (fst (run w (update_issue reg rt w issue_id project_id u))) = [].
Proof.
  intros Hp Hi Hs Hrows.
  pose proof (current_issue_missing reg w p i Hrows) as Hcur.
  destruct (body_not_found reg rt w issue_id project_id u p i Hp Hi Hs Hcur)
    as (st & Hrun & Hlog).
  rewrite update_issue_outcome, Hrun. simpl. auto.
Qed.

Lemma update_of_missing_issue_answers_500_witness :
  snd (run empty_world
         (update_issue_body first_registration sample_rt empty_world "i-2" "p-1"
            (only_title (Some "boom"))))
  = Raise (HTTPException 404 "Issue not found")
  /\ log (fst (run empty_world
                 (update_issue_body first_registration sample_rt empty_world
                    "i-2" "p-1" (only_title (Some "boom"))))) = []
  /\ snd (run empty_world
            (update_issue first_registration sample_rt empty_world "i-2" "p-1"
               (only_title (Some "boom"))))
     = Raise (HTTPException 500
                ("Error updating issue: "
                 ++ str_exn sample_rt (HTTPException 404 "Issue not found"))%string)
  /\ log (fst (run empty_world
                 (update_issue first_registration sample_rt empty_world
                    "i-2" "p-1" (only_title (Some "boom"))))) = [].
Proof.
  apply (update_of_missing_issue_answers_500 first_registration sample_rt
           empty_world "i-2" "p-1" (only_title (Some "boom")) 1%N 2%N).
  - reflexivity.
  - reflexivity.
  - exact I.
  - intros row Hrow. destruct Hrow.
Defined.




(** C4.  Every failure of [update_issue] reaches the caller as an
    [HTTPException] with status 500: the [except Exception] clause catches
    what the body raised -- the 404 of NotFound and the 400 of NoOpUpdate as
    much as a storage error -- and raises it again under that one status. *)
Theorem update_failure_is_always_status_500 reg rt w issue_id project_id u st e :
  run w (update_issue reg rt w issue_id project_id u) = (st, Raise e) ->
  exists inner,
    snd (run w (update_issue_body reg rt w issue_id project_id u)) = Raise inner
    /\ e = HTTPException 500 ("Error updating issue: " ++ str_exn rt inner)%string.
Proof.
  rewrite update_issue_outcome.
  destruct (run w (update_issue_body reg rt w issue_id project_id u)) as [st' [a|inner]];
    intros H; inversion H; subst.
  exists inner. auto.
Qed.

Lemma update_failure_is_always_status_500_witness :
  exists inner,
    snd (run empty_world
           (update_issue_body first_registration sample_rt empty_world
              "i-2" "p-1" (only_title (Some "boom")))) = Raise inner
    /\ HTTPException 500 "Error updating issue: Issue not found"
       = HTTPException 500 ("Error updating issue: " ++ str_exn sample_rt inner)%string.
Proof.
  exact (update_failure_is_always_status_500 first_registration sample_rt
           empty_world "i-2" "p-1" (only_title (Some "boom"))
           (quiet 0 [])
           (HTTPException 500 "Error updating issue: Issue not found")
           eq_refl).
Defined.

(** The three failures of section 7 side by side, on the sample issue: no
    row, no field, a storage that fails at the canonical [UPDATE].  The
    caller sees status 500 each time. *)
Example three_failures_one_status :
  snd (run empty_world
         (update_issue second_registration sample_rt empty_world "i-2" "p-1"
            (only_title (Some "boom"))))
  = Raise (HTTPException 500 "Error updating issue: Issue not found")
  /\ snd (run (sample_world None None)
            (update_issue second_registration sample_rt (sample_world None None)
               "i-2" "p-1" no_fields))
     = Raise (HTTPException 500 "Error updating issue: No fields to update")
  /\ snd (run (sample_world None (Some (2, "unavailable")))
            (update_issue second_registration sample_rt
               (sample_world None (Some (2, "unavailable")))
               "i-2" "p-1" (only_title (Some "boom"))))
     = Raise (HTTPException 500 "Error updating issue: unavailable").
Proof. repeat split; reflexivity. Qed.

(** ** The log of an uninterrupted update, table by table *)

Lemma on_table_app t l1 l2 :
  on_table t (l1 ++ l2) = on_table t l1 ++ on_table t l2.
Proof. apply filter_app. Qed.

Lemma history_query_table rt event_id c p i t by_ :
  op_table (history_query rt event_id c p i t by_) = issue_history.
Proof. destruct c as [[f o] v]. reflexivity. Qed.

Lemma on_table_history_writes tbl rt w n changes p i t by_ :
  on_table tbl (history_writes rt w n changes p i t by_)
  = if table_eqb issue_history tbl
    then history_writes rt w n changes p i t by_ else [].
Proof.
  revert n. induction changes as [|c cs IH]; intros n.
  - now destruct tbl.
  - unfold on_table in *. cbn [history_writes filter].
    rewrite history_query_table, IH. now destruct tbl.
Qed.

Ltac split_views :=
  unfold view_writes, first_status_writes, first_priority_writes,
    second_status_writes, second_priority_writes, assignee_writes,
    component_writes;
  repeat match goal with
         | |- context [if ?b then _ else _] => destruct b
         end;
  reflexivity.

Lemma canonical_of_view_writes reg L :
  on_table issues_by_project (view_writes reg L) = [].
Proof. destruct reg; split_views. Qed.

Lemma history_of_view_writes reg L :
  on_table issue_history (view_writes reg L) = [].
Proof. destruct reg; split_views. Qed.

Lemma status_of_view_writes reg L :
  on_table issues_by_status (view_writes reg L)
  = match reg with
    | first_registration => first_status_writes L
    | second_registration => second_status_writes L
    end.
Proof. destruct reg; split_views. Qed.

Lemma priority_of_view_writes reg L :
  on_table issues_by_priority (view_writes reg L)
  = match reg with
    | first_registration => first_priority_writes L
    | second_registration => second_priority_writes L
    end.
Proof. destruct reg; split_views. Qed.

Lemma assignee_of_view_writes reg L :
  on_table issues_by_assignee (view_writes reg L)
  = assignee_writes
      (dict_in "assignee_id" (updated_fields L)
       || match reg with
          | first_registration => dict_in "status" (updated_fields L)
          | second_registration => Second.status_changed L
          end) L.
Proof. destruct reg; split_views. Qed.


Lemma view_ops_of_view_writes reg L :
  view_ops (view_writes reg L) = view_writes reg L.
Proof. unfold view_ops. destruct reg; split_views. Qed.


Lemma canonical_of_update_log reg rt w L :
  on_table issues_by_project (update_log reg rt w L) = [update_main_query L].
Proof.
  unfold update_log. simpl. rewrite on_table_app, canonical_of_view_writes,
    on_table_history_writes. reflexivity.
Qed.

Lemma history_of_update_log reg rt w L :
  history_events (update_log reg rt w L)
  = history_writes rt w 0 (changes_of reg rt L)
      (project_uuid L) (issue_uuid L) (updated_at L) (reporter_id L).
Proof.
  unfold history_events, update_log. simpl.
  rewrite on_table_app, history_of_view_writes, on_table_history_writes.
  reflexivity.
Qed.


Lemma view_table_of_update_log reg rt w L tbl :
  is_view tbl = true ->
  on_table tbl (update_log reg rt w L) = on_table tbl (view_writes reg L).
Proof.
  intros Hv. unfold update_log. simpl.
  rewrite on_table_app, on_table_history_writes.
  destruct tbl; try discriminate; simpl; now rewrite app_nil_r.
Qed.

Lemma history_fields_of_writes rt w n changes p i t by_ :
  map (fun o => binding o "field_changed") (history_writes rt w n changes p i t by_)
  = map (fun c => PStr (fst (fst c))) changes.
Proof.
  revert n. induction changes as [|[[f o] v] cs IH]; intros n; simpl;
    [reflexivity|]. now rewrite IH.
Qed.

Lemma in_on_table t o l : In o l -> op_table o = t -> In o (on_table t l).
Proof.
  intros Hin Ht. apply filter_In. split; [assumption|].
  rewrite Ht. now destruct t.
Qed.

Lemma locals_key reg p i cur c d t :
  project_uuid (locals_of reg p i cur c d t) = p
  /\ issue_uuid (locals_of reg p i cur c d t) = i
  /\ created_at (locals_of reg p i cur c d t) = ProjectRow.created_at cur
  /\ reporter_id (locals_of reg p i cur c d t) = ProjectRow.reporter_id cur
  /\ updated_at (locals_of reg p i cur c d t) = t.
Proof. destruct reg; simpl; auto. Qed.


Lemma requested_get d cur c field :
  dict_get d field (row_value cur c field) = requested d cur c field.
Proof. reflexivity. Qed.

Lemma requested_in d cur c field :
  (if dict_in field d then dict_get d field (row_value cur c field)
   else row_value cur c field)
  = requested d cur c field.
Proof.
  unfold dict_in, dict_get, requested. now destruct (dict_find d field).
Qed.

(** The new values of both handlers are the merged state: the payload's
    value for a field it supplies, the row's otherwise. *)
Lemma locals_new reg p i cur c d t :
  new_title (locals_of reg p i cur c d t) = requested d cur c "title"
  /\ new_description (locals_of reg p i cur c d t) = requested d cur c "description"
  /\ new_status (locals_of reg p i cur c d t) = requested d cur c "status"
  /\ new_priority (locals_of reg p i cur c d t) = requested d cur c "priority"
  /\ new_assignee_id (locals_of reg p i cur c d t) = requested d cur c "assignee_id"
  /\ new_component (locals_of reg p i cur c d t) = requested d cur c "component".
Proof.
  destruct reg; simpl; unfold Second.enum_value, Second.isinstance_type;
    repeat split;
    first [ apply requested_get
          | apply (requested_in d cur c "status")
          | apply (requested_in d cur c "priority")
          | apply (requested_in d cur c "assignee_id")
          | apply (requested_in d cur c "component") ].
Qed.

(** Without the key [component] in the row, the first handler raises
    [KeyError] before it writes; the second always has a current
    component. *)
Lemma update_without_current_component reg rt w issue_id project_id u p i cur :
  UUID rt project_id = Some p ->
  UUID rt issue_id = Some i ->
  storage_answers w 1 ->
  current_issue_of reg w p i = Some cur ->
  current_component_of reg w p i cur = None ->
  dict_exclude_unset u <> [] ->
  reg = first_registration
  /\ ProjectRow.component cur = None
  /\ log (fst (run w (update_issue reg rt w issue_id project_id u))) = []
  /\ snd (run w (update_issue reg rt w issue_id project_id u))
     = Raise (HTTPException 500
                ("Error updating issue: " ++ str_exn rt (KeyError "component"))%string).
Proof.
  intros Hp Hi Hs Hcur Hc Hne.
  destruct reg; [|discriminate]. simpl in Hc.
  split; [reflexivity|]. split; [assumption|].
  apply dict_empty_false in Hne.
  rewrite update_issue_outcome.
  unfold run, init, storage_answers in *. simpl in *.
  unfold First.update_issue_body.
  erewrite bind_ok by (apply parse_uuid_ok; eassumption).
  erewrite bind_ok by (apply parse_uuid_ok; eassumption).
  destruct (w_fail w) as [[k msg]|]; simpl.
  - destruct k as [|k]; [lia|].
    erewrite bind_ok by apply select_answered.
    rewrite Hcur, Hne. unfold First.getitem_component. rewrite Hc.
    split; reflexivity.
  - erewrite bind_ok by apply (select_quiet w).
    rewrite Hcur, Hne. unfold First.getitem_component. rewrite Hc.
    split; reflexivity.
Qed.

Lemma storage_answers_quiet w n : w_fail w = None -> storage_answers w n.
Proof. intros H. unfold storage_answers. now rewrite H. Qed.

Lemma new_IssueResponse_fields rt issue_id project_id title description status
    priority assignee_id reporter_id component created_at updated_at r :
  new_IssueResponse rt issue_id project_id title description status priority
    assignee_id reporter_id component created_at updated_at = Some r ->
  IssueResponse.issue_id r = PUUID issue_id
  /\ IssueResponse.project_id r = PUUID project_id
  /\ validate_str title = Some (IssueResponse.title r)
  /\ validate_str description = Some (IssueResponse.description r)
  /\ validate_Status status = Some (IssueResponse.status r)
  /\ validate_Priority priority = Some (IssueResponse.priority r)
  /\ validate_Optional (validate_UUID rt) assignee_id
     = Some (IssueResponse.assignee_id r)
  /\ validate_UUID rt reporter_id = Some (IssueResponse.reporter_id r)
  /\ validate_Optional validate_str component = Some (IssueResponse.component r)
  /\ IssueResponse.created_at r = PDatetime created_at
  /\ IssueResponse.updated_at r = PDatetime updated_at.
Proof.
  unfold new_IssueResponse.
  destruct (validate_str title), (validate_str description),
    (validate_Status status), (validate_Priority priority),
    (validate_Optional (validate_UUID rt) assignee_id),
    (validate_UUID rt reporter_id), (validate_Optional validate_str component);
    try discriminate.
  intros [= <-]. simpl. auto 12.
Qed.

(** C7.  Whatever the payload and however the update ends, a statement it
    writes to [issues_by_project] is an [UPDATE] at the key
    [(project_id, created_at, issue_id)] of a row the table holds, and it
    sets neither [reporter_id] nor [created_at]: no [DELETE], no [INSERT].
    When nothing interrupts the update of an existing issue, that
    [UPDATE] is the one statement on the table, and it sets the six
    columns to the merged state; the first handler on a row without the
    key [component] writes nothing at all.  A response, when the update
    returns one, carries the [created_at] of the row and its
    [reporter_id] as pydantic reads it. *)
Theorem update_keeps_canonical_key_and_reporter reg rt w issue_id project_id u :
  Forall (fun o => op_table o = issues_by_project -> in_place_update w o)
         (log (fst (run w (update_issue reg rt w issue_id project_id u))))
  /\ (forall p i cur,
        w_fail w = None ->
        UUID rt project_id = Some p ->
        UUID rt issue_id = Some i ->
        current_issue_of reg w p i = Some cur ->
        dict_exclude_unset u <> [] ->
        match current_component_of reg w p i cur with
        | Some c =>
            on_table issues_by_project
              (log (fst (run w (update_issue reg rt w issue_id project_id u))))
            = [UPDATE issues_by_project
                 [("title", requested (dict_exclude_unset u) cur c "title");
                  ("description",
                   requested (dict_exclude_unset u) cur c "description");
                  ("status", requested (dict_exclude_unset u) cur c "status");
                  ("priority", requested (dict_exclude_unset u) cur c "priority");
                  ("assignee_id",
                   requested (dict_exclude_unset u) cur c "assignee_id");
                  ("updated_at", PDatetime (w_now w))]
                 [("project_id", PUUID p);
                  ("created_at", PDatetime (ProjectRow.created_at cur));
                  ("issue_id", PUUID i)]]
        | None =>
            log (fst (run w (update_issue reg rt w issue_id project_id u))) = []
        end)
  /\ (forall resp,
        snd (run w (update_issue reg rt w issue_id project_id u)) = Ok resp ->
        exists p i cur,
          UUID rt project_id = Some p
          /\ UUID rt issue_id = Some i
          /\ current_issue_of reg w p i = Some cur
          /\ IssueResponse.created_at resp = PDatetime (ProjectRow.created_at cur)
          /\ validate_UUID rt (ProjectRow.reporter_id cur)
             = Some (IssueResponse.reporter_id resp)).
Proof.
  split; [|split].
  - eapply Forall_impl; [|apply update_issue_within].
    intros o (p & i & cur & c & Hp & Hi & Hcur & Hc & Hne & Hw) Ht.
    destruct (current_issue_found reg w p i cur Hcur) as (Hin & Hpid & Hiid).
    set (L := locals_of reg p i cur c (dict_exclude_unset u) (w_now w)) in *.
    destruct (locals_key reg p i cur c (dict_exclude_unset u) (w_now w))
      as (Ep & Ei & Ec & _ & _). fold L in Ep, Ei, Ec.
    destruct Hw as [[<-|Hv]|(ev & ch & _ & ->)].
    + exists cur, [("title", new_title L); ("description", new_description L);
                   ("status", new_status L); ("priority", new_priority L);
                   ("assignee_id", new_assignee_id L);
                   ("updated_at", PDatetime (updated_at L))].
      unfold update_main_query. rewrite Ep, Ei, Ec, Hpid, Hiid. auto.
    + pose proof (in_on_table _ _ _ Hv Ht) as Hin'.
      rewrite canonical_of_view_writes in Hin'. destruct Hin'.
    + rewrite history_query_table in Ht. discriminate.
  - intros p i cur Hf Hp Hi Hcur Hne.
    destruct (current_component_of reg w p i cur) as [c|] eqn:Hc.
    + rewrite (update_issue_runs reg rt w issue_id project_id u p i cur c
                 Hf Hp Hi Hcur Hc Hne). simpl fst. simpl log.
      rewrite canonical_of_update_log.
      destruct (locals_key reg p i cur c (dict_exclude_unset u) (w_now w))
        as (Ep & Ei & Ec & Er & Et).
      destruct (locals_new reg p i cur c (dict_exclude_unset u) (w_now w))
        as (N1 & N2 & N3 & N4 & N5 & _).
      unfold update_main_query.
      now rewrite Ep, Ei, Ec, Et, N1, N2, N3, N4, N5.
    + exact (proj1 (proj2 (proj2
               (update_without_current_component reg rt w issue_id project_id u
                  p i cur Hp Hi (storage_answers_quiet w 1 Hf) Hcur Hc Hne)))).
  - intros resp Hr.
    destruct (update_issue_returns reg rt w issue_id project_id u resp Hr)
      as (p & i & cur & c & Hp & Hi & Hcur & Hc & Hresp).
    exists p, i, cur. unfold response in Hresp.
    apply new_IssueResponse_fields in Hresp.
    destruct Hresp as (_ & _ & _ & _ & _ & _ & _ & Hrep & _ & Hcreated & _).
    destruct (locals_key reg p i cur c (dict_exclude_unset u) (w_now w))
      as (_ & _ & Ec & Er & _).
    rewrite Ec in Hcreated. rewrite Er in Hrep. auto 10.
Qed.

(** A title set to [null] is written to the canonical row, and then
    [IssueResponse] refuses it: the update answers 500 after its writes. *)
Example title_null_is_written_and_refused :
  on_table issues_by_project
    (log (fst (run (sample_world None None)
                 (update_issue second_registration sample_rt
                    (sample_world None None) "i-2" "p-1" (only_title None)))))
  = [UPDATE issues_by_project
       [("title", PNone); ("description", PStr "it crashes");
        ("status", PStr "open"); ("priority", PStr "low");
        ("assignee_id", PNone); ("updated_at", PDatetime 200%Z)]
       [("project_id", PUUID 1%N); ("created_at", PDatetime 100%Z);
        ("issue_id", PUUID 2%N)]]
  /\ snd (run (sample_world None None)
            (update_issue second_registration sample_rt
               (sample_world None None) "i-2" "p-1" (only_title None)))
     = Raise (HTTPException 500 "Error updating issue: validation error").
Proof. split; reflexivity. Qed.

Lemma dict_in_find (d : dict) (k : string) v :
  dict_find d k = Some v -> dict_in k d = true /\ forall x, dict_get d k x = v.
Proof. intros H. unfold dict_in, dict_get. rewrite H. auto. Qed.

Lemma dict_find_nonempty (d : dict) (k : string) v :
  dict_find d k = Some v -> d <> [].
Proof. intros H ->. discriminate. Qed.

Lemma locals_assignee reg p i cur c d t v :
  dict_find d "assignee_id" = Some v ->
  dict_in "assignee_id" (updated_fields (locals_of reg p i cur c d t)) = true
  /\ old_assignee_id (locals_of reg p i cur c d t) = ProjectRow.assignee_id cur
  /\ new_assignee_id (locals_of reg p i cur c d t) = v.
Proof.
  intros H. destruct (dict_in_find d _ v H) as [Hin Hget].
  destruct reg; simpl; rewrite ?Hin, Hget; auto.
Qed.

Ltac split_ifs :=
  repeat match goal with
         | |- context [if ?b then _ else _] => destruct b
         end.

(** C8.  An update that sets [assignee_id] of an unassigned issue to [U1]
    and that nothing interrupts.  When the handler has a current
    component -- the second handler always, the first on a row that
    carries the key [component] -- it writes to [issues_by_assignee] one
    statement, the [INSERT] of the row keyed by the project and [U1], no
    [DELETE], and the history gets exactly one row for the field
    [assignee_id], with [old_value] [None] and [new_value] [str(U1)].
    On a row of [issues_by_project] as the table is declared, without
    that key, the first handler raises [KeyError] at line 544: it writes
    no row to [issues_by_assignee], no history, nothing, and answers
    500. *)
Theorem assigning_an_unassigned_issue reg rt w issue_id project_id u p i cur U1 :
  w_fail w = None ->
  UUID rt project_id = Some p ->
  UUID rt issue_id = Some i ->
  current_issue_of reg w p i = Some cur ->
  ProjectRow.assignee_id cur = PNone ->
  IssueUpdate.assignee_id u = Some (Some U1) ->
  let l := log (fst (run w (update_issue reg rt w issue_id project_id u))) in
  match current_component_of reg w p i cur with
  | Some c =>
      on_table issues_by_assignee l
      = [INSERT issues_by_assignee
           [("project_id", PUUID p); ("assignee_id", PUUID U1);
            ("status", requested (dict_exclude_unset u) cur c "status");
            ("created_at", PDatetime (ProjectRow.created_at cur));
            ("issue_id", PUUID i);
            ("title", requested (dict_exclude_unset u) cur c "title");
            ("priority", requested (dict_exclude_unset u) cur c "priority")]]
      /\ exists event,
           events_of_field "assignee_id" l = [event]
           /\ is_INSERT event = true
           /\ binding event "old_value" = PNone
           /\ binding event "new_value" = PStr (str_uuid rt U1)
  | None =>
      reg = first_registration
      /\ ProjectRow.component cur = None
      /\ l = []
      /\ snd (run w (update_issue reg rt w issue_id project_id u))
         = Raise (HTTPException 500
                    ("Error updating issue: "
                     ++ str_exn rt (KeyError "component"))%string)
  end.
Proof.
  intros Hf Hp Hi Hcur Hold Hset l.
  assert (Hfind : dict_find (dict_exclude_unset u) "assignee_id" = Some (PUUID U1)).
  { rewrite find_assignee_id, Hset. reflexivity. }
  pose proof (dict_find_nonempty _ _ _ Hfind) as Hne.
  destruct (current_component_of reg w p i cur) as [c|] eqn:Hc;
    [|exact (update_without_current_component reg rt w issue_id project_id u
               p i cur Hp Hi (storage_answers_quiet w 1 Hf) Hcur Hc Hne)].
  unfold l.
  rewrite (update_issue_runs reg rt w issue_id project_id u p i cur c
             Hf Hp Hi Hcur Hc Hne). simpl fst. simpl log.
  destruct (locals_assignee reg p i cur c (dict_exclude_unset u) (w_now w) _ Hfind)
    as (Hin & Ho & Hn). rewrite Hold in Ho.
  destruct (locals_key reg p i cur c (dict_exclude_unset u) (w_now w))
    as (Ep & Ei & Ec & _ & _).
  destruct (locals_new reg p i cur c (dict_exclude_unset u) (w_now w))
    as (N1 & _ & N3 & N4 & _ & _).
  set (L := locals_of reg p i cur c (dict_exclude_unset u) (w_now w)) in *.
  clearbody L. split.
  - rewrite view_table_of_update_log by reflexivity.
    rewrite assignee_of_view_writes, Hin. simpl orb.
    unfold assignee_writes, insert_new_assignee.
    rewrite Ho, Hn, Ep, Ei, Ec, N1, N3, N4.
    reflexivity.
  - unfold events_of_field. rewrite history_of_update_log.
    destruct reg; simpl changes_of; [unfold first_changes|unfold Second.changes];
      rewrite Hin, Ho, Hn; simpl; split_ifs; simpl;
      eexists; repeat split.
Qed.

Lemma assigning_an_unassigned_issue_witness :
  first_registration = first_registration
  /\ ProjectRow.component (sample_row None) = None
  /\ log (fst (run (sample_world None None)
                 (update_issue first_registration sample_rt (sample_world None None)
                    "i-2" "p-1" (only_assignee (Some 7%N)))))
     = []
  /\ snd (run (sample_world None None)
            (update_issue first_registration sample_rt (sample_world None None)
               "i-2" "p-1" (only_assignee (Some 7%N))))
     = Raise (HTTPException 500
                ("Error updating issue: "
                 ++ str_exn sample_rt (KeyError "component"))%string).
Proof.
  exact (assigning_an_unassigned_issue first_registration sample_rt
           (sample_world None None) "i-2" "p-1" (only_assignee (Some 7%N))
           1%N 2%N (sample_row None) 7%N
           eq_refl eq_refl eq_refl eq_refl eq_refl eq_refl).
Defined.

(** The same request in the second handler, on the same row: the one
    [INSERT] and the one history row. *)
Example second_registration_assigns :
  on_table issues_by_assignee
    (log (fst (run (sample_world None None)
                 (update_issue second_registration sample_rt (sample_world None None)
                    "i-2" "p-1" (only_assignee (Some 7%N))))))
  = [INSERT issues_by_assignee
       [("project_id", PUUID 1%N); ("assignee_id", PUUID 7%N);
        ("status", PStr "open"); ("created_at", PDatetime 100%Z);
        ("issue_id", PUUID 2%N); ("title", PStr "crash");
        ("priority", PStr "low")]]
  /\ map (fun event => (binding event "field_changed", binding event "old_value",
                        binding event "new_value"))
         (history_events
            (log (fst (run (sample_world None None)
                         (update_issue second_registration sample_rt
                            (sample_world None None) "i-2" "p-1"
                            (only_assignee (Some 7%N)))))))
     = [(PStr "assignee_id", PNone, PStr "u-7")].
Proof. split; reflexivity. Qed.

(** ** Creation *)

Lemma new_IssueResponse_create rt issue_id t issue :
  new_IssueResponse rt issue_id (IssueCreate.project_id issue)
    (PStr (IssueCreate.title issue)) (PStr (IssueCreate.description issue))
    (PStr (Status_value (IssueCreate.status issue)))
    (PStr (Priority_value (IssueCreate.priority issue)))
    (of_uuid (IssueCreate.assignee_id issue))
    (PUUID (IssueCreate.reporter_id issue))
    (of_text (IssueCreate.component issue)) t t
  = Some {| IssueResponse.issue_id := PUUID issue_id;
            IssueResponse.project_id := PUUID (IssueCreate.project_id issue);
            IssueResponse.title := PStr (IssueCreate.title issue);
            IssueResponse.description := PStr (IssueCreate.description issue);
            IssueResponse.status := PStatus (IssueCreate.status issue);
            IssueResponse.priority := PPriority (IssueCreate.priority issue);
            IssueResponse.assignee_id := of_uuid (IssueCreate.assignee_id issue);
            IssueResponse.reporter_id := PUUID (IssueCreate.reporter_id issue);
            IssueResponse.component := of_text (IssueCreate.component issue);
            IssueResponse.created_at := PDatetime t;
            IssueResponse.updated_at := PDatetime t |}.
Proof.
  destruct issue as [pid title desc st pr assignee reporter component]. simpl.
  destruct st, pr, assignee, component; reflexivity.
Qed.

(** What a creation writes and returns when nothing interrupts it:
    pydantic accepts whatever [IssueCreate] has accepted. *)
Lemma create_issue_from_quiet rt w issue :
  log (fst (create_issue rt w issue (quiet 0 []))) = create_writes w issue
  /\ snd (create_issue rt w issue (quiet 0 [])) = Ok (create_response w issue).
Proof.
  assert (H : create_issue rt w issue (quiet 0 [])
              = (quiet 1 (create_writes w issue), Ok (create_response w issue))).
  { unfold create_issue.
    unfold bind at 1. simpl. unfold bind at 1. simpl.
    apply try_except_ok.
    erewrite bind_ok by apply execute_quiet.
    erewrite bind_ok by apply execute_quiet.
    erewrite bind_ok by apply (when_quiet w).
    erewrite bind_ok by apply execute_quiet.
    erewrite bind_ok by apply (when_quiet w).
    unfold construct. rewrite new_IssueResponse_create.
    unfold create_writes, issue_rows, create_response. simpl.
    rewrite <- !app_assoc. reflexivity. }
  rewrite H. split; reflexivity.
Qed.

(** C9.  A creation that nothing interrupts writes one row to
    [issues_by_assignee] when the issue has an assignee and none
    otherwise, one row to [issues_by_component] when it has a component
    -- one that is not empty, the inclusion predicate of section 4.1 --
    and none otherwise; every statement is an [INSERT]; with neither
    assignee nor component the rows go to [issues_by_project],
    [issues_by_status] and [issues_by_priority] only; and no row goes to
    [issue_history]. *)
Theorem create_issue_writes rt w issue :
  w_fail w = None ->
  let l := log (fst (run w (create_issue rt w issue))) in
  List.length (on_table issues_by_assignee l) = (if has_assignee issue then 1 else 0)
  /\ List.length (on_table issues_by_component l)
     = (if has_component issue then 1 else 0)
  /\ Forall (fun o => is_INSERT o = true) l
  /\ (IssueCreate.assignee_id issue = None ->
      IssueCreate.component issue = None ->
      map op_table l = [issues_by_project; issues_by_status; issues_by_priority])
  /\ history_events l = [].
Proof.
  intros Hf l. unfold l, run. rewrite (init_quiet w Hf).
  rewrite (proj1 (create_issue_from_quiet rt w issue)).
  unfold create_writes, issue_rows, has_assignee, has_component.
  destruct issue as [pid title desc st pr assignee reporter component]. simpl.
  destruct assignee as [a|], component as [s|]; simpl;
    try destruct (String.eqb s ""); simpl;
    repeat split; repeat constructor; try discriminate; reflexivity.
Qed.

Lemma create_issue_writes_witness :
  List.length (on_table issues_by_assignee
                 (log (fst (run empty_world
                              (create_issue sample_rt empty_world sample_create)))))
  = 0
  /\ List.length (on_table issues_by_component
                    (log (fst (run empty_world
                                 (create_issue sample_rt empty_world sample_create)))))
     = 0
  /\ Forall (fun o => is_INSERT o = true)
            (log (fst (run empty_world
                         (create_issue sample_rt empty_world sample_create))))
  /\ (IssueCreate.assignee_id sample_create = None ->
      IssueCreate.component sample_create = None ->
      map op_table (log (fst (run empty_world
                                (create_issue sample_rt empty_world sample_create))))
      = [issues_by_project; issues_by_status; issues_by_priority])
  /\ history_events (log (fst (run empty_world
                                 (create_issue sample_rt empty_world sample_create))))
     = [].
Proof.
  exact (create_issue_writes sample_rt empty_world sample_create eq_refl).
Defined.

(** Interrupted or not, a creation writes nothing to [issue_history]. *)
Lemma create_issue_never_writes_history rt w issue :
  Forall (fun o => op_table o <> issue_history)
         (log (fst (run w (create_issue rt w issue)))).
Proof.
  apply hoare_run with (Q := anything).
  unfold create_issue.
  eapply hoare_bind; [apply hoare_generate_uuid|intros issue_id _].
  eapply hoare_bind; [apply hoare_ret|intros t ->].
  apply hoare_try_except; [|intros e; apply hoare_raise].
  repeat first
    [ eapply hoare_weaken; [apply hoare_construct | intros; exact I]
    | eapply hoare_weaken; [apply hoare_ret | intros; exact I]
    | eapply hoare_bind;
      [ first [ apply hoare_execute; discriminate
              | apply hoare_if; intros _;
                [ apply hoare_execute; discriminate
                | eapply hoare_weaken; [apply hoare_ret | intros; exact I] ] ]
      | intros ? _ ] ].
Qed.

(** ** The history of an update *)

Lemma no_events_on_table t (l : list op) :
  Forall (fun o => op_table o <> t) l -> on_table t l = [].
Proof.
  induction 1 as [|o l Ho _ IH]; [reflexivity|].
  unfold on_table in *. simpl. rewrite IH.
  destruct (op_table o), t; try reflexivity; congruence.
Qed.

Lemma in_view_writes_table reg L o :
  In o (view_writes reg L) -> is_view (op_table o) = true.
Proof.
  intros H. rewrite <- view_ops_of_view_writes in H.
  unfold view_ops in H. apply filter_In in H. tauto.
Qed.

(** What the first handler appends to [changes]: the fields among status,
    priority, assignee_id and component that the payload supplies. *)
Lemma first_changes_fields rt L :
  map (fun c => fst (fst c)) (first_changes rt L)
  = supplied_among ["status"; "priority"; "assignee_id"; "component"]
                   (updated_fields L).
Proof.
  unfold first_changes, supplied_among. simpl.
  destruct (dict_in "status" (updated_fields L)),
           (dict_in "priority" (updated_fields L)),
           (dict_in "assignee_id" (updated_fields L)),
           (dict_in "component" (updated_fields L)); reflexivity.
Qed.

Lemma merged_unsupplied (d : dict) (k : string) (old : pyval) :
  dict_in k d = false -> dict_get d k old = old.
Proof. unfold dict_in, dict_get. destruct (dict_find d k); [discriminate|reflexivity]. Qed.

(** In the second handler a field outside the payload keeps its value, so
    "supplied and different" is "different". *)
Lemma supplied_and_differs (d : dict) (k : string) (old : pyval) :
  dict_in k d && py_ne old (dict_get d k old) = py_ne old (dict_get d k old).
Proof.
  destruct (dict_in k d) eqn:E; [reflexivity|].
  rewrite (merged_unsupplied d k old E). now rewrite py_ne_refl.
Qed.

Lemma second_status_changed p i cur c d t :
  Second.status_changed (Second.locals p i cur c d t)
  = py_ne (old_status (Second.locals p i cur c d t))
          (new_status (Second.locals p i cur c d t)).
Proof.
  unfold Second.status_changed. simpl. unfold Second.enum_value. simpl.
  destruct (dict_in "status" d) eqn:E; [reflexivity|].
  now rewrite py_ne_refl.
Qed.

Lemma second_priority_changed p i cur c d t :
  Second.priority_changed (Second.locals p i cur c d t)
  = py_ne (old_priority (Second.locals p i cur c d t))
          (new_priority (Second.locals p i cur c d t)).
Proof.
  unfold Second.priority_changed. simpl. unfold Second.enum_value. simpl.
  destruct (dict_in "priority" d) eqn:E; [reflexivity|].
  now rewrite py_ne_refl.
Qed.

(** What the second handler collects in [changes]: the tracked fields whose
    rendered value differs between the old state and the merged one. *)
Lemma second_changes_fields rt p i cur c d t :
  map (fun ch => fst (fst ch)) (Second.changes rt (Second.locals p i cur c d t))
  = changed_fields rt (Second.locals p i cur c d t).
Proof.
  unfold Second.changes, changed_fields, differs, tracked_fields.
  cbn [filter old_of new_of rendered String.eqb Ascii.eqb Bool.eqb
       Second.locals updated_fields old_title old_description old_status
       old_priority old_assignee_id old_component new_title new_description
       new_status new_priority new_assignee_id new_component].
  unfold Second.enum_value. cbn [Second.isinstance_type].
  rewrite !supplied_and_differs.
  destruct (dict_in "status" d) eqn:Es, (dict_in "priority" d) eqn:Ep,
           (dict_in "assignee_id" d) eqn:Ea, (dict_in "component" d) eqn:Ec;
    cbn [andb]; rewrite ?py_ne_refl;
    repeat match goal with
           | |- context [py_ne ?a ?b] => destruct (py_ne a b)
           end;
    reflexivity.
Qed.

Lemma history_query_field rt event_id c p i t by_ :
  binding (history_query rt event_id c p i t by_) "field_changed"
  = PStr (fst (fst c)).
Proof. destruct c as [[f o] v]. reflexivity. Qed.

(** Interrupted or not, a history row of the first handler names one of
    status, priority, assignee_id and component, and one that the payload
    supplies: never title, never description. *)
Lemma first_history_only_for_supplied rt w issue_id project_id u :
  Forall (fun o =>
            op_table o = issue_history ->
            exists field,
              In field (supplied_among
                          ["status"; "priority"; "assignee_id"; "component"]
                          (dict_exclude_unset u))
              /\ binding o "field_changed" = PStr field)
         (log (fst (run w (update_issue first_registration rt w
                             issue_id project_id u)))).
Proof.
  eapply Forall_impl; [|apply update_issue_within].
  intros o (p & i & cur & c & _ & _ & _ & _ & _ & Hw) Ht.
  destruct Hw as [[<-|Hv]|(ev & ch & Hch & ->)].
  - discriminate.
  - apply in_view_writes_table in Hv. rewrite Ht in Hv. discriminate.
  - exists (fst (fst ch)). split; [|apply history_query_field].
    change (dict_exclude_unset u)
      with (updated_fields (locals_of first_registration p i cur c
                              (dict_exclude_unset u) (w_now w))).
    rewrite <- (first_changes_fields rt).
    apply (in_map (fun c => fst (fst c))). exact Hch.
Qed.

(** C1, where the code departs from it.  However it ends, an update
    through the first registration that supplies only a title writes no
    history row, whether or not the title differs from the current one. *)
Theorem first_registration_title_change_leaves_no_history rt w issue_id project_id t :
  history_events
    (log (fst (run w (update_issue first_registration rt w issue_id project_id
                        (only_title t)))))
  = [].
Proof.
  apply no_events_on_table.
  eapply Forall_impl; [|apply first_history_only_for_supplied].
  intros o H Ht. destruct (H Ht) as (field & Hin & _).
  destruct t; exact Hin.
Qed.

(** The title-only update of the sample issue, carried out by both
    registrations on a row that carries the key [component]: the title
    changes, the first writes no history, the second one row. *)
Example title_change_in_both_registrations :
  option_map IssueResponse.title
    (returned (run (sample_world (Some PNone) None)
                 (update_issue first_registration sample_rt
                    (sample_world (Some PNone) None) "i-2" "p-1"
                    (only_title (Some "crash on start")))))
  = Some (PStr "crash on start")
  /\ history_fields
       (log (fst (run (sample_world (Some PNone) None)
                    (update_issue first_registration sample_rt
                       (sample_world (Some PNone) None) "i-2" "p-1"
                       (only_title (Some "crash on start"))))))
     = []
  /\ history_fields
       (log (fst (run (sample_world (Some PNone) None)
                    (update_issue second_registration sample_rt
                       (sample_world (Some PNone) None) "i-2" "p-1"
                       (only_title (Some "crash on start"))))))
     = [PStr "title"].
Proof. repeat split; reflexivity. Qed.

(** An update through the second registration that nothing interrupts
    writes one history row per tracked field whose rendered value differs
    between the old state and the merged new state, and no other. *)
Lemma second_history_fields rt w issue_id project_id u p i cur c :
  w_fail w = None ->
  UUID rt project_id = Some p ->
  UUID rt issue_id = Some i ->
  current_issue_of second_registration w p i = Some cur ->
  current_component_of second_registration w p i cur = Some c ->
  dict_exclude_unset u <> [] ->
  let L := locals_of second_registration p i cur c (dict_exclude_unset u) (w_now w) in
  let l := log (fst (run w (update_issue second_registration rt w
                              issue_id project_id u))) in
  history_fields l = map PStr (changed_fields rt L)
  /\ List.length (history_events l) = List.length (changed_fields rt L).
Proof.
  intros Hf Hp Hi Hcur Hc Hne L l.
  assert (H : history_fields l = map PStr (changed_fields rt L)).
  { unfold l.
    rewrite (update_issue_runs second_registration rt w issue_id project_id u
               p i cur c Hf Hp Hi Hcur Hc Hne). fold L. simpl fst. simpl log.
    unfold history_fields. rewrite history_of_update_log, history_fields_of_writes.
    unfold L. simpl locals_of. simpl changes_of.
    rewrite <- second_changes_fields. now rewrite map_map. }
  split; [exact H|].
  apply (f_equal (@List.length pyval)) in H.
  unfold history_fields in H. now rewrite !length_map in H.
Qed.

(** C2, where the code departs from it.  An update through the first
    registration that supplies a status and that nothing interrupts
    deletes the row of [issues_by_status] and inserts it again, whether
    or not the status it supplies is the current one; there is no
    [UPDATE] in place. *)
Theorem first_registration_recreates_status_row
    rt w issue_id project_id u p i cur c s :
  w_fail w = None ->
  UUID rt project_id = Some p ->
  UUID rt issue_id = Some i ->
  current_issue_of first_registration w p i = Some cur ->
  ProjectRow.component cur = Some c ->
  IssueUpdate.status u = Some s ->
  let L := locals_of first_registration p i cur c (dict_exclude_unset u) (w_now w) in
  on_table issues_by_status
    (log (fst (run w (update_issue first_registration rt w issue_id project_id u))))
  = [delete_old_status L; insert_new_status L].
Proof.
  intros Hf Hp Hi Hcur Hc Hs L.
  assert (Hfind : dict_find (dict_exclude_unset u) "status" = Some (of_status s)).
  { rewrite find_status, Hs. destruct s; reflexivity. }
  pose proof (dict_find_nonempty _ _ _ Hfind) as Hne.
  rewrite (update_issue_runs first_registration rt w issue_id project_id u
             p i cur c Hf Hp Hi Hcur Hc Hne). fold L. simpl fst. simpl log.
  rewrite view_table_of_update_log by reflexivity.
  rewrite status_of_view_writes. unfold first_status_writes.
  destruct (dict_in_find _ _ _ Hfind) as [Hin _].
  unfold L at 1. simpl updated_fields. now rewrite Hin.
Qed.

Lemma first_registration_recreates_status_row_witness :
  on_table issues_by_status
    (log (fst (run (sample_world (Some PNone) None)
                 (update_issue first_registration sample_rt
                    (sample_world (Some PNone) None) "i-2" "p-1"
                    (only_status (Some OPEN))))))
  = [DELETE issues_by_status
       [("project_id", PUUID 1%N); ("status", PStr "open");
        ("created_at", PDatetime 100%Z); ("issue_id", PUUID 2%N)];
     INSERT issues_by_status
       [("project_id", PUUID 1%N); ("status", PStatus OPEN);
        ("created_at", PDatetime 100%Z); ("issue_id", PUUID 2%N);
        ("title", PStr "crash"); ("priority", PStr "low");
        ("assignee_id", PNone)]].
Proof.
  exact (first_registration_recreates_status_row sample_rt
           (sample_world (Some PNone) None) "i-2" "p-1" (only_status (Some OPEN))
           1%N 2%N (sample_row (Some PNone)) PNone (Some OPEN)
           eq_refl eq_refl eq_refl eq_refl eq_refl eq_refl).
Defined.

(** In the second registration the rows of [issues_by_status] and
    [issues_by_priority] move exactly when their key changes: a [DELETE]
    at the old status (priority) and an [INSERT] at the new one when it
    differs, one [UPDATE] of the carried columns at the unchanged key when
    it does not. *)
Lemma second_registration_moves_rows_on_key_change
    rt w issue_id project_id u p i cur c :
  w_fail w = None ->
  UUID rt project_id = Some p ->
  UUID rt issue_id = Some i ->
  current_issue_of second_registration w p i = Some cur ->
  current_component_of second_registration w p i cur = Some c ->
  dict_exclude_unset u <> [] ->
  let L := locals_of second_registration p i cur c (dict_exclude_unset u) (w_now w) in
  let l := log (fst (run w (update_issue second_registration rt w
                              issue_id project_id u))) in
  on_table issues_by_status l
  = (if py_eq (old_status L) (new_status L)
     then [update_status L (new_status L)]
     else [delete_old_status L; insert_new_status L])
  /\ on_table issues_by_priority l
     = (if py_eq (old_priority L) (new_priority L)
        then [update_priority L (new_priority L)]
        else [delete_old_priority L; insert_new_priority L]).
Proof.
  intros Hf Hp Hi Hcur Hc Hne L l. unfold l.
  rewrite (update_issue_runs second_registration rt w issue_id project_id u
             p i cur c Hf Hp Hi Hcur Hc Hne). fold L. simpl fst. simpl log.
  rewrite !view_table_of_update_log by reflexivity.
  rewrite status_of_view_writes, priority_of_view_writes.
  unfold second_status_writes, second_priority_writes, L. simpl locals_of.
  rewrite second_status_changed, second_priority_changed. unfold py_ne.
  split.
  - now destruct (py_eq _ _).
  - now destruct (py_eq (old_priority _) _).
Qed.





(** ** An update that changes nothing *)










(** ** The second registration taken alone, and the first on the table as
       [create_tables] makes it *)

(** What C1 asks holds of the second registration: an update that nothing
    interrupts writes as many history rows as there are tracked fields
    whose rendered value differs between the old state and the merged
    one, one per field. *)
Theorem second_registration_history_matches_changes
    rt w issue_id project_id u p i cur c :
  w_fail w = None ->
  UUID rt project_id = Some p ->
  UUID rt issue_id = Some i ->
  current_issue_of second_registration w p i = Some cur ->
  current_component_of second_registration w p i cur = Some c ->
  dict_exclude_unset u <> [] ->
  let L := locals_of second_registration p i cur c (dict_exclude_unset u) (w_now w) in
  let l := log (fst (run w (update_issue second_registration rt w
                              issue_id project_id u))) in
  List.length (history_events l) = List.length (changed_fields rt L)
  /\ history_fields l = map PStr (changed_fields rt L).
Proof.
  intros Hf Hp Hi Hcur Hc Hne L l.
  destruct (second_history_fields rt w issue_id project_id u p i cur c
              Hf Hp Hi Hcur Hc Hne) as [Hfields Hlen].
  split; assumption.
Qed.

Lemma second_registration_history_matches_changes_witness :
  List.length
    (history_events
       (log (fst (run (sample_world None None)
                    (update_issue second_registration sample_rt
                       (sample_world None None) "i-2" "p-1"
                       (only_title (Some "crash on start")))))))
  = List.length
      (changed_fields sample_rt
         (locals_of second_registration 1%N 2%N (sample_row None) PNone
            (dict_exclude_unset (only_title (Some "crash on start"))) 200%Z))
  /\ history_fields
       (log (fst (run (sample_world None None)
                    (update_issue second_registration sample_rt
                       (sample_world None None) "i-2" "p-1"
                       (only_title (Some "crash on start"))))))
     = map PStr
         (changed_fields sample_rt
            (locals_of second_registration 1%N 2%N (sample_row None) PNone
               (dict_exclude_unset (only_title (Some "crash on start"))) 200%Z)).
Proof.
  refine (second_registration_history_matches_changes sample_rt
            (sample_world None None) "i-2" "p-1"
            (only_title (Some "crash on start"))
            1%N 2%N (sample_row None) PNone
            eq_refl eq_refl eq_refl eq_refl eq_refl _).
  discriminate.
Defined.

Lemma second_registration_moves_rows_on_key_change_witness :
  on_table issues_by_status
    (log (fst (run (sample_world None None)
                 (update_issue second_registration sample_rt
                    (sample_world None None) "i-2" "p-1"
                    (only_status (Some IN_PROGRESS))))))
  = (if py_eq (PStr "open") (PStatus IN_PROGRESS)
     then [update_status
             (locals_of second_registration 1%N 2%N (sample_row None) PNone
                (dict_exclude_unset (only_status (Some IN_PROGRESS))) 200%Z)
             (PStatus IN_PROGRESS)]
     else [delete_old_status
             (locals_of second_registration 1%N 2%N (sample_row None) PNone
                (dict_exclude_unset (only_status (Some IN_PROGRESS))) 200%Z);
           insert_new_status
             (locals_of second_registration 1%N 2%N (sample_row None) PNone
                (dict_exclude_unset (only_status (Some IN_PROGRESS))) 200%Z)])
  /\ on_table issues_by_priority
       (log (fst (run (sample_world None None)
                    (update_issue second_registration sample_rt
                       (sample_world None None) "i-2" "p-1"
                       (only_status (Some IN_PROGRESS))))))
     = (if py_eq (PStr "low") (PStr "low")
        then [update_priority
                (locals_of second_registration 1%N 2%N (sample_row None) PNone
                   (dict_exclude_unset (only_status (Some IN_PROGRESS))) 200%Z)
                (PStr "low")]
        else [delete_old_priority
                (locals_of second_registration 1%N 2%N (sample_row None) PNone
                   (dict_exclude_unset (only_status (Some IN_PROGRESS))) 200%Z);
              insert_new_priority
                (locals_of second_registration 1%N 2%N (sample_row None) PNone
                   (dict_exclude_unset (only_status (Some IN_PROGRESS))) 200%Z)]).
Proof.
  refine (second_registration_moves_rows_on_key_change sample_rt
            (sample_world None None) "i-2" "p-1" (only_status (Some IN_PROGRESS))
            1%N 2%N (sample_row None) PNone
            eq_refl eq_refl eq_refl eq_refl eq_refl _).
  discriminate.
Defined.

(** The status change of section 8 in the second registration: open to
    in_progress moves the row of [issues_by_status] and leaves one history
    row, for the field status. *)
Example open_to_in_progress :
  on_table issues_by_status
    (log (fst (run (sample_world None None)
                 (update_issue second_registration sample_rt
                    (sample_world None None) "i-2" "p-1"
                    (only_status (Some IN_PROGRESS))))))
  = [DELETE issues_by_status
       [("project_id", PUUID 1%N); ("status", PStr "open");
        ("created_at", PDatetime 100%Z); ("issue_id", PUUID 2%N)];
     INSERT issues_by_status
       [("project_id", PUUID 1%N); ("status", PStatus IN_PROGRESS);
        ("created_at", PDatetime 100%Z); ("issue_id", PUUID 2%N);
        ("title", PStr "crash"); ("priority", PStr "low");
        ("assignee_id", PNone)]]
  /\ history_fields
       (log (fst (run (sample_world None None)
                    (update_issue second_registration sample_rt
                       (sample_world None None) "i-2" "p-1"
                       (only_status (Some IN_PROGRESS))))))
     = [PStr "status"].
Proof. split; reflexivity. Qed.

Lemma first_update_without_component_key_witness :
  exists st,
    run (sample_world None None)
      (First.update_issue sample_rt (sample_world None None) "i-2" "p-1"
         (only_assignee (Some 7%N)))
    = (st, Raise (HTTPException 500
                    ("Error updating issue: "
                     ++ str_exn sample_rt (KeyError "component"))%string))
    /\ log st = [].
Proof.
  refine (first_update_without_component_key sample_rt (sample_world None None)
            "i-2" "p-1" (only_assignee (Some 7%N)) 1%N 2%N (sample_row None)
            eq_refl eq_refl I eq_refl eq_refl _).
  discriminate.
Defined.

Lemma no_fields_no_writes_witness :
  log (fst (run (sample_world None None)
              (update_issue first_registration sample_rt (sample_world None None)
                 "i-2" "p-1" no_fields)))
  = [].
Proof.
  exact (no_fields_no_writes first_registration sample_rt (sample_world None None)
           "i-2" "p-1" no_fields eq_refl).
Defined.

(** ** The rows an update writes to *)

Lemma view_writes_target reg L o :
  In o (view_writes reg L) ->
  targets o "project_id" = PUUID (project_uuid L)
  /\ targets o "issue_id" = PUUID (issue_uuid L)
  /\ targets o "created_at" = PDatetime (created_at L).
Proof.
  unfold view_writes, first_status_writes, first_priority_writes,
    second_status_writes, second_priority_writes, assignee_writes,
    component_writes.
  destruct reg; split_ifs; simpl; intros H;
    repeat match goal with
           | H : _ \/ _ |- _ => destruct H
           | H : False |- _ => destruct H
           end; subst o; repeat split; reflexivity.
Qed.

Lemma history_query_target rt event_id c p i t by_ :
  targets (history_query rt event_id c p i t by_) "project_id" = PUUID p
  /\ targets (history_query rt event_id c p i t by_) "issue_id" = PUUID i
  /\ is_INSERT (history_query rt event_id c p i t by_) = true
  /\ binding (history_query rt event_id c p i t by_) "changed_at" = PDatetime t
  /\ binding (history_query rt event_id c p i t by_) "changed_by" = by_.
Proof. destruct c as [[f o] v]. repeat split; reflexivity. Qed.

Lemma history_query_ids rt event_id c p i t by_ :
  binding (history_query rt event_id c p i t by_) "project_id" = PUUID p
  /\ binding (history_query rt event_id c p i t by_) "issue_id" = PUUID i.
Proof. destruct c as [[f o] v]. split; reflexivity. Qed.

(** Whatever the payload and however the update ends, every statement of
    [update_issue] is for the issue the request names: an [INSERT] gives
    its row, an [UPDATE] or [DELETE] its [WHERE], the parsed [project_id]
    and [issue_id], and outside the history the [created_at] of the
    canonical row.  No row of another issue is touched. *)
Theorem update_writes_only_to_its_issue reg rt w issue_id project_id u :
  Forall (fun o =>
            exists p i cur,
              UUID rt project_id = Some p
              /\ UUID rt issue_id = Some i
              /\ current_issue_of reg w p i = Some cur
              /\ targets o "project_id" = PUUID p
              /\ targets o "issue_id" = PUUID i
              /\ (op_table o <> issue_history ->
                  targets o "created_at" = PDatetime (ProjectRow.created_at cur)))
         (log (fst (run w (update_issue reg rt w issue_id project_id u)))).
Proof.
  eapply Forall_impl; [|apply update_issue_within].
  intros o (p & i & cur & c & Hp & Hi & Hcur & Hc & Hne & Hw).
  exists p, i, cur.
  destruct (locals_key reg p i cur c (dict_exclude_unset u) (w_now w))
    as (Ep & Ei & Ec & _ & _).
  set (L := locals_of reg p i cur c (dict_exclude_unset u) (w_now w)) in *.
  repeat (split; [assumption|]).
  destruct Hw as [[<-|Hv]|(ev & ch & _ & ->)].
  - unfold update_main_query, targets. simpl. rewrite Ep, Ei, Ec. auto.
  - destruct (view_writes_target reg L o Hv) as (H1 & H2 & H3).
    rewrite H1, H2, H3, Ep, Ei, Ec. auto.
  - destruct (history_query_target rt ev ch (project_uuid L) (issue_uuid L)
                (updated_at L) (reporter_id L)) as (H1 & H2 & _).
    rewrite H1, H2, Ep, Ei. repeat split.
    intros H. rewrite history_query_table in H. congruence.
Qed.

(** The history is only ever appended to: whatever the payload and however
    the update ends, a statement of [update_issue] on [issue_history] is
    an [INSERT] for the issue the request names, stamped with the time of
    the update and, as [changed_by], with the [reporter_id] of the
    canonical row of that issue. *)
Theorem update_only_appends_to_history reg rt w issue_id project_id u :
  Forall (fun o =>
            op_table o = issue_history ->
            is_INSERT o = true
            /\ binding o "changed_at" = PDatetime (w_now w)
            /\ exists p i cur,
                 UUID rt project_id = Some p
                 /\ UUID rt issue_id = Some i
                 /\ current_issue_of reg w p i = Some cur
                 /\ binding o "project_id" = PUUID p
                 /\ binding o "issue_id" = PUUID i
                 /\ binding o "changed_by" = ProjectRow.reporter_id cur)
         (log (fst (run w (update_issue reg rt w issue_id project_id u)))).
Proof.
  eapply Forall_impl; [|apply update_issue_within].
  intros o (p & i & cur & c & Hp & Hi & Hcur & Hc & Hne & Hw) Ht.
  destruct (locals_key reg p i cur c (dict_exclude_unset u) (w_now w))
    as (Ep & Ei & _ & Er & Et).
  set (L := locals_of reg p i cur c (dict_exclude_unset u) (w_now w)) in *.
  destruct Hw as [[<-|Hv]|(ev & ch & _ & ->)].
  - discriminate.
  - apply in_view_writes_table in Hv. rewrite Ht in Hv. discriminate.
  - destruct (history_query_target rt ev ch (project_uuid L) (issue_uuid L)
                (updated_at L) (reporter_id L)) as (_ & _ & H3 & H4 & H5).
    destruct (history_query_ids rt ev ch (project_uuid L) (issue_uuid L)
                (updated_at L) (reporter_id L)) as (H1 & H2).
    rewrite H1, H2, H3, H4, H5, Et, Er, Ep, Ei. repeat split.
    exists p, i, cur. auto 10.
Qed.

(** ** Runs the storage interrupts *)

Lemma is_prefix_refl (a : list op) : is_prefix a a.
Proof. exists []. now rewrite app_nil_r. Qed.

Lemma is_prefix_nil (a : list op) : is_prefix [] a.
Proof. now exists a. Qed.

Lemma is_prefix_app (a b c : list op) : is_prefix a b -> is_prefix a (b ++ c).
Proof. intros [r ->]. exists (r ++ c). now rewrite app_assoc. Qed.

Lemma is_prefix_cons (a b c : list op) : is_prefix b c -> is_prefix (a ++ b) (a ++ c).
Proof. intros [r ->]. exists r. now rewrite app_assoc. Qed.

Lemma resumable_ret {A} (a : A) : resumable (ret a).
Proof.
  intros n l k. exists n, [], (Ok a). rewrite app_nil_r.
  split; [reflexivity|]. left. now exists k.
Qed.

Lemma resumable_construct {A} (model : option A) : resumable (construct model).
Proof.
  intros n l k. exists n, [], (answer model). rewrite app_nil_r.
  split; [reflexivity|]. left. exists k. reflexivity.
Qed.

Lemma resumable_raise {A} e : resumable (@raise A e).
Proof.
  intros n l k. exists n, [], (Raise e). rewrite app_nil_r.
  split; [reflexivity|]. left. now exists k.
Qed.

Lemma resumable_bind {A B} (m : M A) (f : A -> M B) :
  resumable m -> (forall a, resumable (f a)) -> resumable (bind m f).
Proof.
  intros Hm Hf n l k.
  destruct (Hm n l k) as (n1 & ops1 & r1 & Hq & Ha).
  destruct r1 as [a|e].
  - destruct Ha as [(k1 & Hk)|(st & e & ops' & Hk & Hl & Hp)].
    + destruct (Hf a n1 (l ++ ops1) k1) as (n2 & ops2 & r2 & Hq2 & Ha2).
      exists n2, (ops1 ++ ops2), r2. rewrite app_assoc.
      split; [unfold bind; now rewrite Hq|].
      destruct Ha2 as [(k2 & Hk2)|(st & e & ops' & Hk2 & Hl & Hp)].
      * left. exists k2. unfold bind. now rewrite Hk.
      * right. exists st, e, (ops1 ++ ops'). unfold bind. rewrite Hk.
        split; [assumption|]. rewrite Hl, <- !app_assoc.
        split; [reflexivity|]. now apply is_prefix_cons.
    + destruct (Hf a n1 (l ++ ops1) 0) as (n2 & ops2 & r2 & Hq2 & _).
      exists n2, (ops1 ++ ops2), r2. rewrite app_assoc.
      split; [unfold bind; now rewrite Hq|].
      right. exists st, e, ops'. unfold bind. rewrite Hk.
      repeat split; [assumption|]. now apply is_prefix_app.
  - exists n1, ops1, (Raise e).
    split; [unfold bind; now rewrite Hq|].
    destruct Ha as [(k1 & Hk)|(st & e' & ops' & Hk & Hl & Hp)].
    + left. exists k1. unfold bind. now rewrite Hk.
    + right. exists st, e', ops'. unfold bind. rewrite Hk. auto.
Qed.

Lemma resumable_try_except {A} (m : M A) (g : exn -> exn) :
  resumable m -> resumable (try_except m (fun e => raise (g e))).
Proof.
  intros Hm n l k.
  destruct (Hm n l k) as (n1 & ops1 & r1 & Hq & Ha).
  exists n1, ops1, match r1 with Ok a => Ok a | Raise e => Raise (g e) end.
  split; [unfold try_except; rewrite Hq; now destruct r1|].
  destruct Ha as [(k1 & Hk)|(st & e & ops' & Hk & Hl & Hp)].
  - left. exists k1. unfold try_except. rewrite Hk. now destruct r1.
  - right. exists st, (g e), ops'. unfold try_except. rewrite Hk. auto.
Qed.

Lemma resumable_execute w o : resumable (execute w o).
Proof.
  intros n l k. exists n, [o], (Ok tt). split; [reflexivity|].
  destruct k as [|k].
  - right. exists {| failing := None; next_uuid := n; log := l |},
      (StorageError (fail_msg w)), [].
    rewrite app_nil_r. repeat split. apply is_prefix_nil.
  - left. now exists k.
Qed.

Lemma resumable_select {A} w (rows : list A) : resumable (select w rows).
Proof.
  intros n l k. exists n, [], (Ok rows). rewrite app_nil_r.
  split; [reflexivity|].
  destruct k as [|k].
  - right. exists {| failing := None; next_uuid := n; log := l |},
      (StorageError (fail_msg w)), [].
    rewrite app_nil_r. repeat split. apply is_prefix_nil.
  - left. now exists k.
Qed.

Lemma resumable_generate_uuid w : resumable (generate_uuid w).
Proof.
  intros n l k. exists (S n), [], (Ok (w_uuid4 w n)). rewrite app_nil_r.
  split; [reflexivity|]. left. now exists k.
Qed.

Lemma resumable_if {A} (b : bool) (m1 m2 : M A) :
  resumable m1 -> resumable m2 -> resumable (if b then m1 else m2).
Proof. now destruct b. Qed.

Lemma resumable_when w b o : resumable (when b (execute w o)).
Proof. unfold when. apply resumable_if; [apply resumable_execute|apply resumable_ret]. Qed.

Lemma resumable_for_each {A} (l : list A) (body : A -> M unit) :
  (forall x, resumable (body x)) -> resumable (for_each l body).
Proof.
  intros Hb. induction l as [|x xs IH]; simpl.
  - apply resumable_ret.
  - apply resumable_bind; [apply Hb|intros _; exact IH].
Qed.

Lemma resumable_parse_uuid rt text : resumable (parse_uuid rt text).
Proof.
  unfold parse_uuid. destruct (UUID rt text);
    [apply resumable_ret|apply resumable_raise].
Qed.

Lemma resumable_write_history rt w changes p i t by_ :
  resumable (write_history rt w changes p i t by_).
Proof.
  unfold write_history. destruct changes as [|c0 cs]; [apply resumable_ret|].
  apply resumable_for_each. intros c.
  apply resumable_bind; [apply resumable_generate_uuid|].
  intros ev. apply resumable_execute.
Qed.

Ltac resume :=
  repeat match goal with
         | |- resumable (ret _) => apply resumable_ret
         | |- resumable (raise _) => apply resumable_raise
         | |- resumable (construct _) => apply resumable_construct
         | |- resumable (execute _ _) => apply resumable_execute
         | |- resumable (select _ _) => apply resumable_select
         | |- resumable (when _ _) => apply resumable_when
         | |- resumable (generate_uuid _) => apply resumable_generate_uuid
         | |- resumable (parse_uuid _ _) => apply resumable_parse_uuid
         | |- resumable (write_history _ _ _ _ _ _ _) =>
             apply resumable_write_history
         | |- resumable (try_except _ _) => apply resumable_try_except
         | |- resumable (bind _ _) => apply resumable_bind; [|intros ?]
         | |- resumable (if _ then _ else _) => apply resumable_if
         | |- resumable (let _ := _ in _) => cbv zeta
         | |- resumable (match ?x with _ => _ end) => destruct x
         end.

Lemma resumable_update_issue reg rt w issue_id project_id u :
  resumable (update_issue reg rt w issue_id project_id u).
Proof.
  destruct reg; simpl;
    [ unfold First.update_issue, First.update_issue_body, First.update_writes,
        First.sync_issues_by_status, First.sync_issues_by_priority,
        First.sync_issues_by_assignee, First.sync_issues_by_component,
        First.getitem_component, get_current_time
    | unfold Second.update_issue, Second.update_issue_body, Second.update_writes,
        Second.sync_issues_by_status, Second.sync_issues_by_priority,
        Second.sync_issues_by_assignee, Second.sync_issues_by_component,
        get_current_time ];
    resume.
Qed.

Lemma resumable_create_issue rt w issue : resumable (create_issue rt w issue).
Proof. unfold create_issue, get_current_time. resume. Qed.

(** What [resumable] says of a run from the initial state. *)
Lemma resumable_run {A} (w : World) (m : M A) :
  resumable m ->
  exists rest,
    log (fst (m (quiet 0 []))) = log (fst (run w m)) ++ rest
    /\ (forall a, snd (run w m) = Ok a ->
        rest = [] /\ snd (m (quiet 0 [])) = Ok a).
Proof.
  intros Hm. unfold run, init.
  destruct (w_fail w) as [[k msg]|]; simpl.
  - destruct (Hm 0 [] k) as (n' & ops & r & Hq & Ha). fold (armed k 0 []).
    rewrite Hq. simpl.
    destruct Ha as [(k' & Hk)|(st & e & ops' & Hk & Hl & (rest & ->))];
      rewrite Hk; simpl.
    + exists []. rewrite app_nil_r. auto.
    + exists rest. simpl in Hl. rewrite Hl. split; [reflexivity|discriminate].
  - fold (quiet 0 []). exists []. rewrite app_nil_r. auto.
Qed.

Lemma update_issue_from_quiet reg rt w issue_id project_id u p i cur c :
  UUID rt project_id = Some p ->
  UUID rt issue_id = Some i ->
  current_issue_of reg w p i = Some cur ->
  current_component_of reg w p i cur = Some c ->
  dict_exclude_unset u <> [] ->
  let L := locals_of reg p i cur c (dict_exclude_unset u) (w_now w) in
  update_issue reg rt w issue_id project_id u (quiet 0 [])
  = (quiet (List.length (changes_of reg rt L)) (update_log reg rt w L),
     caught rt "Error updating issue: " (answer (response rt L))).
Proof.
  intros Hp Hi Hcur Hc Hne L.
  rewrite update_issue_is_try.
  assert (H : update_issue_body reg rt w issue_id project_id u (quiet 0 [])
              = (quiet (List.length (changes_of reg rt L)) (update_log reg rt w L),
                 answer (response rt L)));
    [|unfold try_except; rewrite H;
      destruct (answer (response rt L)); reflexivity].
  apply dict_empty_false in Hne.
  destruct reg; simpl in *.
  - unfold First.update_issue_body.
    erewrite bind_ok by (apply parse_uuid_ok; eassumption).
    erewrite bind_ok by (apply parse_uuid_ok; eassumption).
    erewrite bind_ok by apply select_quiet.
    rewrite Hcur, Hne. unfold First.getitem_component. rewrite Hc.
    unfold get_current_time. unfold bind at 1. simpl. unfold bind at 1. simpl.
    apply first_update_writes_quiet.
  - unfold Second.update_issue_body.
    erewrite bind_ok by (apply parse_uuid_ok; eassumption).
    erewrite bind_ok by (apply parse_uuid_ok; eassumption).
    erewrite bind_ok by apply select_quiet.
    rewrite Hcur.
    erewrite bind_ok by apply select_quiet.
    rewrite Hne. injection Hc as <-.
    unfold get_current_time. unfold bind at 1. simpl.
    apply second_update_writes_quiet.
Qed.

(** Nothing is rolled back and nothing is skipped: when the storage fails
    in the middle of an update of an existing issue, the statements
    written so far are the first ones of the uninterrupted update, in its
    order -- the canonical [UPDATE] first, then the views, then the
    history.  When the update returns, it has written them all. *)
Theorem interrupted_update_keeps_a_prefix
    reg rt w issue_id project_id u p i cur c :
  UUID rt project_id = Some p ->
  UUID rt issue_id = Some i ->
  current_issue_of reg w p i = Some cur ->
  current_component_of reg w p i cur = Some c ->
  dict_exclude_unset u <> [] ->
  let L := locals_of reg p i cur c (dict_exclude_unset u) (w_now w) in
  let l := log (fst (run w (update_issue reg rt w issue_id project_id u))) in
  is_prefix l (update_log reg rt w L)
  /\ (l <> [] -> hd_error l = Some (update_main_query L))
  /\ (forall resp,
        snd (run w (update_issue reg rt w issue_id project_id u)) = Ok resp ->
        l = update_log reg rt w L /\ response rt L = Some resp).
Proof.
  intros Hp Hi Hcur Hc Hne L l.
  destruct (resumable_run w _ (resumable_update_issue reg rt w issue_id project_id u))
    as (rest & Hrest & Hok).
  rewrite (update_issue_from_quiet reg rt w issue_id project_id u p i cur c
             Hp Hi Hcur Hc Hne) in Hrest, Hok.
  fold L in Hrest, Hok. simpl in Hrest, Hok. fold l in Hrest.
  split; [now exists rest|]. split.
  - intros Hl. destruct l as [|o l']; [congruence|].
    unfold update_log in Hrest. simpl in Hrest. injection Hrest as <- _.
    reflexivity.
  - intros resp Hresp. destruct (Hok resp Hresp) as [-> E].
    rewrite app_nil_r in Hrest. split; [congruence|].
    destruct (response rt L); simpl in E; congruence.
Qed.

Lemma interrupted_update_keeps_a_prefix_witness :
  is_prefix
    (log (fst (run (sample_world None (Some (4, "unavailable")))
                 (update_issue second_registration sample_rt
                    (sample_world None (Some (4, "unavailable")))
                    "i-2" "p-1" (only_status (Some IN_PROGRESS))))))
    (update_log second_registration sample_rt
       (sample_world None (Some (4, "unavailable")))
       (locals_of second_registration 1%N 2%N (sample_row None) PNone
          (dict_exclude_unset (only_status (Some IN_PROGRESS))) 200%Z))
  /\ (log (fst (run (sample_world None (Some (4, "unavailable")))
                  (update_issue second_registration sample_rt
                     (sample_world None (Some (4, "unavailable")))
                     "i-2" "p-1" (only_status (Some IN_PROGRESS))))) <> [] ->
      hd_error
        (log (fst (run (sample_world None (Some (4, "unavailable")))
                     (update_issue second_registration sample_rt
                        (sample_world None (Some (4, "unavailable")))
                        "i-2" "p-1" (only_status (Some IN_PROGRESS))))))
      = Some (update_main_query
                (locals_of second_registration 1%N 2%N (sample_row None) PNone
                   (dict_exclude_unset (only_status (Some IN_PROGRESS))) 200%Z)))
  /\ (forall resp,
        snd (run (sample_world None (Some (4, "unavailable")))
               (update_issue second_registration sample_rt
                  (sample_world None (Some (4, "unavailable")))
                  "i-2" "p-1" (only_status (Some IN_PROGRESS)))) = Ok resp ->
        log (fst (run (sample_world None (Some (4, "unavailable")))
                    (update_issue second_registration sample_rt
                       (sample_world None (Some (4, "unavailable")))
                       "i-2" "p-1" (only_status (Some IN_PROGRESS)))))
        = update_log second_registration sample_rt
            (sample_world None (Some (4, "unavailable")))
            (locals_of second_registration 1%N 2%N (sample_row None) PNone
               (dict_exclude_unset (only_status (Some IN_PROGRESS))) 200%Z)
        /\ response sample_rt
             (locals_of second_registration 1%N 2%N (sample_row None) PNone
                (dict_exclude_unset (only_status (Some IN_PROGRESS))) 200%Z)
           = Some resp).
Proof.
  refine (interrupted_update_keeps_a_prefix second_registration sample_rt
            (sample_world None (Some (4, "unavailable"))) "i-2" "p-1"
            (only_status (Some IN_PROGRESS)) 1%N 2%N (sample_row None) PNone
            eq_refl eq_refl eq_refl eq_refl _).
  discriminate.
Defined.

(** The status change of the sample issue under a storage that answers
    four calls -- the two [SELECT]s, the canonical [UPDATE], the [DELETE]
    of the old row of [issues_by_status] -- and then fails: the row is
    gone from [issues_by_status], its replacement is not written, and the
    caller gets status 500. *)
Example status_change_interrupted_between_delete_and_insert :
  run (sample_world None (Some (4, "unavailable")))
    (update_issue second_registration sample_rt
       (sample_world None (Some (4, "unavailable")))
       "i-2" "p-1" (only_status (Some IN_PROGRESS)))
  = ({| failing := None; next_uuid := 0;
        log := [UPDATE issues_by_project
                  [("title", PStr "crash"); ("description", PStr "it crashes");
                   ("status", PStatus IN_PROGRESS); ("priority", PStr "low");
                   ("assignee_id", PNone); ("updated_at", PDatetime 200%Z)]
                  [("project_id", PUUID 1%N); ("created_at", PDatetime 100%Z);
                   ("issue_id", PUUID 2%N)];
                DELETE issues_by_status
                  [("project_id", PUUID 1%N); ("status", PStr "open");
                   ("created_at", PDatetime 100%Z); ("issue_id", PUUID 2%N)]] |},
     Raise (HTTPException 500 "Error updating issue: unavailable")).
Proof. reflexivity. Qed.

(** A creation the storage interrupts has written the first statements of
    the uninterrupted one, in its order, and keeps them; it then answers
    with status 500.  A creation that returns has written them all. *)
Theorem interrupted_creation_keeps_a_prefix rt w issue :
  is_prefix (log (fst (run w (create_issue rt w issue))))
            (log (fst (create_issue rt w issue (quiet 0 []))))
  /\ (forall resp,
        snd (run w (create_issue rt w issue)) = Ok resp ->
        log (fst (run w (create_issue rt w issue)))
        = log (fst (create_issue rt w issue (quiet 0 [])))
        /\ snd (create_issue rt w issue (quiet 0 [])) = Ok resp)
  /\ (forall e,
        snd (run w (create_issue rt w issue)) = Raise e ->
        exists inner,
          e = HTTPException 500 ("Error creating issue: " ++ str_exn rt inner)%string).
Proof.
  destruct (resumable_run w _ (resumable_create_issue rt w issue))
    as (rest & Hrest & Hok).
  split; [now exists rest|]. split.
  - intros resp Hresp. destruct (Hok resp Hresp) as [-> E].
    rewrite app_nil_r in Hrest. auto.
  - intros e. unfold run, create_issue, get_current_time.
    unfold bind at 1. simpl. unfold bind at 1. simpl.
    unfold try_except.
    match goal with
    | |- context [match ?m ?s with _ => _ end] => destruct (m s) as [st [a|inner]]
    end; simpl; intros H; [discriminate|].
    injection H as <-. now exists inner.
Qed.

(** ** The keys of the history rows *)

Lemma history_event_ids rt w n changes p i t by_ :
  map (fun o => binding o "event_id") (history_writes rt w n changes p i t by_)
  = map (fun k => PUUID (w_uuid4 w k)) (seq n (List.length changes)).
Proof.
  revert n. induction changes as [|[[f o] v] cs IH]; intros n; simpl;
    [reflexivity|]. now rewrite IH.
Qed.

Lemma NoDup_map_injective {A B} (f : A -> B) (l : list A) :
  (forall a b, f a = f b -> a = b) -> NoDup l -> NoDup (map f l).
Proof.
  intros Hf. induction 1 as [|x l Hx _ IH]; simpl; constructor; [|exact IH].
  rewrite in_map_iff. intros (y & E & Hy). apply Hf in E. now subst.
Qed.

(** The history rows of one update share [changed_at], so their primary
    keys differ by [event_id] alone.  As long as [uuid4] does not repeat
    itself they do differ: an update that nothing interrupts writes
    history rows with pairwise distinct [event_id]s, so that no row
    overwrites another. *)
Theorem history_rows_of_an_update_have_distinct_keys
    reg rt w issue_id project_id u p i cur c :
  w_fail w = None ->
  UUID rt project_id = Some p ->
  UUID rt issue_id = Some i ->
  current_issue_of reg w p i = Some cur ->
  current_component_of reg w p i cur = Some c ->
  dict_exclude_unset u <> [] ->
  (forall a b, w_uuid4 w a = w_uuid4 w b -> a = b) ->
  let l := log (fst (run w (update_issue reg rt w issue_id project_id u))) in
  NoDup (map (fun o => binding o "event_id") (history_events l))
  /\ Forall (fun o => binding o "changed_at" = PDatetime (w_now w))
            (history_events l).
Proof.
  intros Hf Hp Hi Hcur Hc Hne Hinj l. unfold l.
  rewrite (update_issue_runs reg rt w issue_id project_id u p i cur c
             Hf Hp Hi Hcur Hc Hne). simpl fst. simpl log.
  rewrite history_of_update_log. split.
  - rewrite history_event_ids.
    apply NoDup_map_injective; [|apply seq_NoDup].
    intros a b H. injection H as H. auto.
  - destruct (locals_key reg p i cur c (dict_exclude_unset u) (w_now w))
      as (_ & _ & _ & _ & Et). rewrite Et.
    generalize 0.
    induction (changes_of reg rt
                 (locals_of reg p i cur c (dict_exclude_unset u) (w_now w)))
      as [|[[f o] v] cs IH]; intros n; simpl; constructor; auto.
Qed.

Lemma history_rows_of_an_update_have_distinct_keys_witness :
  NoDup (map (fun o => binding o "event_id")
           (history_events
              (log (fst (run (sample_world None None)
                           (update_issue second_registration sample_rt
                              (sample_world None None) "i-2" "p-1"
                              {| IssueUpdate.title := Some (Some "crash on start");
                                 IssueUpdate.description := None;
                                 IssueUpdate.status := Some (Some CLOSED);
                                 IssueUpdate.priority := Some (Some HIGH);
                                 IssueUpdate.assignee_id := None;
                                 IssueUpdate.component := None |}))))))
  /\ Forall (fun o => binding o "changed_at" = PDatetime 200%Z)
            (history_events
               (log (fst (run (sample_world None None)
                            (update_issue second_registration sample_rt
                               (sample_world None None) "i-2" "p-1"
                               {| IssueUpdate.title := Some (Some "crash on start");
                                  IssueUpdate.description := None;
                                  IssueUpdate.status := Some (Some CLOSED);
                                  IssueUpdate.priority := Some (Some HIGH);
                                  IssueUpdate.assignee_id := None;
                                  IssueUpdate.component := None |}))))).
Proof.
  refine (history_rows_of_an_update_have_distinct_keys second_registration
            sample_rt (sample_world None None) "i-2" "p-1" _
            1%N 2%N (sample_row None) PNone
            eq_refl eq_refl eq_refl eq_refl eq_refl _ _).
  - discriminate.
  - intros a b H.
    change (N.of_nat (1000 + a) = N.of_nat (1000 + b)) in H.
    apply Nat2N.inj in H. lia.
Defined.

(** ** The rows of a creation *)

Lemma agrees_with_response_intro r o :
  (forall k v, In (k, v) (op_bindings o) ->
               exists v', response_column r k = Some v' /\ py_eq v v' = true) ->
  agrees_with_response r o = true.
Proof.
  intros H. unfold agrees_with_response. apply forallb_forall. intros [k v] Hin.
  destruct (H k v Hin) as (v' & E & Hv). simpl. rewrite E. exact Hv.
Qed.

Ltac agreed :=
  apply agrees_with_response_intro; simpl;
  intros k v Hin;
  repeat match goal with
         | H : _ \/ _ |- _ => destruct H
         | H : False |- _ => destruct H
         | H : (_, _) = (_, _) |- _ => injection H as <- <-
         end;
  (eexists; split;
   [reflexivity
   |first [apply py_eq_refl | unfold py_eq; simpl; apply String.eqb_refl]]).

(** The rows of a creation that nothing interrupts and the response it
    returns tell the same story: every column of every row holds a value
    equal, as Python compares, to the one the response reports for it --
    the generated [issue_id], the one [created_at], and for status and
    priority the text of the member the response holds --, and
    [updated_at] equals [created_at]. *)
Theorem created_rows_agree_with_the_response rt w issue :
  w_fail w = None ->
  exists resp,
    snd (run w (create_issue rt w issue)) = Ok resp
    /\ Forall (fun o => agrees_with_response resp o = true)
              (log (fst (run w (create_issue rt w issue))))
    /\ IssueResponse.issue_id resp = PUUID (w_uuid4 w 0)
    /\ IssueResponse.created_at resp = PDatetime (w_now w)
    /\ IssueResponse.updated_at resp = IssueResponse.created_at resp
    /\ IssueResponse.status resp = PStatus (IssueCreate.status issue)
    /\ IssueResponse.priority resp = PPriority (IssueCreate.priority issue)
    /\ Forall (fun o =>
                 binding o "status" = PStr (Status_value (IssueCreate.status issue))
                 /\ binding o "priority"
                    = PStr (Priority_value (IssueCreate.priority issue)))
              (log (fst (run w (create_issue rt w issue)))).
Proof.
  intros Hf. unfold run. rewrite (init_quiet w Hf).
  destruct (create_issue_from_quiet rt w issue) as [Hlog Hres].
  rewrite Hlog, Hres. simpl fst. simpl snd. simpl log.
  eexists. split; [reflexivity|]. split; [|repeat split].
  - unfold create_writes, issue_rows.
    destruct (py_truthy (of_uuid (IssueCreate.assignee_id issue))),
             (py_truthy (of_text (IssueCreate.component issue)));
      simpl; repeat constructor; agreed.
  - unfold create_writes, issue_rows.
    destruct (py_truthy (of_uuid (IssueCreate.assignee_id issue))),
             (py_truthy (of_text (IssueCreate.component issue)));
      simpl; repeat constructor.
Qed.

Lemma created_rows_agree_with_the_response_witness :
  exists resp,
    snd (run empty_world (create_issue sample_rt empty_world sample_create)) = Ok resp
    /\ Forall (fun o => agrees_with_response resp o = true)
              (log (fst (run empty_world
                           (create_issue sample_rt empty_world sample_create))))
    /\ IssueResponse.issue_id resp = PUUID (w_uuid4 empty_world 0)
    /\ IssueResponse.created_at resp = PDatetime (w_now empty_world)
    /\ IssueResponse.updated_at resp = IssueResponse.created_at resp
    /\ IssueResponse.status resp = PStatus (IssueCreate.status sample_create)
    /\ IssueResponse.priority resp = PPriority (IssueCreate.priority sample_create)
    /\ Forall (fun o =>
                 binding o "status"
                 = PStr (Status_value (IssueCreate.status sample_create))
                 /\ binding o "priority"
                    = PStr (Priority_value (IssueCreate.priority sample_create)))
              (log (fst (run empty_world
                           (create_issue sample_rt empty_world sample_create)))).
Proof.
  exact (created_rows_agree_with_the_response sample_rt empty_world sample_create
           eq_refl).
Defined.


(** ** Statements against the declared tables *)

Lemma view_writes_fit_schema reg L o :
  In o (view_writes reg L) -> fits_schema o = true.
Proof.
  unfold view_writes, first_status_writes, first_priority_writes,
    second_status_writes, second_priority_writes, assignee_writes,
    component_writes.
  destruct reg; split_ifs; simpl; intros H;
    repeat match goal with
           | H : _ \/ _ |- _ => destruct H
           | H : False |- _ => destruct H
           end; subst o; reflexivity.
Qed.

Lemma history_query_fits_schema rt event_id c p i t by_ :
  fits_schema (history_query rt event_id c p i t by_) = true.
Proof. destruct c as [[f o] v]. reflexivity. Qed.

(** Whatever the payload and however it ends, [update_issue] writes only
    statements that fit the tables [create_tables] declares: each names
    columns of its table only, each [UPDATE] and [DELETE] gives the whole
    primary key of its table as [WHERE], in the order of the key, each
    [INSERT] names the whole primary key, and no [UPDATE] sets a key
    column. *)
Theorem update_statements_fit_the_declared_tables
    reg rt w issue_id project_id u :
  Forall (fun o => fits_schema o = true)
         (log (fst (run w (update_issue reg rt w issue_id project_id u)))).
Proof.
  eapply Forall_impl; [|apply update_issue_within].
  intros o (p & i & cur & c & _ & _ & _ & _ & _ & Hw).
  destruct Hw as [[<-|Hv]|(ev & ch & _ & ->)].
  - reflexivity.
  - now apply view_writes_fit_schema in Hv.
  - apply history_query_fits_schema.
Qed.

(** The same of [create_issue]: every row it inserts names columns of its
    table only and the whole primary key among them. *)
Theorem create_statements_fit_the_declared_tables rt w issue :
  Forall (fun o => fits_schema o = true)
         (log (fst (run w (create_issue rt w issue)))).
Proof.
  apply hoare_run with (Q := anything).
  unfold create_issue.
  eapply hoare_bind; [apply hoare_generate_uuid|intros issue_id _].
  eapply hoare_bind; [apply hoare_ret|intros t ->].
  apply hoare_try_except; [|intros e; apply hoare_raise].
  repeat first
    [ eapply hoare_weaken; [apply hoare_construct | intros; exact I]
    | eapply hoare_weaken; [apply hoare_ret | intros; exact I]
    | eapply hoare_bind;
      [ first [ apply hoare_execute; reflexivity
              | apply hoare_if; intros _;
                [ apply hoare_execute; reflexivity
                | eapply hoare_weaken; [apply hoare_ret | intros; exact I] ] ]
      | intros ? _ ] ].
Qed.

(** [issues_by_project] is declared without a column [component];
    [issues_by_component] has one. *)
Example issues_by_project_has_no_component :
  option_map (fun s => mem "component" (schema_columns s))
             (schema_of "issues_by_project") = Some false
  /\ option_map (fun s => mem "component" (schema_columns s))
                (schema_of "issues_by_component") = Some true.
Proof. split; reflexivity. Qed.


(** ** The handlers that read *)

Lemma hoare_collect {A B} (P : op -> Prop) (model : A -> option B) rows :
  hoare P (fun out => Forall2 (fun row o => model row = Some o) rows out)
        (collect model rows).
Proof.
  induction rows as [|row rows IH]; simpl.
  - eapply hoare_weaken; [apply hoare_ret|]. intros a ->. constructor.
  - unfold validate. destruct (model row) as [o|] eqn:E.
    + eapply hoare_bind; [apply hoare_ret|]. intros a ->.
      eapply hoare_bind; [apply IH|]. intros rs Hrs.
      eapply hoare_weaken; [apply hoare_ret|]. intros x ->. now constructor.
    + eapply hoare_bind; [apply hoare_raise with (Q := fun _ => False)|].
      intros a [].
Qed.

Lemma py_slice_within {A} (l : list A) (skip limit : Z) :
  (0 <= skip)%Z -> (Z.of_nat (List.length l) <= limit)%Z ->
  py_slice l skip (skip + limit) = skipn (Z.to_nat skip) l.
Proof.
  intros Hs Hl. unfold py_slice, py_index.
  destruct (Z.ltb_spec skip 0); [lia|].
  destruct (Z.ltb_spec (skip + limit) 0); [lia|].
  rewrite (Z.min_r (skip + limit)) by lia.
  destruct (Z.le_gt_cases skip (Z.of_nat (List.length l))) as [Hle|Hgt].
  - rewrite Z.min_l by lia.
    apply firstn_all2. rewrite length_skipn. lia.
  - rewrite Z.min_r by lia. rewrite Z.sub_diag. simpl.
    symmetry. apply skipn_all2. lia.
Qed.

Lemma hoare_select_limit {A} w (P : op -> Prop) (rows : list A) limit :
  hoare P (fun x => (0 < limit)%Z /\ x = firstn (Z.to_nat limit) rows)
        (select_limit w rows limit).
Proof.
  unfold select_limit. destruct (Z.ltb_spec 0 limit).
  - eapply hoare_weaken; [apply hoare_select|]. intros a ->. auto.
  - apply hoare_raise.
Qed.

Lemma Forall2_length_eq {A B} (R : A -> B -> Prop) l l' :
  Forall2 R l l' -> List.length l = List.length l'.
Proof. induction 1; simpl; congruence. Qed.

Lemma page_within {A B} (model : A -> option B) table (skip limit : Z) users :
  (0 <= skip)%Z -> (0 < limit)%Z ->
  Forall2 (fun row u => model row = Some u) (firstn (Z.to_nat limit) table) users ->
  py_slice users skip (skip + limit) = skipn (Z.to_nat skip) users
  /\ (List.length (skipn (Z.to_nat skip) users) <= Z.to_nat (limit - skip))%nat.
Proof.
  intros Hs Hl HF. apply Forall2_length_eq in HF.
  assert (List.length users <= Z.to_nat limit)%nat
    by (rewrite <- HF, length_firstn; lia).
  split.
  - apply py_slice_within; lia.
  - rewrite length_skipn. lia.
Qed.

(** What [get_users] returns is the rows that follow the first [skip] among
    the first [limit] rows of the table: [skip] is applied to what [LIMIT]
    has left.  The page holds at most [limit - skip] users, and none when
    [skip] reaches [limit]; the handler writes nothing. *)
Theorem get_users_skips_within_the_limit rt py w table skip limit page :
  (0 <= skip)%Z ->
  snd (run w (get_users rt py w table skip limit)) = Ok page ->
  (exists users,
      Forall2 (fun row u => UserResponse_of py row = Some u)
              (firstn (Z.to_nat limit) table) users
      /\ page = skipn (Z.to_nat skip) users)
  /\ (List.length page <= Z.to_nat (limit - skip))%nat
  /\ ((limit <= skip)%Z -> page = [])
  /\ log (fst (run w (get_users rt py w table skip limit))) = [].
Proof.
  intros Hs Hr.
  assert (H : hoare (fun _ => False)
                (fun page =>
                   exists users,
                     (0 < limit)%Z
                     /\ Forall2 (fun row u => UserResponse_of py row = Some u)
                                (firstn (Z.to_nat limit) table) users
                     /\ page = py_slice users skip (skip + limit))
                (get_users rt py w table skip limit)).
  { unfold get_users. apply hoare_try_except; [|intros e; apply hoare_raise].
    eapply hoare_bind; [apply hoare_select_limit|]. intros result [Hl ->].
    eapply hoare_bind; [apply hoare_collect|]. intros users HF.
    eapply hoare_weaken; [apply hoare_ret|]. intros a ->. eauto. }
  unfold run in *. destruct (get_users rt py w table skip limit (init w)) as [st r] eqn:E.
  simpl in Hr. subst r.
  destruct (H _ _ _ E (Forall_nil _)) as [Hlog Hpage].
  destruct (Hpage page eq_refl) as (users & Hl & HF & ->).
  destruct (page_within _ _ _ _ _ Hs Hl HF) as [-> Hlen].
  split; [eauto|]. split; [assumption|]. split.
  - intros Hle. apply length_zero_iff_nil. lia.
  - simpl. destruct (log st) as [|o l]; [reflexivity|]. inversion Hlog; contradiction.
Qed.

Lemma get_users_skips_within_the_limit_witness :
  (List.length
     (skipn 2 (map (fun n => {| UserResponse.user_id := PUUID n;
                                UserResponse.username := PStr "user";
                                UserResponse.email := PStr "u@example.org";
                                UserResponse.role := PStr "developer";
                                UserResponse.created_at := PDatetime 50%Z |})
                   [1%N; 2%N; 3%N]))
   <= Z.to_nat (3 - 2))%nat.
Proof.
  exact (proj1 (proj2
    (get_users_skips_within_the_limit sample_rt sample_py empty_world
       [sample_user 1; sample_user 2; sample_user 3; sample_user 4] 2 3 _
       ltac:(lia) eq_refl))).
Defined.

(** The same of [get_projects]. *)
Theorem get_projects_skips_within_the_limit rt py w table skip limit page :
  (0 <= skip)%Z ->
  snd (run w (get_projects rt py w table skip limit)) = Ok page ->
  (exists projects,
      Forall2 (fun row u => ProjectResponse_of py row = Some u)
              (firstn (Z.to_nat limit) table) projects
      /\ page = skipn (Z.to_nat skip) projects)
  /\ (List.length page <= Z.to_nat (limit - skip))%nat
  /\ ((limit <= skip)%Z -> page = [])
  /\ log (fst (run w (get_projects rt py w table skip limit))) = [].
Proof.
  intros Hs Hr.
  assert (H : hoare (fun _ => False)
                (fun page =>
                   exists projects,
                     (0 < limit)%Z
                     /\ Forall2 (fun row u => ProjectResponse_of py row = Some u)
                                (firstn (Z.to_nat limit) table) projects
                     /\ page = py_slice projects skip (skip + limit))
                (get_projects rt py w table skip limit)).
  { unfold get_projects. apply hoare_try_except; [|intros e; apply hoare_raise].
    eapply hoare_bind; [apply hoare_select_limit|]. intros result [Hl ->].
    eapply hoare_bind; [apply hoare_collect|]. intros projects HF.
    eapply hoare_weaken; [apply hoare_ret|]. intros a ->. eauto. }
  unfold run in *.
  destruct (get_projects rt py w table skip limit (init w)) as [st r] eqn:E.
  simpl in Hr. subst r.
  destruct (H _ _ _ E (Forall_nil _)) as [Hlog Hpage].
  destruct (Hpage page eq_refl) as (projects & Hl & HF & ->).
  destruct (page_within _ _ _ _ _ Hs Hl HF) as [-> Hlen].
  split; [eauto|]. split; [assumption|]. split.
  - intros Hle. apply length_zero_iff_nil. lia.
  - simpl. destruct (log st) as [|o l]; [reflexivity|]. inversion Hlog; contradiction.
Qed.

Lemma get_projects_skips_within_the_limit_witness :
  (List.length
     (skipn 1 (map (fun n => {| ProjectResponse.project_id := PUUID n;
                                ProjectResponse.name := PStr "Web Application";
                                ProjectResponse.description := PNone;
                                ProjectResponse.created_at := PDatetime 50%Z |})
                   [1%N; 2%N]))
   <= Z.to_nat (2 - 1))%nat.
Proof.
  exact (proj1 (proj2
    (get_projects_skips_within_the_limit sample_rt sample_py empty_world
       [sample_project 1; sample_project 2; sample_project 3] 1 2 _
       ltac:(lia) eq_refl))).
Defined.

(** A second page asked for with [skip = limit] is empty, whatever the
    table holds. *)
Example second_page_of_users_is_empty :
  snd (run empty_world
         (get_users sample_rt sample_py empty_world
            [sample_user 1; sample_user 2; sample_user 3; sample_user 4] 2 2))
  = Ok [].
Proof. reflexivity. Qed.

(** [get_issue] answers every failure with status 500: a malformed
    identifier, a failure of the storage, a row pydantic refuses, and the
    404 it raises itself for an issue that does not exist.  What it returns
    is built from a row of [issues_by_project] with the identifiers asked
    for. *)
Theorem get_issue_answers_every_failure_with_500 rt py w issue_id project_id :
  (forall e,
      snd (run w (get_issue rt py w issue_id project_id)) = Raise e ->
      exists detail, e = HTTPException 500 detail)
  /\ (forall resp,
        snd (run w (get_issue rt py w issue_id project_id)) = Ok resp ->
        exists p i row,
          UUID rt project_id = Some p /\ UUID rt issue_id = Some i
          /\ In row (w_issues_by_project w)
          /\ ProjectRow.project_id row = p /\ ProjectRow.issue_id row = i
          /\ IssueResponse_of py row = Some resp)
  /\ (forall p i,
        UUID rt project_id = Some p -> UUID rt issue_id = Some i ->
        storage_answers w 1 ->
        (forall row, In row (w_issues_by_project w) ->
                     ~ (ProjectRow.project_id row = p /\ ProjectRow.issue_id row = i)) ->
        snd (run w (get_issue rt py w issue_id project_id))
        = Raise (HTTPException 500
                   ("Error fetching issue: "
                    ++ str_exn rt (HTTPException 404 "Issue not found"))%string)).
Proof.
  split; [|split].
  - intros e. unfold run, get_issue, try_except.
    match goal with |- context [match ?m (init w) with _ => _ end] =>
      destruct (m (init w)) as [st [a|e']] end; simpl.
    + discriminate.
    + intros [= <-]. eexists. reflexivity.
  - intros resp Hr.
    assert (H : hoare (fun _ => False)
                  (fun resp =>
                     exists p i row,
                       UUID rt project_id = Some p /\ UUID rt issue_id = Some i
                       /\ Second.one (Second.get_query w p i) = Some row
                       /\ IssueResponse_of py row = Some resp)
                  (get_issue rt py w issue_id project_id)).
    { unfold get_issue. apply hoare_try_except; [|intros e; apply hoare_raise].
      eapply hoare_bind; [apply hoare_parse_uuid|]. intros p Hp.
      eapply hoare_bind; [apply hoare_parse_uuid|]. intros i Hi.
      eapply hoare_bind; [apply hoare_select|]. intros result ->.
      destruct (Second.one (Second.get_query w p i)) as [row|] eqn:Hrow;
        [|apply hoare_raise].
      unfold validate. destruct (IssueResponse_of py row) as [r|] eqn:Hv;
        [|apply hoare_raise].
      eapply hoare_weaken; [apply hoare_ret|]. intros a ->.
      exists p, i, row. auto. }
    unfold run in Hr.
    destruct (get_issue rt py w issue_id project_id (init w)) as [st r] eqn:E.
    simpl in Hr. subst r.
    destruct (H _ _ _ E (Forall_nil _)) as [_ Hq].
    destruct (Hq resp eq_refl) as (p & i & row & Hp & Hi & Hrow & Hv).
    destruct (current_issue_found second_registration w p i row Hrow)
      as (Hin & Hpp & Hii).
    exists p, i, row. auto 10.
  - intros p i Hp Hi Hs Hrows.
    pose proof (current_issue_missing second_registration w p i Hrows) as Hcur.
    simpl in Hcur.
    unfold run, get_issue, try_except, bind, parse_uuid. rewrite Hp, Hi. simpl.
    unfold select, db_call, init, storage_answers in *.
    destruct (w_fail w) as [[[|k] msg]|]; simpl; [lia| |];
      rewrite Hcur; reflexivity.
Qed.

Example get_issue_of_a_missing_issue :
  snd (run empty_world (get_issue sample_rt sample_py empty_world "i-2" "p-1"))
  = Raise (HTTPException 500
             ("Error fetching issue: "
              ++ str_exn sample_rt (HTTPException 404 "Issue not found"))%string).
Proof. reflexivity. Qed.

(** ** The connection manager *)

Lemma advance_zero p : advance 0 [] p = p.
Proof. destruct p. unfold advance. simpl. now rewrite app_nil_r. Qed.

Lemma advance_advance n a m b p :
  advance n a (advance m b p) = advance (n + m) (b ++ a) p.
Proof.
  unfold advance. simpl. f_equal; [lia | now rewrite app_assoc].
Qed.

Lemma proc_bind_returns {A B} (m : Proc A) (f : A -> Proc B) p p' a :
  m p = (p', Returns a) -> ProcMonad.bind m f p = f a p'.
Proof. intros H. unfold ProcMonad.bind. now rewrite H. Qed.

Lemma proc_bind_raises {A B} (m : Proc A) (f : A -> Proc B) p p' ex :
  m p = (p', Raises ex) -> ProcMonad.bind m f p = (p', Raises ex).
Proof. intros H. unfold ProcMonad.bind. now rewrite H. Qed.

Lemma self_session_execute_sends e s p db :
  session p = Some db ->
  CassandraManager.self_session_execute e s p
  = match refused e (calls p) with
    | Some msg => (advance 1 [] p, Raises (Exn (StorageError msg)))
    | None => (advance 1 [s] p, Returns tt)
    end.
Proof.
  intros H. unfold CassandraManager.self_session_execute. rewrite H.
  unfold session_execute, driver_call, advance.
  destruct (refused e (calls p)); simpl; [now rewrite app_nil_r | reflexivity].
Qed.

Lemma self_session_execute_without_session e s p :
  session p = None ->
  CassandraManager.self_session_execute e s p
  = (p, Raises (AttributeError "'NoneType' object has no attribute 'execute'")).
Proof.
  intros H. unfold CassandraManager.self_session_execute. now rewrite H.
Qed.

(** A loop of [self.session.execute] stops at the first call the driver
    refuses. *)
Lemma for_each_execute {A} e (f : A -> statement) l p db :
  session p = Some db ->
  ProcMonad.for_each l (fun x => CassandraManager.self_session_execute e (f x)) p
  = match first_refusal e (calls p) (List.length l) with
    | None => (advance (List.length l) (map f l) p, Returns tt)
    | Some (k, msg) =>
        (advance (S k) (map f (firstn k l)) p, Raises (Exn (StorageError msg)))
    end.
Proof.
  revert p. induction l as [|x xs IH]; intros p Hs; simpl.
  - unfold ProcMonad.ret. now rewrite advance_zero.
  - unfold ProcMonad.bind at 1.
    rewrite (self_session_execute_sends e (f x) p db Hs).
    destruct (refused e (calls p)) as [msg|] eqn:R; [reflexivity|].
    rewrite (IH (advance 1 [f x] p) Hs). simpl calls.
    destruct (first_refusal e (S (calls p)) (List.length xs)) as [[k msg]|].
    + rewrite advance_advance. simpl. do 2 f_equal. lia.
    + rewrite advance_advance. simpl. do 2 f_equal. lia.
Qed.

(** A loop that swallows what [self.session.execute] raises goes through
    the whole list. *)
Lemma for_each_swallow e l p db :
  session p = Some db ->
  ProcMonad.for_each l
    (fun s => ProcMonad.try_except (CassandraManager.self_session_execute e s)
                (fun _ => ProcMonad.ret tt)) p
  = (advance (List.length l) (accepted e (calls p) l) p, Returns tt).
Proof.
  revert p. induction l as [|s l IH]; intros p Hs; simpl.
  - unfold ProcMonad.ret. now rewrite advance_zero.
  - unfold ProcMonad.bind at 1, ProcMonad.try_except at 1.
    rewrite (self_session_execute_sends e s p db Hs).
    destruct (refused e (calls p)) as [msg|] eqn:R; simpl.
    + rewrite (IH (advance 1 [] p) Hs), advance_advance. simpl.
      do 2 f_equal. lia.
    + rewrite (IH (advance 1 [s] p) Hs), advance_advance. simpl.
      do 2 f_equal. lia.
Qed.

Lemma for_each_swallow_without_session e l p :
  session p = None ->
  ProcMonad.for_each l
    (fun s => ProcMonad.try_except (CassandraManager.self_session_execute e s)
                (fun _ => ProcMonad.ret tt)) p
  = (p, Returns tt).
Proof.
  intros Hs. induction l as [|s l IH]; simpl; [reflexivity|].
  unfold ProcMonad.bind at 1, ProcMonad.try_except at 1.
  rewrite (self_session_execute_without_session e s p Hs). simpl. exact IH.
Qed.

Lemma create_tables_outcome e p db :
  session p = Some db ->
  CassandraManager.create_tables e p
  = match first_refusal e (calls p) 9 with
    | None => (advance 9 (map CREATE_TABLE tables_created) p, Returns tt)
    | Some (k, msg) =>
        (advance (S k) (map CREATE_TABLE (firstn k tables_created)) p,
         Raises (Exn (StorageError msg)))
    end.
Proof.
  intros Hs. unfold CassandraManager.create_tables, ProcMonad.try_except.
  rewrite (for_each_execute e CREATE_TABLE tables_created p db Hs).
  change (List.length tables_created) with 9.
  destruct (first_refusal e (calls p) 9) as [[k msg]|]; reflexivity.
Qed.

Lemma create_indexes_outcome e p :
  CassandraManager.create_indexes e p
  = match session p with
    | Some _ => (advance 5 (accepted e (calls p) indexes) p, Returns tt)
    | None => (p, Returns tt)
    end.
Proof.
  unfold CassandraManager.create_indexes.
  destruct (session p) as [db|] eqn:Hs.
  - exact (for_each_swallow e indexes p db Hs).
  - exact (for_each_swallow_without_session e indexes p Hs).
Qed.

Lemma clear_tables_outcome e p :
  CassandraManager.clear_tables e p
  = match session p with
    | None =>
        (p, Raises (AttributeError "'NoneType' object has no attribute 'execute'"))
    | Some _ =>
        match first_refusal e (calls p) 9 with
        | None => (advance 9 (map TRUNCATE tables) p, Returns tt)
        | Some (k, msg) =>
            (advance (S k) (map TRUNCATE (firstn k tables)) p,
             Raises (Exn (StorageError msg)))
        end
    end.
Proof.
  unfold CassandraManager.clear_tables, ProcMonad.try_except.
  destruct (session p) as [db|] eqn:Hs.
  - rewrite (for_each_execute e TRUNCATE tables p db Hs).
    change (List.length tables) with 9.
    destruct (first_refusal e (calls p) 9) as [[k msg]|]; reflexivity.
  - simpl. unfold ProcMonad.bind at 1.
    now rewrite (self_session_execute_without_session e _ p Hs).
Qed.

(** [create_indexes] never raises.  With a session it makes all five
    driver calls, and the storage gains the indexes the driver did not
    refuse, whichever those are; without a session it swallows the
    [AttributeError] of each statement and changes nothing. *)
Theorem create_indexes_never_raises e p :
  snd (CassandraManager.create_indexes e p) = Returns tt
  /\ match session p with
     | Some _ =>
         calls (fst (CassandraManager.create_indexes e p)) = 5 + calls p
         /\ storage (fst (CassandraManager.create_indexes e p))
            = storage p ++ accepted e (calls p) indexes
     | None => fst (CassandraManager.create_indexes e p) = p
     end.
Proof.
  rewrite create_indexes_outcome. destruct (session p); simpl; auto.
Qed.

Example second_index_refused :
  accepted (refusing 1 "timeout") 0 indexes
  = [ CREATE_INDEX "idx_users_email" "users" "email";
      CREATE_INDEX "idx_history_field" "issue_history" "field_changed";
      CREATE_INDEX "idx_issues_status" "issues_by_project" "status";
      CREATE_INDEX "idx_issues_priority" "issues_by_project" "priority" ].
Proof. reflexivity. Qed.

(** [clear_tables] truncates the tables in the order of its list and stops
    at the first [TRUNCATE] the driver refuses: the tables before it are
    empty, the others keep their rows, and the driver's exception is
    raised as it is.  Without a session it raises [AttributeError] and
    sends nothing.  The list holds each declared table once. *)
Theorem clear_tables_stops_at_the_first_failure e p :
  CassandraManager.clear_tables e p
  = match session p with
    | None =>
        (p, Raises (AttributeError "'NoneType' object has no attribute 'execute'"))
    | Some _ =>
        match first_refusal e (calls p) 9 with
        | None => (advance 9 (map TRUNCATE tables) p, Returns tt)
        | Some (k, msg) =>
            (advance (S k) (map TRUNCATE (firstn k tables)) p,
             Raises (Exn (StorageError msg)))
        end
    end
  /\ NoDup tables
  /\ (forall name, In name tables <-> In name declared).
Proof.
  split; [|split].
  - apply clear_tables_outcome.
  - unfold tables. repeat constructor; simpl; intuition discriminate.
  - intros name. unfold tables, declared, tables_created. simpl. tauto.
Qed.

Example third_truncate_refused :
  storage (fst (CassandraManager.clear_tables (refusing 2 "timeout")
                  sample_process))
  = [TRUNCATE "users"; TRUNCATE "projects"].
Proof. reflexivity. Qed.

Lemma connect_try_outcome e hosts z k p :
  let '(p', r) := CassandraManager.connect_try e hosts z k p in
  match r with
  | Returns _ =>
      is_connected p' = true
      /\ exists c n,
           cluster p' = Some c
           /\ session p' = Some {| Session.cluster := c;
                                   Session.keyspace := Some k;
                                   Session.row_factory := dict_factory |}
           /\ Cluster.contact_points c = hosts /\ Cluster.port c = z
           /\ storage p'
              = storage p
                ++ CREATE_KEYSPACE k :: USE k
                   :: map CREATE_TABLE tables_created ++ accepted e n indexes
  | Raises _ =>
      is_connected p' = false /\ session p' = None /\ cluster p' = None
  end.
Proof.
  destruct p as [c0 s0 ic n st sd u cl].
  unfold CassandraManager.connect_try, ProcMonad.try_except, ProcMonad.bind,
    CassandraManager.new_Cluster, CassandraManager.self_cluster_connect,
    CassandraManager.self_session_execute,
    CassandraManager.self_session_set_keyspace,
    CassandraManager.self_session_row_factory, session_execute,
    driver_call, set_cluster, set_session, set_is_connected,
    ProcMonad.bind, ProcMonad.raise, ProcMonad.ret.
  cbn -[CassandraManager.create_tables CassandraManager.create_indexes].
  repeat match goal with
         | |- context [match refused e ?m with _ => _ end] =>
             destruct (refused e m) eqn:?;
             cbn -[CassandraManager.create_tables CassandraManager.create_indexes]
         | |- context [if no_session e ?m then _ else _] =>
             destruct (no_session e m) eqn:?;
             cbn -[CassandraManager.create_tables CassandraManager.create_indexes]
         | |- context [CassandraManager.create_tables e ?q] =>
             erewrite (create_tables_outcome e q) by reflexivity;
             destruct (first_refusal e (calls q) 9) as [[? ?]|] eqn:?;
             cbn -[CassandraManager.create_tables CassandraManager.create_indexes
                   tables_created]
         | |- context [CassandraManager.create_indexes e ?q] =>
             rewrite (create_indexes_outcome e q);
             cbn -[CassandraManager.create_tables CassandraManager.create_indexes
                   tables_created indexes accepted]
         end.
  all: try (repeat split; reflexivity).
  all: split; [reflexivity|]; do 2 eexists;
    split; [reflexivity|]; split; [reflexivity|];
    split; [reflexivity|]; split; [reflexivity|];
    rewrite <- !app_assoc; reflexivity.
Qed.

Lemma connect_outcome e hosts port keyspace p :
  let '(p', r) := CassandraManager.connect e hosts port keyspace p in
  match r with
  | Returns _ =>
      is_connected p' = true
      /\ exists c n,
           cluster p' = Some c
           /\ session p'
              = Some {| Session.cluster := c;
                        Session.keyspace := Some (keyspace_of e keyspace);
                        Session.row_factory := dict_factory |}
           /\ Cluster.contact_points c = hosts_of e hosts
           /\ port_of e port = Some (Cluster.port c)
           /\ storage p'
              = storage p
                ++ CREATE_KEYSPACE (keyspace_of e keyspace)
                   :: USE (keyspace_of e keyspace)
                   :: map CREATE_TABLE tables_created ++ accepted e n indexes
  | Raises ex =>
      match port_of e port with
      | Some _ => is_connected p' = false /\ session p' = None /\ cluster p' = None
      | None => p' = p /\ exists msg, ex = Exn (ValueError msg)
      end
  end.
Proof.
  assert (Htry : forall z,
             port_of e port = Some z ->
             let '(p', r) :=
               CassandraManager.connect_try e (hosts_of e hosts) z
                 (keyspace_of e keyspace) p in
             match r with
             | Returns _ =>
                 is_connected p' = true
                 /\ exists c n,
                      cluster p' = Some c
                      /\ session p'
                         = Some {| Session.cluster := c;
                                   Session.keyspace := Some (keyspace_of e keyspace);
                                   Session.row_factory := dict_factory |}
                      /\ Cluster.contact_points c = hosts_of e hosts
                      /\ port_of e port = Some (Cluster.port c)
                      /\ storage p'
                         = storage p
                           ++ CREATE_KEYSPACE (keyspace_of e keyspace)
                              :: USE (keyspace_of e keyspace)
                              :: map CREATE_TABLE tables_created
                                 ++ accepted e n indexes
             | Raises ex =>
                 match port_of e port with
                 | Some _ =>
                     is_connected p' = false /\ session p' = None
                     /\ cluster p' = None
                 | None => p' = p /\ exists msg, ex = Exn (ValueError msg)
                 end
             end).
  { intros z Hz.
    pose proof (connect_try_outcome e (hosts_of e hosts) z
                  (keyspace_of e keyspace) p) as H.
    destruct (CassandraManager.connect_try e (hosts_of e hosts) z
                (keyspace_of e keyspace) p) as [p' [a|ex]].
    - destruct H as (Hc & c & n & H1 & H2 & H3 & H4 & H5).
      split; [assumption|]. exists c, n. rewrite Hz, H4. auto 10.
    - now rewrite Hz. }
  unfold CassandraManager.connect, ProcMonad.bind, int_of, ProcMonad.ret,
    ProcMonad.raise.
  destruct port as [[z|s]|]; simpl in *.
  - specialize (Htry z eq_refl).
    destruct hosts as [[h|l]|]; exact Htry.
  - destruct (int e s) as [z|] eqn:Hs.
    + specialize (Htry z eq_refl).
      destruct hosts as [[h|l]|]; exact Htry.
    + split; [reflexivity|eauto].
  - destruct (int e (getenv e "CASSANDRA_PORT" "9042")) as [z|] eqn:Hs.
    + specialize (Htry z eq_refl).
      destruct hosts as [[h|l]|]; exact Htry.
    + split; [reflexivity|eauto].
Qed.

(** [connect] either connects or resets the manager.  When it returns, the
    flag is set, the manager holds a cluster for the hosts and the port
    asked for and a session of it on the keyspace with [dict_factory], and
    the storage has received [CREATE KEYSPACE], the selection of the
    keyspace, the nine tables in their order and those of the five indexes
    the driver did not refuse.  When it raises, the three attributes are
    [False], [None] and [None]; only when the port is a string [int] does
    not read, the [ValueError] leaves the manager as it was. *)
Theorem connect_connects_or_resets e hosts port keyspace p :
  let '(p', r) := CassandraManager.connect e hosts port keyspace p in
  match r with
  | Returns _ =>
      is_connected p' = true
      /\ exists c n,
           cluster p' = Some c
           /\ session p'
              = Some {| Session.cluster := c;
                        Session.keyspace := Some (keyspace_of e keyspace);
                        Session.row_factory := dict_factory |}
           /\ Cluster.contact_points c = hosts_of e hosts
           /\ port_of e port = Some (Cluster.port c)
           /\ storage p'
              = storage p
                ++ CREATE_KEYSPACE (keyspace_of e keyspace)
                   :: USE (keyspace_of e keyspace)
                   :: map CREATE_TABLE tables_created ++ accepted e n indexes
  | Raises ex =>
      match port_of e port with
      | Some _ => is_connected p' = false /\ session p' = None /\ cluster p' = None
      | None => p' = p /\ exists msg, ex = Exn (ValueError msg)
      end
  end.
Proof. apply connect_outcome. Qed.


Example connect_with_the_defaults :
  let p := fst (CassandraManager.connect sample_env None None None __init__) in
  is_connected p = true
  /\ option_map Session.keyspace (session p) = Some (Some "issue_tracker")
  /\ List.length (storage p) = 16.
Proof. repeat split. Qed.

Example connect_refused_at_a_table :
  let p := fst (CassandraManager.connect (refusing 6 "timeout") None None None
                  __init__) in
  is_connected p = false /\ session p = None /\ cluster p = None
  /\ List.length (storage p) = 4.
Proof. repeat split. Qed.

Lemma lifespan_startup_outcome e p :
  lifespan_startup e p
  = if is_connected p then (p, Returns tt)
    else CassandraManager.connect e None None None p.
Proof.
  unfold lifespan_startup. destruct (is_connected p); simpl; [reflexivity|].
  unfold ProcMonad.bind at 1.
  pose proof (connect_outcome e None None None p) as H.
  destruct (CassandraManager.connect e None None None p) as [p' [[]|ex]];
    [|reflexivity].
  destruct H as (Hc & c & n & _ & Hs & _). now rewrite Hc, Hs.
Qed.

(** The two checks [lifespan] makes after [connect()] never fire: its
    start does nothing when the flag is up, and otherwise it is
    [connect()] with the defaults, with the state and the outcome of that
    call; it raises what [connect] raises and nothing of its own. *)
Theorem lifespan_startup_is_connect e p :
  (is_connected p = true -> lifespan_startup e p = (p, Returns tt))
  /\ (is_connected p = false ->
      lifespan_startup e p = CassandraManager.connect e None None None p).
Proof.
  rewrite lifespan_startup_outcome. split; intros ->; reflexivity.
Qed.

(** ** What the calls keep *)

Section Invariant.
Variable I : Process -> Prop.

Lemma invariant_ret {A} (a : A) : invariant I (ProcMonad.ret a).
Proof. intros p p' r HI [= <- _]. exact HI. Qed.

Lemma invariant_raise {A} ex : invariant I (@ProcMonad.raise A ex).
Proof. intros p p' r HI [= <- _]. exact HI. Qed.

Lemma invariant_bind {A B} (m : Proc A) (f : A -> Proc B) :
  invariant I m -> (forall a, invariant I (f a)) ->
  invariant I (ProcMonad.bind m f).
Proof.
  intros Hm Hf p p' r HI H. unfold ProcMonad.bind in H.
  destruct (m p) as [p1 [a|ex]] eqn:E.
  - exact (Hf a _ _ _ (Hm _ _ _ HI E) H).
  - inversion H; subst. exact (Hm _ _ _ HI E).
Qed.

Lemma invariant_try_except {A} (m : Proc A) h :
  invariant I m -> (forall ex, invariant I (h ex)) ->
  invariant I (ProcMonad.try_except m h).
Proof.
  intros Hm Hh p p' r HI H. unfold ProcMonad.try_except in H.
  destruct (m p) as [p1 [a|ex]] eqn:E.
  - inversion H; subst. exact (Hm _ _ _ HI E).
  - exact (Hh ex _ _ _ (Hm _ _ _ HI E) H).
Qed.

Lemma invariant_for_each {A} (l : list A) body :
  (forall x, invariant I (body x)) -> invariant I (ProcMonad.for_each l body).
Proof.
  intros Hb. induction l as [|x xs IH]; simpl.
  - apply invariant_ret.
  - apply invariant_bind; [apply Hb | intros _; exact IH].
Qed.

Lemma invariant_when b m :
  invariant I m -> invariant I (ProcMonad.when b m).
Proof. intros Hm. destruct b; simpl; [exact Hm | apply invariant_ret]. Qed.

Lemma invariant_Depends {A B} (d : Proc A) (h : A -> Proc B) :
  invariant I d -> (forall a, invariant I (h a)) -> invariant I (Depends d h).
Proof. apply invariant_bind. Qed.

Lemma invariant_state_after {A} (m : Proc A) p :
  invariant I m -> I p -> I (state_after m p).
Proof.
  intros Hm HI. unfold state_after. destruct (m p) as [p' r] eqn:E.
  exact (Hm _ _ _ HI E).
Qed.

Lemma invariant_get_db : invariant I get_db.
Proof.
  intros p p' r HI H. unfold get_db in H.
  destruct (session p); [destruct (negb (is_connected p))|];
    inversion H; subst; exact HI.
Qed.

Lemma invariant_health_check : invariant I health_check.
Proof. intros p p' r HI [= <- _]. exact HI. Qed.

Lemma invariant_uuid_UUID rt text : invariant I (uuid_UUID rt text).
Proof.
  unfold uuid_UUID. destruct (UUID rt text);
    [apply invariant_ret | apply invariant_raise].
Qed.

Lemma invariant_int_of e text : invariant I (int_of e text).
Proof.
  unfold int_of. destruct (int e text);
    [apply invariant_ret | apply invariant_raise].
Qed.

End Invariant.

(** No statement changes the three attributes. *)
Lemma same_manager_refl p : same_manager p p.
Proof. repeat split. Qed.

Lemma frame_driver_call {A} e (a : A) eff p0 :
  invariant (same_manager p0) (driver_call e a eff).
Proof.
  intros p p' r (H1 & H2 & H3) H. unfold driver_call in H.
  destruct (refused e (calls p)); inversion H; subst; repeat split; assumption.
Qed.

Lemma frame_self_session_execute e s p0 :
  invariant (same_manager p0) (CassandraManager.self_session_execute e s).
Proof.
  intros p p' r HI H. unfold CassandraManager.self_session_execute in H.
  destruct (session p) as [db|].
  - exact (frame_driver_call e tt _ p0 _ _ _ HI H).
  - inversion H; subst. exact HI.
Qed.

Lemma frame_draw_uuid4 e p0 : invariant (same_manager p0) (draw_uuid4 e).
Proof. intros p p' r HI [= <- _]. exact HI. Qed.

Lemma frame_datetime_now e p0 : invariant (same_manager p0) (datetime_now e).
Proof. intros p p' r HI [= <- _]. exact HI. Qed.

Lemma frame_close p0 : invariant (same_manager p0) CassandraManager.close.
Proof.
  intros p p' r (H1 & H2 & H3) H. unfold CassandraManager.close in H.
  destruct (cluster p) eqn:E; inversion H; subst; repeat split; simpl;
    congruence.
Qed.

Ltac framed :=
  repeat match goal with
         | |- invariant _ (ProcMonad.ret _) => apply invariant_ret
         | |- invariant _ (ProcMonad.raise _) => apply invariant_raise
         | |- invariant _ get_db => apply invariant_get_db
         | |- invariant _ health_check => apply invariant_health_check
         | |- invariant _ (uuid_UUID _ _) => apply invariant_uuid_UUID
         | |- invariant _ (CassandraManager.self_session_execute _ _) =>
             apply frame_self_session_execute
         | |- invariant _ (session_execute _ _ _) => apply frame_driver_call
         | |- invariant _ (draw_uuid4 _) => apply frame_draw_uuid4
         | |- invariant _ (datetime_now _) => apply frame_datetime_now
         | |- invariant _ CassandraManager.close => apply frame_close
         | |- invariant _ (ProcMonad.when _ _) => apply invariant_when
         | |- invariant _ (ProcMonad.for_each _ _) =>
             apply invariant_for_each; intros ?
         | |- invariant _ (Depends _ _) => apply invariant_Depends; [|intros ?]
         | |- invariant _ (ProcMonad.try_except _ _) =>
             apply invariant_try_except; [|intros ?]
         | |- invariant _ (ProcMonad.bind _ _) =>
             apply invariant_bind; [|intros ?]
         end.

Lemma frame_clear_tables e p0 :
  invariant (same_manager p0) (CassandraManager.clear_tables e).
Proof. unfold CassandraManager.clear_tables. framed. Qed.

Lemma frame_create_tables e p0 :
  invariant (same_manager p0) (CassandraManager.create_tables e).
Proof. unfold CassandraManager.create_tables. framed. Qed.

Lemma frame_create_indexes e p0 :
  invariant (same_manager p0) (CassandraManager.create_indexes e).
Proof. unfold CassandraManager.create_indexes. framed. Qed.

Lemma frame_insert_issue e issue p0 :
  invariant (same_manager p0) (CassandraManager.insert_issue e issue).
Proof. unfold CassandraManager.insert_issue. framed. Qed.

Lemma frame_seed_test_data e rt p0 :
  invariant (same_manager p0) (CassandraManager.seed_test_data e rt).
Proof.
  unfold CassandraManager.seed_test_data, CassandraManager.user_entry,
    CassandraManager.project_entry, CassandraManager.issue_entry,
    CassandraManager.comment_entry, CassandraManager.insert_user,
    CassandraManager.insert_project, CassandraManager.insert_comment.
  apply invariant_try_except; [|intros ?; apply invariant_raise].
  apply invariant_bind; [apply frame_clear_tables|intros _].
  repeat match goal with
         | |- invariant _ (CassandraManager.insert_issue _ _) =>
             apply frame_insert_issue
         | _ => progress framed
         end.
Qed.

Lemma frame_perform rt e c p :
  is_Connect c = false -> same_manager p (perform rt e c p).
Proof.
  intros Hc.
  destruct c; try discriminate; simpl;
    apply invariant_state_after; try apply same_manager_refl.
  - apply frame_close.
  - apply frame_create_tables.
  - apply frame_create_indexes.
  - apply frame_clear_tables.
  - apply frame_seed_test_data.
  - apply frame_close.
  - apply invariant_get_db.
  - apply invariant_health_check.
  - unfold create_user. framed.
  - unfold create_project. framed.
  - unfold create_comment. framed.
  - unfold clear_all_data. framed. apply frame_clear_tables.
  - unfold seed_test_data. framed. apply frame_seed_test_data.
  - unfold reset_test_data. framed.
    + apply frame_clear_tables.
    + apply frame_seed_test_data.
Qed.

(** Only [connect] changes the connection: every other method of the
    manager and every handler leaves [cluster], [session] and
    [is_connected] as they are, whatever the driver does.  In particular
    [close] shuts the cluster down and keeps the flag and the session. *)
Theorem only_connect_changes_the_connection rt e c p :
  is_Connect c = false ->
  cluster (perform rt e c p) = cluster p
  /\ session (perform rt e c p) = session p
  /\ is_connected (perform rt e c p) = is_connected p.
Proof. apply frame_perform. Qed.

Lemma only_connect_changes_the_connection_witness :
  cluster (perform sample_rt sample_env ClearAllData
             sample_process)
  = cluster sample_process
  /\ session (perform sample_rt sample_env ClearAllData
                sample_process)
     = session sample_process
  /\ is_connected
       (perform sample_rt sample_env ClearAllData
          sample_process)
     = is_connected
         sample_process.
Proof.
  exact (only_connect_changes_the_connection sample_rt sample_env ClearAllData
           sample_process
           eq_refl).
Defined.


(** ** The flag and the session *)

Lemma consistent_perform rt e c p :
  consistent p -> consistent (perform rt e c p).
Proof.
  intros Hp.
  assert (Hconnect : forall hosts port keyspace,
             consistent (state_after
                           (CassandraManager.connect e hosts port keyspace) p)).
  { intros hosts port keyspace. unfold state_after.
    pose proof (connect_outcome e hosts port keyspace p) as H.
    destruct (CassandraManager.connect e hosts port keyspace p) as [p' [a|ex]];
      simpl.
    - destruct H as (_ & c' & n & Hc & Hs & _). intros _.
      rewrite Hc, Hs. split; discriminate.
    - destruct (port_of e port).
      + destruct H as (Hc & _). intros Ht. congruence.
      + destruct H as (-> & _). exact Hp. }
  destruct (is_Connect c) eqn:Hc.
  - destruct c; try discriminate; simpl.
    + apply Hconnect.
    + unfold state_after. rewrite lifespan_startup_outcome.
      destruct (is_connected p) eqn:Hi; [exact Hp|]. apply Hconnect.
  - destruct (frame_perform rt e c p Hc) as (H1 & H2 & H3).
    intros Ht. rewrite H1, H2. apply Hp. congruence.
Qed.

Lemma consistent_after rt e l : consistent (after rt e l).
Proof.
  unfold after.
  assert (H : forall p, consistent p ->
                        consistent (fold_left (fun p c => perform rt e c p) l p)).
  { induction l as [|c l IH]; intros p Hp; simpl; [exact Hp|].
    apply IH. now apply consistent_perform. }
  apply H. intros Hi. discriminate.
Qed.

(** After any sequence of calls on a fresh manager, whatever the driver
    did, the flag [is_connected] is up only with a session and a cluster.
    So [get_db] follows the flag alone: it hands out the session when the
    flag is up and answers 503 when it is down, and [health_check] never
    reports a connected database without a session or a cluster. *)
Theorem get_db_follows_the_flag rt e l :
  (is_connected (after rt e l) = true ->
   cluster (after rt e l) <> None
   /\ exists db, session (after rt e l) = Some db
                 /\ get_db (after rt e l) = (after rt e l, Returns db))
  /\ (is_connected (after rt e l) = false ->
      get_db (after rt e l) = (after rt e l, Raises unavailable))
  /\ (forall h,
        snd (health_check (after rt e l)) = Returns h ->
        Health.database_connected h = true ->
        Health.session_available h = true /\ Health.cluster_available h = true).
Proof.
  pose proof (consistent_after rt e l) as H. unfold consistent in H.
  split; [|split].
  - intros Hi. destruct (H Hi) as [Hs Hc]. split; [exact Hc|].
    unfold get_db. destruct (session (after rt e l)) as [db|]; [|congruence].
    exists db. now rewrite Hi.
  - intros Hi. unfold get_db. rewrite Hi.
    destruct (session (after rt e l)); reflexivity.
  - intros h [= <-]. simpl. intros Hi. destruct (H Hi) as [Hs Hc].
    destruct (session (after rt e l)); [|congruence].
    destruct (cluster (after rt e l)); [|congruence]. auto.
Qed.

Example get_db_before_and_after_connect :
  snd (get_db (after sample_rt sample_env [])) = Raises unavailable
  /\ (exists db,
        snd (get_db (after sample_rt sample_env [LifespanStartup; LifespanShutdown]))
        = Returns db)
  /\ snd (get_db (after sample_rt (refusing 3 "timeout") [LifespanStartup]))
     = Raises unavailable.
Proof. split; [reflexivity|split; [eexists; reflexivity|reflexivity]]. Qed.

(** ** The handlers on a manager without a session *)

Lemma seed_without_session e rt p :
  session p = None ->
  CassandraManager.seed_test_data e rt p
  = (p, Raises (AttributeError "'NoneType' object has no attribute 'execute'")).
Proof.
  intros Hs. unfold CassandraManager.seed_test_data.
  unfold ProcMonad.try_except at 1. unfold ProcMonad.bind at 1.
  rewrite clear_tables_outcome, Hs. reflexivity.
Qed.

(** On a manager that has no session, every handler that depends on
    [get_db] answers 503 and runs nothing, while [seed_test_data] and
    [reset_test_data], which do not depend on it, run into the
    [AttributeError] of [None.execute] and answer 500.  None of them
    reaches the storage. *)
Theorem handlers_without_a_session rt e p :
  session p = None ->
  (forall user, create_user rt e user p = (p, Raises unavailable))
  /\ (forall project, create_project rt e project p = (p, Raises unavailable))
  /\ (forall issue_id project_id comment,
        create_comment rt e issue_id project_id comment p
        = (p, Raises unavailable))
  /\ clear_all_data rt e p = (p, Raises unavailable)
  /\ seed_test_data rt e p
     = (p, Raises (Exn (HTTPException 500
                          ("Error seeding test data: "
                           ++ "'NoneType' object has no attribute 'execute'")%string)))
  /\ reset_test_data rt e p
     = (p, Raises (Exn (HTTPException 500
                          ("Error resetting data: "
                           ++ "'NoneType' object has no attribute 'execute'")%string))).
Proof.
  intros Hs.
  assert (Hdb : get_db p = (p, Raises unavailable))
    by (unfold get_db; now rewrite Hs).
  repeat split; intros.
  - unfold create_user, Depends, ProcMonad.bind. now rewrite Hdb.
  - unfold create_project, Depends, ProcMonad.bind. now rewrite Hdb.
  - unfold create_comment, Depends, ProcMonad.bind. now rewrite Hdb.
  - unfold clear_all_data, Depends, ProcMonad.bind. now rewrite Hdb.
  - unfold seed_test_data, ProcMonad.try_except, ProcMonad.bind.
    now rewrite (seed_without_session e rt p Hs).
  - unfold reset_test_data, ProcMonad.try_except, ProcMonad.bind.
    rewrite clear_tables_outcome, Hs. reflexivity.
Qed.

Lemma handlers_without_a_session_witness :
  (forall user, create_user sample_rt sample_env user __init__
                = (__init__, Raises unavailable))
  /\ (forall project, create_project sample_rt sample_env project __init__
                      = (__init__, Raises unavailable))
  /\ (forall issue_id project_id comment,
        create_comment sample_rt sample_env issue_id project_id comment __init__
        = (__init__, Raises unavailable))
  /\ clear_all_data sample_rt sample_env __init__ = (__init__, Raises unavailable)
  /\ seed_test_data sample_rt sample_env __init__
     = (__init__,
        Raises (Exn (HTTPException 500
                       ("Error seeding test data: "
                        ++ "'NoneType' object has no attribute 'execute'")%string)))
  /\ reset_test_data sample_rt sample_env __init__
     = (__init__,
        Raises (Exn (HTTPException 500
                       ("Error resetting data: "
                        ++ "'NoneType' object has no attribute 'execute'")%string))).
Proof.
  exact (handlers_without_a_session sample_rt sample_env __init__ eq_refl).
Defined.

(** ** The statements of the manager against the declared tables *)

Lemma fits_driver_call {A} e (a : A) eff :
  (forall l, Forall (fun s => statement_fits s = true) l ->
             Forall (fun s => statement_fits s = true) (eff l)) ->
  invariant fits_all (driver_call e a eff).
Proof.
  intros Heff p p' r HI H. unfold driver_call in H. unfold fits_all in *.
  destruct (refused e (calls p)); inversion H; subst; simpl; auto.
Qed.

Lemma fits_session_execute e db s :
  statement_fits s = true -> invariant fits_all (session_execute e db s).
Proof.
  intros Hs. apply fits_driver_call. intros l Hl. apply Forall_app. auto.
Qed.

Lemma fits_self_session_execute e s :
  statement_fits s = true ->
  invariant fits_all (CassandraManager.self_session_execute e s).
Proof.
  intros Hs p p' r HI H. unfold CassandraManager.self_session_execute in H.
  destruct (session p) as [db|].
  - exact (fits_session_execute e db s Hs _ _ _ HI H).
  - inversion H; subst. exact HI.
Qed.

Lemma fits_set_cluster c : invariant fits_all (set_cluster c).
Proof. intros p p' r HI [= <- _]. exact HI. Qed.

Lemma fits_set_session s : invariant fits_all (set_session s).
Proof. intros p p' r HI [= <- _]. exact HI. Qed.

Lemma fits_set_is_connected b : invariant fits_all (set_is_connected b).
Proof. intros p p' r HI [= <- _]. exact HI. Qed.

Lemma fits_draw_uuid4 e : invariant fits_all (draw_uuid4 e).
Proof. intros p p' r HI [= <- _]. exact HI. Qed.

Lemma fits_datetime_now e : invariant fits_all (datetime_now e).
Proof. intros p p' r HI [= <- _]. exact HI. Qed.

Lemma fits_close : invariant fits_all CassandraManager.close.
Proof.
  intros p p' r HI H. unfold CassandraManager.close in H.
  destruct (cluster p); inversion H; subst; exact HI.
Qed.

Lemma fits_new_Cluster e hosts port v :
  invariant fits_all (CassandraManager.new_Cluster e hosts port v).
Proof. apply fits_driver_call. auto. Qed.

Lemma fits_self_cluster_connect e :
  invariant fits_all (CassandraManager.self_cluster_connect e).
Proof.
  intros p p' r HI H. unfold CassandraManager.self_cluster_connect in H.
  destruct (cluster p).
  - eapply fits_driver_call; [|exact HI|exact H]. auto.
  - inversion H; subst. exact HI.
Qed.

Lemma fits_self_session_set_keyspace e k :
  invariant fits_all (CassandraManager.self_session_set_keyspace e k).
Proof.
  intros p p' r HI H. unfold CassandraManager.self_session_set_keyspace in H.
  destruct (session p).
  - revert H. apply invariant_bind; [|intros _; apply fits_set_session|exact HI].
    apply fits_driver_call. intros l Hl. apply Forall_app. auto.
  - inversion H; subst. exact HI.
Qed.

Lemma fits_self_session_row_factory f :
  invariant fits_all (CassandraManager.self_session_row_factory f).
Proof.
  intros p p' r HI H. unfold CassandraManager.self_session_row_factory in H.
  destruct (session p).
  - exact (fits_set_session _ _ _ _ HI H).
  - inversion H; subst. exact HI.
Qed.

Lemma invariant_for_each_in {A} (I : Process -> Prop) (l : list A) body :
  (forall x, In x l -> invariant I (body x)) ->
  invariant I (ProcMonad.for_each l body).
Proof.
  induction l as [|x xs IH]; intros Hb; simpl.
  - apply invariant_ret.
  - apply invariant_bind; [apply Hb; now left | intros _].
    apply IH. intros y Hy. apply Hb. now right.
Qed.

Ltac fitted :=
  repeat match goal with
         | |- invariant _ (ProcMonad.ret _) => apply invariant_ret
         | |- invariant _ (ProcMonad.raise _) => apply invariant_raise
         | |- invariant _ get_db => apply invariant_get_db
         | |- invariant _ health_check => apply invariant_health_check
         | |- invariant _ (uuid_UUID _ _) => apply invariant_uuid_UUID
         | |- invariant _ (int_of _ _) => apply invariant_int_of
         | |- invariant _ (CassandraManager.self_session_execute _ _) =>
             apply fits_self_session_execute; reflexivity
         | |- invariant _ (session_execute _ _ _) =>
             apply fits_session_execute; reflexivity
         | |- invariant _ (set_cluster _) => apply fits_set_cluster
         | |- invariant _ (set_session _) => apply fits_set_session
         | |- invariant _ (set_is_connected _) => apply fits_set_is_connected
         | |- invariant _ (draw_uuid4 _) => apply fits_draw_uuid4
         | |- invariant _ (datetime_now _) => apply fits_datetime_now
         | |- invariant _ CassandraManager.close => apply fits_close
         | |- invariant _ (CassandraManager.new_Cluster _ _ _ _) =>
             apply fits_new_Cluster
         | |- invariant _ (CassandraManager.self_cluster_connect _) =>
             apply fits_self_cluster_connect
         | |- invariant _ (CassandraManager.self_session_set_keyspace _ _) =>
             apply fits_self_session_set_keyspace
         | |- invariant _ (CassandraManager.self_session_row_factory _) =>
             apply fits_self_session_row_factory
         | |- invariant _ (ProcMonad.when _ _) => apply invariant_when
         | |- invariant _ (ProcMonad.for_each _ _) =>
             apply invariant_for_each; intros ?
         | |- invariant _ (Depends _ _) => apply invariant_Depends; [|intros ?]
         | |- invariant _ (ProcMonad.try_except _ _) =>
             apply invariant_try_except; [|intros ?]
         | |- invariant _ (ProcMonad.bind _ _) =>
             apply invariant_bind; [|intros ?]
         | |- invariant _ (match ?x with _ => _ end) => destruct x
         end.

Lemma fits_create_tables e : invariant fits_all (CassandraManager.create_tables e).
Proof.
  unfold CassandraManager.create_tables.
  apply invariant_try_except; [|intros ex; apply invariant_raise].
  apply invariant_for_each_in. intros s Hs.
  apply fits_self_session_execute. simpl in Hs.
  repeat destruct Hs as [<-|Hs]; try reflexivity. destruct Hs.
Qed.

Lemma fits_create_indexes e :
  invariant fits_all (CassandraManager.create_indexes e).
Proof.
  unfold CassandraManager.create_indexes.
  apply invariant_for_each_in. intros s Hs.
  apply invariant_try_except; [|intros ex; apply invariant_ret].
  apply fits_self_session_execute. simpl in Hs.
  repeat destruct Hs as [<-|Hs]; try reflexivity. destruct Hs.
Qed.

Lemma fits_clear_tables e : invariant fits_all (CassandraManager.clear_tables e).
Proof.
  unfold CassandraManager.clear_tables.
  apply invariant_try_except; [|intros ex; apply invariant_raise].
  apply invariant_for_each_in. intros s Hs.
  apply fits_self_session_execute. simpl in Hs.
  repeat destruct Hs as [<-|Hs]; try reflexivity. destruct Hs.
Qed.

Lemma fits_connect e hosts port keyspace :
  invariant fits_all (CassandraManager.connect e hosts port keyspace).
Proof.
  unfold CassandraManager.connect, CassandraManager.connect_try.
  repeat match goal with
         | |- invariant _ (CassandraManager.create_tables _) =>
             apply fits_create_tables
         | |- invariant _ (CassandraManager.create_indexes _) =>
             apply fits_create_indexes
         | _ => progress fitted
         end.
Qed.

Lemma fits_insert_issue e issue :
  invariant fits_all (CassandraManager.insert_issue e issue).
Proof. unfold CassandraManager.insert_issue. fitted. Qed.

Lemma fits_seed_test_data e rt :
  invariant fits_all (CassandraManager.seed_test_data e rt).
Proof.
  unfold CassandraManager.seed_test_data, CassandraManager.user_entry,
    CassandraManager.project_entry, CassandraManager.issue_entry,
    CassandraManager.comment_entry, CassandraManager.insert_user,
    CassandraManager.insert_project, CassandraManager.insert_comment.
  apply invariant_try_except; [|intros ?; apply invariant_raise].
  apply invariant_bind; [apply fits_clear_tables|intros _].
  repeat match goal with
         | |- invariant _ (CassandraManager.insert_issue _ _) =>
             apply fits_insert_issue
         | _ => progress fitted
         end.
Qed.

Lemma fits_perform rt e c p : fits_all p -> fits_all (perform rt e c p).
Proof.
  intros Hp. destruct c; simpl; apply invariant_state_after; try exact Hp.
  - apply fits_connect.
  - apply fits_close.
  - apply fits_create_tables.
  - apply fits_create_indexes.
  - apply fits_clear_tables.
  - apply fits_seed_test_data.
  - intros q q' r HI H. rewrite lifespan_startup_outcome in H.
    destruct (is_connected q).
    + inversion H; subst. exact HI.
    + exact (fits_connect e None None None _ _ _ HI H).
  - apply fits_close.
  - apply invariant_get_db.
  - apply invariant_health_check.
  - unfold create_user. fitted.
  - unfold create_project. fitted.
  - unfold create_comment. fitted.
  - unfold clear_all_data. fitted. apply fits_clear_tables.
  - unfold seed_test_data. fitted. apply fits_seed_test_data.
  - unfold reset_test_data. fitted.
    + apply fits_clear_tables.
    + apply fits_seed_test_data.
Qed.

(** Whatever is called on a fresh manager and whatever the driver does,
    every statement that reaches the storage fits the tables
    [create_tables] declares: each [TRUNCATE] of [clear_tables] names a
    declared table, each index of [create_indexes] a column of one, and
    each [INSERT] of [create_user], [create_project], [create_comment] and
    [seed_test_data] names columns of its table only and the whole primary
    key among them. *)
Theorem manager_statements_fit_the_declared_tables rt e l :
  Forall (fun s => statement_fits s = true) (storage (after rt e l)).
Proof.
  unfold after.
  assert (H : forall p, fits_all p ->
                        fits_all (fold_left (fun p c => perform rt e c p) l p)).
  { induction l as [|c l IH]; intros p Hp; simpl; [exact Hp|].
    apply IH. now apply fits_perform. }
  apply H. constructor.
Qed.

(** ** Seeded issues and created issues *)

Lemma self_session_execute_accepted e s p db :
  session p = Some db -> (forall n, refused e n = None) ->
  CassandraManager.self_session_execute e s p = (advance 1 [s] p, Returns tt).
Proof.
  intros Hs Hr. rewrite (self_session_execute_sends e s p db Hs).
  now rewrite Hr.
Qed.

Lemma when_execute_accepted e b s p db :
  session p = Some db -> (forall n, refused e n = None) ->
  ProcMonad.when b (CassandraManager.self_session_execute e s) p
  = (advance (if b then 1 else 0) (if b then [s] else []) p, Returns tt).
Proof.
  intros Hs Hr. destruct b; simpl.
  - exact (self_session_execute_accepted e s p db Hs Hr).
  - unfold ProcMonad.ret. now rewrite advance_zero.
Qed.

Lemma insert_issue_accepted e issue p db :
  session p = Some db -> (forall n, refused e n = None) ->
  exists k,
    CassandraManager.insert_issue e issue p
    = (advance k
         (map ISSUE
            (issue_rows (Seed.issue_id issue) (Seed.created_at issue)
               (Seed.updated_at issue)
               (PUUID (Seed.issue_project_id issue)) (PStr (Seed.title issue))
               (PStr (Seed.description issue)) (PStr (Seed.status issue))
               (PStr (Seed.priority issue)) (of_uuid (Seed.assignee_id issue))
               (PUUID (Seed.reporter_id issue)) (PStr (Seed.component issue))))
         p, Returns tt).
Proof.
  intros Hs Hr. unfold CassandraManager.insert_issue, issue_rows.
  repeat (erewrite proc_bind_returns;
          [|first [ eapply self_session_execute_accepted
                  | eapply when_execute_accepted ];
            [reflexivity || exact Hs | exact Hr]]).
  erewrite when_execute_accepted; [|reflexivity || exact Hs | exact Hr].
  rewrite !advance_advance.
  destruct (py_truthy (of_uuid (Seed.assignee_id issue))),
           (py_truthy (PStr (Seed.component issue)));
    eexists; reflexivity.
Qed.

(** The loop of [seed_test_data] writes an issue as [create_issue] does:
    for the entry that holds what a request holds, on a driver that
    refuses nothing, it sends exactly the statements an uninterrupted
    [create_issue] writes for the request, in the same order, to the same
    tables and with the same values. *)
Theorem seeded_issue_is_written_as_created rt e w issue p db :
  session p = Some db ->
  (forall n, refused e n = None) ->
  w_fail w = None ->
  snd (CassandraManager.insert_issue e (as_entry w issue) p) = Returns tt
  /\ storage (fst (CassandraManager.insert_issue e (as_entry w issue) p))
     = storage p ++ map ISSUE (log (fst (run w (create_issue rt w issue)))).
Proof.
  intros Hs Hr Hw.
  destruct (insert_issue_accepted e (as_entry w issue) p db Hs Hr) as [k ->].
  split; [reflexivity|]. simpl. f_equal. f_equal.
  unfold run, init. rewrite Hw. simpl.
  change {| failing := None; next_uuid := 0; log := [] |} with (quiet 0 []).
  rewrite (proj1 (create_issue_from_quiet rt w issue)).
  unfold create_writes, issue_rows.
  destruct (IssueCreate.component issue) as [c|]; reflexivity.
Qed.

Lemma seeded_issue_is_written_as_created_witness :
  snd (CassandraManager.insert_issue sample_env
         (as_entry empty_world sample_create) sample_process) = Returns tt
  /\ storage (fst (CassandraManager.insert_issue sample_env
                     (as_entry empty_world sample_create) sample_process))
     = storage sample_process
       ++ map ISSUE
            (log (fst (run empty_world
                         (create_issue sample_rt empty_world sample_create)))).
Proof.
  refine (seeded_issue_is_written_as_created sample_rt sample_env empty_world
            sample_create sample_process sample_session eq_refl (fun _ => eq_refl)
            eq_refl).
Defined.

(** ** The handlers that create a user, a project, a comment *)




Example create_user_on_the_sample :
  snd (create_user sample_rt sample_env sample_user_create sample_process)
  = Returns {| UserResponse.user_id := PUUID 100%N;
               UserResponse.username := PStr "alice";
               UserResponse.email := PStr "alice@example.org";
               UserResponse.role := PStr "tester";
               UserResponse.created_at := PDatetime 1000%Z |}.
Proof. reflexivity. Qed.
